(** * Thin-wire corrector magnets and the FieldMesh container

    A shallow embedding of [pmd_beamphysics/fields/corrector_modeling.py]
    and of the accessors of [pmd_beamphysics/fields/fieldmesh.py].

    Conventions of the embedding.
    - A Python call either returns a value or raises: [result A].
    - Coordinates, wire end points, currents and sizes handed to the
      functions are finite numbers, modelled as reals; float64 rounding and
      overflow are not modelled.  A float64 value computed by the code is a
      [float]: a finite real, or [NonFinite] (inf or nan), which is what numpy
      produces for a division by zero and which every later operation
      propagates.
    - At an observation point exactly on the line of a wire the distance R
      is 0 in exact arithmetic and the model's value there is [NonFinite].
      The float64 code computes R from a rounding residue at such a point,
      so what it returns there (a huge finite number, zero or nan) is
      decided by rounding alone.  The statements about field values are
      therefore about points off the line (R > 0); module [B64] evaluates
      the same statements in binary64 where a value on the line is needed.
    - A 3-d numpy array is its shape together with its elements in C order.
    - Plotting (matplotlib) has no effect on the returned values and is left
      out; the flags that select it are kept because they select what is
      returned. *)

From Stdlib Require Import Reals Lra Lia ZArith String List.
From stdpp Require Import base gmap strings list fin_maps.

Local Open Scope R_scope.
Local Open Scope string_scope.

(** Python integers. *)
Abbreviation int := Z (only parsing).

(** ** Exceptions and results *)

Inductive exn : Type :=
| AssertionError (msg : string)
| ValueError (msg : string)
| TypeError (msg : string)
| IndexError (msg : string)
| KeyError (key : string)
| AttributeError (name : string)
| RuntimeError (msg : string).

Inductive result (A : Type) : Type :=
| Ok (a : A)
| Raise (e : exn).
Arguments Ok {A} a.
Arguments Raise {A} e.

#[global] Instance result_ret : MRet result := fun A a => Ok a.
#[global] Instance result_bind : MBind result := fun A B f m =>
  match m with
  | Ok a => f a
  | Raise e => Raise e
  end.

Definition raises {A} (m : result A) : Prop := exists e, m = Raise e.
Definition returns {A} (m : result A) : Prop := exists a, m = Ok a.

(** ** float64 values *)

Inductive float : Type :=
| Fin (r : R)
| NonFinite.

Definition lift2 (f : R -> R -> R) (a b : float) : float :=
  match a, b with
  | Fin x, Fin y => Fin (f x y)
  | _, _ => NonFinite
  end.

Definition fadd : float -> float -> float := lift2 Rplus.
Definition fsub : float -> float -> float := lift2 Rminus.
Definition fmul : float -> float -> float := lift2 Rmult.

(** numpy division: a zero divisor gives inf or nan, never an exception. *)
Definition fdiv (a b : float) : float :=
  match a, b with
  | Fin x, Fin y => if Req_dec_T y 0 then NonFinite else Fin (x / y)
  | _, _ => NonFinite
  end.

Definition fabs (a : float) : float :=
  match a with Fin x => Fin (Rabs x) | NonFinite => NonFinite end.

(** [np.hypot] *)
Definition fhypot (a b : float) : float :=
  match a, b with
  | Fin x, Fin y => Fin (sqrt (x * x + y * y))
  | _, _ => NonFinite
  end.

Declare Scope float_scope.
Delimit Scope float_scope with fl.
Bind Scope float_scope with float.
Infix "+" := fadd : float_scope.
Infix "-" := fsub : float_scope.
Infix "*" := fmul : float_scope.
Infix "/" := fdiv : float_scope.

(** ** Three-vectors *)

Definition vec : Type := (R * R * R)%type.
Definition fvec : Type := (float * float * float)%type.

Definition vsub (u v : vec) : vec :=
  let '(a, b, c) := u in let '(d, e, f) := v in (a - d, b - e, c - f).
Definition vadd (u v : vec) : vec :=
  let '(a, b, c) := u in let '(d, e, f) := v in (a + d, b + e, c + f).
Definition vscale (k : R) (v : vec) : vec :=
  let '(a, b, c) := v in (k * a, k * b, k * c).
Definition vdiv (v : vec) (k : R) : vec :=
  let '(a, b, c) := v in (a / k, b / k, c / k).
(** [np.dot] of two 3-vectors *)
Definition dot (u v : vec) : R :=
  let '(a, b, c) := u in let '(d, e, f) := v in a * d + b * e + c * f.
(** [np.linalg.norm] *)
Definition norm (v : vec) : R := sqrt (dot v v).
(** [np.cross] *)
Definition cross (u v : vec) : vec :=
  let '(a, b, c) := u in let '(d, e, f) := v in
  (b * f - c * e, c * d - a * f, a * e - b * d).

Definition to_fvec (v : vec) : fvec :=
  let '(a, b, c) := v in (Fin a, Fin b, Fin c).
Definition fvdiv (v : fvec) (k : float) : fvec :=
  let '(a, b, c) := v in ((a / k)%fl, (b / k)%fl, (c / k)%fl).
Definition fvscale (k : float) (v : fvec) : fvec :=
  let '(a, b, c) := v in ((k * a)%fl, (k * b)%fl, (k * c)%fl).
Definition fcross (u v : fvec) : fvec :=
  let '(a, b, c) := u in let '(d, e, f) := v in
  ((b * f - c * e)%fl, (c * d - a * f)%fl, (a * e - b * d)%fl).

(** ** Arrays *)

Record ndarray (A : Type) : Type := mk_ndarray {
  shape : nat * nat * nat;
  flat : list A
}.
Arguments mk_ndarray {A} shape flat.
Arguments shape {A} n.
Arguments flat {A} n.

Definition arr_map {A B} (f : A -> B) (a : ndarray A) : ndarray B :=
  mk_ndarray (shape a) (f <$> flat a).

(** Elementwise binary operation on two arrays of one shape. *)
Definition arr_map2 {A B C} (f : A -> B -> C) (a : ndarray A) (b : ndarray B)
  : ndarray C :=
  mk_ndarray (shape a) (zip_with f (flat a) (flat b)).

Definition arr_add : ndarray float -> ndarray float -> ndarray float :=
  arr_map2 fadd.

Definition np_zeros (s : nat * nat * nat) : ndarray float :=
  let '(n1, n2, n3) := s in
  mk_ndarray s (repeat (Fin 0) (n1 * n2 * n3)).

(** The observation points [(x, y, z)] of three arrays of one shape. *)
Definition stacked (x y z : ndarray R) : ndarray vec :=
  mk_ndarray (shape x)
    (zip_with (fun xy c => (xy.1, xy.2, c))
       (zip_with pair (flat x) (flat y)) (flat z)).

(** [np.stack((x, y, z), axis=-1)]: the three arrays must have one shape. *)
Definition np_stack (x y z : ndarray R) : result (ndarray vec) :=
  if decide (shape x = shape y /\ shape y = shape z) then Ok (stacked x y z)
  else Raise (ValueError "all input arrays must have the same shape").

(** [B[:,:,:,0], B[:,:,:,1], B[:,:,:,2]] *)
Definition split3 {A} (B : ndarray (A * A * A))
  : ndarray A * ndarray A * ndarray A :=
  (arr_map (fun b => b.1.1) B, arr_map (fun b => b.1.2) B,
   arr_map (fun b => b.2) B).

Definition field3 : Type := (ndarray float * ndarray float * ndarray float)%type.

Definition field3_add (a b : field3) : field3 :=
  let '(ax, ay, az) := a in let '(bx, by_, bz) := b in
  (arr_add ax bx, arr_add ay by_, arr_add az bz).

(** Tuple unpacking [Bx, By, Bz = f(...)] of a call that may return [None]. *)
Definition unpack3 {A} (m : result (option A)) : result A :=
  match m with
  | Ok (Some a) => Ok a
  | Ok None => Raise (TypeError "cannot unpack non-iterable NoneType object")
  | Raise e => Raise e
  end.

(** [np.meshgrid(xs, ys, zs, indexing='ij')] *)
Definition np_meshgrid (xs ys zs : list R)
  : ndarray R * ndarray R * ndarray R :=
  let s := (length xs, length ys, length zs) in
  (mk_ndarray s (flat_map (fun x => flat_map (fun y => map (fun z => x) zs) ys) xs),
   mk_ndarray s (flat_map (fun x => flat_map (fun y => map (fun z => y) zs) ys) xs),
   mk_ndarray s (flat_map (fun x => flat_map (fun y => map (fun z => z) zs) ys) xs)).

(** [np.diff(xs)[0]] *)
Definition np_diff0 (xs : list R) : result R :=
  match xs with
  | x0 :: x1 :: _ => Ok (x1 - x0)
  | _ => Raise (IndexError "index 0 is out of bounds for axis 0 with size 0")
  end.

(** [xs[0]] *)
Definition index0 (xs : list R) : result R :=
  match xs with
  | x0 :: _ => Ok x0
  | [] => Raise (IndexError "index 0 is out of bounds for axis 0 with size 0")
  end.

(** An optional argument that was left at [None] and reaches an operator
    is a TypeError with the message [msg] of that operator. *)
Definition need {A} (msg : string) (o : option A) : result A :=
  match o with
  | Some v => Ok v
  | None => Raise (TypeError msg)
  end.

Definition unary_minus_None : string :=
  "bad operand type for unary -: 'NoneType'".
Definition unary_plus_None : string :=
  "bad operand type for unary +: 'NoneType'".
Definition int_times_None : string :=
  "unsupported operand type(s) for *: 'int' and 'NoneType'".
Definition None_times_float : string :=
  "unsupported operand type(s) for *: 'NoneType' and 'float'".
Definition float_minus_None : string :=
  "unsupported operand type(s) for -: 'float' and 'NoneType'".
Definition None_as_index : string :=
  "'NoneType' object cannot be interpreted as an integer".

(** ** The FieldMesh container *)

Inductive attr_value : Type :=
| AFloat3 (v : vec)
| AShape (s : nat * nat * nat)
| AInt3 (v : Z * Z * Z)
| AStr (s : string)
| AStr3 (s : string * string * string)
| AInt (n : Z)
| AFloat (r : R).

(** [_data['attrs']], [_data['components']] and the instance [__dict__]
    that [__init__] fills with one entry per component alias. *)
Record FieldMesh : Type := mk_FieldMesh {
  attrs : gmap string attr_value;
  components : gmap string (ndarray float);
  inst_dict : gmap string (ndarray float)
}.

Definition axis_labels_from_geometry : gmap string (list string) :=
  <["cartesian" := "x" :: "y" :: "z" :: nil]>
    (<["cylindrical" := "r" :: "theta" :: "z" :: nil]> ∅).

Definition dict_get {V} (d : gmap string V) (k : string) : result V :=
  match d !! k with
  | Some v => Ok v
  | None => Raise (KeyError k)
  end.

(** ** The straight-wire sampler in binary64

    Lines 107-151 of corrector_modeling.py once more, statement by
    statement, with the IEEE binary64 operations that numpy performs.  Exact
    arithmetic cannot say what the code returns at a point on the line of
    the wire, where everything hangs on how [P - lmin] rounds; this module
    can compute it. *)

From Stdlib Require PrimFloat.

Module B64.
#[warnings="-notation-overridden"]
Import PrimFloat.

Definition f64 : Set := PrimFloat.float.
Definition vec64 : Set := (f64 * f64 * f64)%type.

Definition vsub (u v : vec64) : vec64 :=
  let '(a, b, c) := u in let '(d, e, f) := v in (a - d, b - e, c - f)%float.
Definition vadd (u v : vec64) : vec64 :=
  let '(a, b, c) := u in let '(d, e, f) := v in (a + d, b + e, c + f)%float.
Definition vscale (k : f64) (v : vec64) : vec64 :=
  let '(a, b, c) := v in (k * a, k * b, k * c)%float.
Definition vdiv (v : vec64) (k : f64) : vec64 :=
  let '(a, b, c) := v in (a / k, b / k, c / k)%float.
Definition dot (u v : vec64) : f64 :=
  let '(a, b, c) := u in let '(d, e, f) := v in (a * d + b * e + c * f)%float.
Definition norm (v : vec64) : f64 := PrimFloat.sqrt (dot v v).
Definition cross (u v : vec64) : vec64 :=
  let '(a, b, c) := u in let '(d, e, f) := v in
  (b * f - c * e, c * d - a * f, a * e - b * d)%float.

(** [scipy.constants.pi], the binary64 number nearest to pi *)
Definition pi : f64 := 0x1.921fb54442d18p+1%float.

(** [scipy.constants.mu_0] (CODATA 2018), rounded to binary64 *)
#[warnings="-inexact-float"]
Definition mu_0 : f64 := 1.25663706212e-06%float.

(** The body of the function at one observation point [P]. *)
Definition wire_point (u0 : f64) (P p1 p2 : vec64) (current : f64) : vec64 :=
  let L := vsub p2 p1 in
  let Lhat := vdiv L (norm L) in
  let tmin := dot (vsub P p1) Lhat in
  let lmin := vadd p1 (vscale tmin Lhat) in
  let e1 := Lhat in
  let e2 := vsub P lmin in
  let e2_norm := norm e2 in
  let e2 := vdiv e2 e2_norm in
  let e3 := cross e1 e2 in
  let x1 := dot (vsub p1 lmin) e1 in
  let x2 := dot (vsub p2 lmin) e1 in
  let R_ := e2_norm in
  let B0 :=
    ((u0 * current / (4 * pi * R_))
     * (x2 / PrimFloat.sqrt (x2 * x2 + R_ * R_)
        - x1 / PrimFloat.sqrt (x1 * x1 + R_ * R_)))%float in
  vscale B0 e3.

Definition stacked (x y z : ndarray f64) : ndarray vec64 :=
  mk_ndarray (shape x)
    (zip_with (fun xy c => (xy.1, xy.2, c))
       (zip_with pair (flat x) (flat y)) (flat z)).

Definition bfield_from_thin_straight_wire (u0 : f64) (x y z : ndarray f64)
    (p1 p2 : vec64) (current : f64) (plot_wire return_axes : bool)
  : result (option (ndarray f64 * ndarray f64 * ndarray f64)) :=
  if (0 <? norm (vsub p2 p1))%float then
    if decide (shape x = shape y /\ shape y = shape z) then
      let B := arr_map (fun P => wire_point u0 P p1 p2 current)
                 (stacked x y z) in
      if plot_wire && return_axes then Ok None
      else Ok (Some (split3 B))
    else Raise (ValueError "all input arrays must have the same shape")
  else Raise (AssertionError "Line must be specified by 2 distinct points").

(** A grid of one observation point. *)
Definition grid1 (P : vec64)
  : ndarray f64 * ndarray f64 * ndarray f64 :=
  (mk_ndarray (1, 1, 1)%nat [P.1.1], mk_ndarray (1, 1, 1)%nat [P.1.2],
   mk_ndarray (1, 1, 1)%nat [P.2]).

End B64.

Section Model.

(** [scipy.constants.mu_0] *)
Variable u0 : R.

(** The alias registry of [pmd_beamphysics.readers]: [component_from_alias]
    maps an alias to a canonical component name, [component_alias] is the
    table read in the other direction. *)
Variable component_from_alias : gmap string string.
Variable component_alias : gmap string string.

(** ** bfield_from_thin_straight_wire *)

(** The body of the function at one observation point [P], in exact
    arithmetic.  For [P] on the line of the wire [e2_norm] is exactly 0 here
    and the divisions give [NonFinite]; in float64 that case is decided by
    rounding (see [B64.wire_point]). *)
Definition wire_point (P p1 p2 : vec) (current : R) : fvec :=
  let L := vsub p2 p1 in
  let Lhat := vdiv L (norm L) in
  let tmin := dot (vsub P p1) Lhat in
  let lmin := vadd p1 (vscale tmin Lhat) in
  let e1 := Lhat in
  let e2 := vsub P lmin in
  let e2_norm := norm e2 in
  let e2 := fvdiv (to_fvec e2) (Fin e2_norm) in
  let e3 := fcross (to_fvec e1) e2 in
  let x1 := dot (vsub p1 lmin) e1 in
  let x2 := dot (vsub p2 lmin) e1 in
  let R_ := e2_norm in
  let B0 :=
    ((Fin (u0 * current) / Fin (4 * PI * R_))
     * (Fin x2 / Fin (sqrt (x2 ^ 2 + R_ ^ 2))
        - Fin x1 / Fin (sqrt (x1 ^ 2 + R_ ^ 2))))%fl in
  fvscale B0 e3.

Definition bfield_from_thin_straight_wire (x y z : ndarray R) (p1 p2 : vec)
    (current : R) (plot_wire return_axes : bool) : result (option field3) :=
  if Rlt_dec 0 (norm (vsub p2 p1)) then
    P ← np_stack x y z;
    let B := arr_map (fun P => wire_point P p1 p2 current) P in
    if plot_wire && return_axes then Ok None
    else Ok (Some (split3 B))
  else Raise (AssertionError "Line must be specified by 2 distinct points").


(** ** bfield_from_thin_rectangular_coil *)

Definition bfield_from_thin_rectangular_coil (X Y Z : ndarray R)
    (a b y0 current : R) (plot_wire : bool) : result field3 :=
  let p1 := (- a / 2, y0, - b / 2) in
  let p2 := (a / 2, y0, - b / 2) in
  let p3 := (a / 2, y0, b / 2) in
  let p4 := (- a / 2, y0, b / 2) in
  B1 ← unpack3 (bfield_from_thin_straight_wire X Y Z p1 p2 current false false);
  B2 ← unpack3 (bfield_from_thin_straight_wire X Y Z p2 p3 current false false);
  B3 ← unpack3 (bfield_from_thin_straight_wire X Y Z p3 p4 current false false);
  B4 ← unpack3 (bfield_from_thin_straight_wire X Y Z p4 p1 current false false);
  Ok (field3_add (field3_add (field3_add B1 B2) B3) B4).

(** ** bfield_from_thin_rectangular_corrector *)

Definition bfield_from_thin_rectangular_corrector (X Y Z : ndarray R)
    (a b h current : R) (plot_wire : bool) : result field3 :=
  B1 ← bfield_from_thin_rectangular_coil X Y Z a b (- h / 2) current plot_wire;
  B2 ← bfield_from_thin_rectangular_coil X Y Z a b (h / 2) current plot_wire;
  Ok (field3_add B1 B2).

(** ** rotate_around_e3, get_arc_vectors *)

(** A 3x3 matrix as its three rows. *)
Definition mat3 : Type := (vec * vec * vec)%type.

Definition matmul (M : mat3) (v : vec) : vec :=
  let '(r1, r2, r3) := M in (dot r1 v, dot r2 v, dot r3 v).

Definition rotate_around_e3 (theta : R) : mat3 :=
  let C := cos theta in
  let S := sin theta in
  ((C, - S, 0), (S, C, 0), (0, 0, 0)).

(** [np.linspace(start, stop, num)] with the end point included. *)
Definition np_linspace (start stop : R) (num : int) : result (list R) :=
  if decide (num < 0)%Z then
    Raise (ValueError "Number of samples must be non-negative.")
  else
    let n := Z.to_nat num in
    let div := (n - 1)%nat in
    let delta := stop - start in
    Ok ((fun i : nat =>
           if decide (div = 0%nat) then start + INR i * delta
           else start + INR i * (delta / INR div))
        <$> seq 0 n).

Definition default_arc_e3 : vec := (0, 0, 1).

Definition get_arc_vectors (h R_ theta : R) (npts : int) (arc_e3 : vec)
  : result (list vec) :=
  let phi := (PI - theta) / 2 in
  let arc_e1 := matmul (rotate_around_e3 phi) (1, 0, 0) in
  (* np.isclose(x, 0): |x| <= atol = 1e-8 *)
  if Rle_dec (Rabs (dot arc_e1 arc_e3)) (1 / 10 ^ 8) then
    ths ← np_linspace 0 theta npts;
    Ok ((fun th =>
           vadd (0, 0, h) (vscale R_ (matmul (rotate_around_e3 th) arc_e1)))
        <$> (ths : list R))
  else Raise (AssertionError "").

(** ** bfield_from_thin_wire_arc *)

(** The pairs [(ps[ii], ps[ii+1])] for [ii] in [range(len(ps) - 1)]. *)
Definition consecutive {A} (ps : list A) : list (A * A) :=
  zip_with pair ps (tail ps).

Definition accumulate_wire (X Y Z : ndarray R) (current : R) (plot_wire : bool)
    (acc : result field3) (seg : vec * vec) : result field3 :=
  B ← acc;
  Bii ← unpack3
    (bfield_from_thin_straight_wire X Y Z seg.1 seg.2 current plot_wire false);
  Ok (field3_add B Bii).

Definition bfield_from_thin_wire_arc (X Y Z : ndarray R) (h R_ theta : R)
    (npts : int) (current : R) (plot_wire : bool) : result field3 :=
  ps ← get_arc_vectors h R_ theta npts default_arc_e3;
  fold_left (accumulate_wire X Y Z current plot_wire) (consecutive ps)
    (Ok (np_zeros (shape X), np_zeros (shape Y), np_zeros (shape Z))).

(** ** bfield_from_thin_saddle_coil, bfield_from_thin_saddle_corrector *)

Definition bfield_from_thin_saddle_coil (X Y Z : ndarray R)
    (L R_ theta current : R) (npts : int) (plot_wire : bool) : result field3 :=
  let phi := (PI - theta) / 2 in
  let B := (np_zeros (shape X), np_zeros (shape Y), np_zeros (shape Z)) in
  A1 ← bfield_from_thin_wire_arc X Y Z (- L / 2) R_ theta npts current plot_wire;
  A2 ← bfield_from_thin_wire_arc X Y Z (L / 2) R_ (- theta) npts current plot_wire;
  let B := field3_add B (field3_add A1 A2) in
  let p11 := (R_ * cos phi, R_ * sin phi, L / 2) in
  let p21 := (R_ * cos phi, R_ * sin phi, - L / 2) in
  S1 ← unpack3 (bfield_from_thin_straight_wire X Y Z p11 p21 current plot_wire false);
  let p12 := (- R_ * cos phi, R_ * sin phi, - L / 2) in
  let p22 := (- R_ * cos phi, R_ * sin phi, L / 2) in
  S2 ← unpack3 (bfield_from_thin_straight_wire X Y Z p12 p22 current plot_wire false);
  Ok (field3_add B (field3_add S1 S2)).

Definition bfield_from_thin_saddle_corrector (X Y Z : ndarray R)
    (L R_ theta current : R) (npts : int) (plot_wire : bool) : result field3 :=
  B1 ← bfield_from_thin_saddle_coil X Y Z L R_ theta current npts plot_wire;
  B2 ← bfield_from_thin_saddle_coil X Y Z (- L) (- R_) theta current npts plot_wire;
  Ok (field3_add B1 B2).


(** ** FieldMesh: construction and accessors *)

(** [FieldMesh(data=data)].  The loop binds [component_alias[k]] to the
    component for every stored name [k]; the order in which the loop meets
    the names is that of the map, not Python's insertion order. *)
Definition FieldMesh_init (data_attrs : gmap string attr_value)
    (data_components : gmap string (ndarray float)) : result FieldMesh :=
  d ← map_fold
        (fun k v (acc : result (gmap string (ndarray float))) =>
           d ← acc;
           alias ← dict_get component_alias k;
           Ok (<[alias := v]> d))
        (Ok ∅) data_components;
  Ok (mk_FieldMesh data_attrs data_components d).

Definition FieldMesh_shape (fm : FieldMesh) : result (nat * nat * nat) :=
  v ← dict_get (attrs fm) "gridSize";
  match v with
  | AShape s => Ok s
  | _ => Raise (TypeError "gridSize is not a shape")
  end.

Definition geometry (fm : FieldMesh) : result attr_value :=
  dict_get (attrs fm) "gridGeometry".

Definition axis_labels (fm : FieldMesh) : result (list string) :=
  g ← geometry fm;
  match g with
  | AStr s => dict_get axis_labels_from_geometry s
  | _ => Raise (KeyError "")
  end.

Fixpoint find_label (key : string) (labels : list string) (i : nat)
  : option nat :=
  match labels with
  | [] => None
  | name :: rest =>
      if decide (name = key) then Some i else find_label key rest (S i)
  end.

Definition axis_index (fm : FieldMesh) (key : string) : result nat :=
  labels ← axis_labels fm;
  match find_label key labels 0 with
  | Some i => Ok i
  | None => Raise (ValueError ("Axis not found: " ++ key))
  end.

Definition FieldMesh_min (fm : FieldMesh) : result vec :=
  v ← dict_get (attrs fm) "gridOriginOffset";
  match v with
  | AFloat3 o => Ok o
  | _ => Raise (TypeError "gridOriginOffset is not a float triple")
  end.

Definition FieldMesh_delta (fm : FieldMesh) : result vec :=
  v ← dict_get (attrs fm) "gridSpacing";
  match v with
  | AFloat3 d => Ok d
  | _ => Raise (TypeError "gridSpacing is not a float triple")
  end.

Definition FieldMesh_max (fm : FieldMesh) : result vec :=
  d ← FieldMesh_delta fm;
  v ← dict_get (attrs fm) "gridSize";
  match v with
  | AShape (n1, n2, n3) =>
      mn ← FieldMesh_min fm;
      Ok (d.1.1 * (INR n1 - 1) + mn.1.1,
          d.1.2 * (INR n2 - 1) + mn.1.2,
          d.2 * (INR n3 - 1) + mn.2)
  | _ => Raise (TypeError "gridSize is not a shape")
  end.

(** [v[i]] on a triple *)
Definition item3 {A} (v : A * A * A) (i : nat) : result A :=
  match i with
  | 0%nat => Ok v.1.1
  | 1%nat => Ok v.1.2
  | 2%nat => Ok v.2
  | _ => Raise (IndexError "index out of range")
  end.

Definition coord_vec (fm : FieldMesh) (key : string) : result (list R) :=
  i ← axis_index fm key;
  mn ← FieldMesh_min fm;
  x0 ← item3 mn i;
  mx ← FieldMesh_max fm;
  x1 ← item3 mx i;
  sh ← FieldMesh_shape fm;
  n ← item3 sh i;
  np_linspace x0 x1 (Z.of_nat n).

(** The first two steps of [__getitem__]: a stored name, or an alias of a
    stored name. *)
Definition lookup_component (fm : FieldMesh) (key : string)
  : option (ndarray float) :=
  match components fm !! key with
  | Some a => Some a
  | None =>
      match component_from_alias !! key with
      | Some comp => components fm !! comp
      | None => None
      end
  end.

(** [self[key]] for a key that is neither 'E' nor 'B', as the property [B]
    calls it with 'Br' and 'Bz'. *)
Definition getitem_named (fm : FieldMesh) (key : string)
  : result (ndarray float) :=
  match lookup_component fm key with
  | Some a => Ok a
  | None => Raise (ValueError ("Key not available: " ++ key))
  end.

Definition getattr (fm : FieldMesh) (name : string) : result (ndarray float) :=
  match inst_dict fm !! name with
  | Some a => Ok a
  | None => Raise (AttributeError name)
  end.

Definition is_cylindrical (g : attr_value) : bool :=
  match g with
  | AStr s => bool_decide (s = "cylindrical")
  | _ => false
  end.

(** The property [B]; a bare [raise] outside a handler is a RuntimeError. *)
Definition FieldMesh_B (fm : FieldMesh) : result (ndarray float) :=
  g ← geometry fm;
  if is_cylindrical g then
    br ← getitem_named fm "Br";
    bz ← getitem_named fm "Bz";
    Ok (arr_map2 fhypot br bz)
  else Raise (RuntimeError "No active exception to reraise").

(** The property [E] *)
Definition FieldMesh_E (fm : FieldMesh) : result (ndarray float) :=
  g ← geometry fm;
  if is_cylindrical g then
    er ← getattr fm "Er";
    ez ← getattr fm "Ez";
    Ok (arr_map2 fhypot (arr_map fabs er) (arr_map fabs ez))
  else Raise (RuntimeError "No active exception to reraise").

(** [FieldMesh.__getitem__] *)
Definition getitem (fm : FieldMesh) (key : string) : result (ndarray float) :=
  match lookup_component fm key with
  | Some a => Ok a
  | None =>
      if decide (key = "E") then FieldMesh_E fm
      else if decide (key = "B") then FieldMesh_B fm
      else Raise (ValueError ("Key not available: " ++ key))
  end.

(** ** Mesh builders *)

(** [np.linspace] called with bounds that may have been left at [None]. *)
Definition np_linspace_opt (start stop : option R) (num : int)
  : result (list R) :=
  if decide (num < 0)%Z then
    Raise (ValueError "Number of samples must be non-negative.")
  else
    start ← need None_times_float start;
    stop ← need None_times_float stop;
    np_linspace start stop num.

(** The statements that close each of the three builders, identical in
    all of them: the spacing from [np.diff], the [attrs] and [components]
    dictionaries, and the constructor call. *)
Definition assemble_fieldmesh (xs ys zs : list R) (B : field3)
  : result FieldMesh :=
  let '(Bx, By, Bz) := B in
  dx ← np_diff0 xs;
  dy ← np_diff0 ys;
  dz ← np_diff0 zs;
  let attrs : gmap string attr_value := ∅ in
  x0 ← index0 xs;
  y0 ← index0 ys;
  z0 ← index0 zs;
  let attrs := <["gridOriginOffset" := AFloat3 (x0, y0, z0)]> attrs in
  let attrs := <["gridSpacing" := AFloat3 (dx, dy, dz)]> attrs in
  let attrs := <["gridSize" := AShape (shape Bx)]> attrs in
  let attrs := <["eleAnchorPt" := AStr "center"]> attrs in
  let attrs := <["gridGeometry" := AStr "rectangular"]> attrs in
  let attrs := <["axisLabels" := AStr3 ("x", "y", "z")]> attrs in
  let attrs := <["gridLowerBound" := AInt3 (0, 0, 0)%Z]> attrs in
  let attrs := <["harmonic" := AInt 0]> attrs in
  let attrs := <["fundamentalFrequency" := AInt 0]> attrs in
  let components : gmap string (ndarray float) := ∅ in
  let components := <["magneticField/x" := Bx]> components in
  let components := <["magneticField/y" := By]> components in
  let components := <["magneticField/z" := Bz]> components in
  FieldMesh_init attrs components.

Definition make_rectangular_dipole_corrector_fieldmesh
    (a b h : option R) (current : R)
    (xmin xmax : option R) (nx : int)
    (ymin ymax : option R) (ny : int)
    (zmin zmax : option R) (nz : int)
    (plot_wire : bool) : result FieldMesh :=
  xs ← np_linspace_opt xmin xmax nx;
  ys ← np_linspace_opt ymin ymax ny;
  zs ← np_linspace_opt zmin zmax nz;
  let '(X, Y, Z) := np_meshgrid xs ys zs in
  h ← need unary_minus_None h;
  a ← need unary_minus_None a;
  b ← need unary_minus_None b;
  B ← bfield_from_thin_rectangular_corrector X Y Z a b h current true;
  assemble_fieldmesh xs ys zs B.

(** [npts] reaches [np.linspace] inside [get_arc_vectors] before anything
    else in the saddle field computation can raise, so a [None] is turned
    into its TypeError at the call. *)
Definition make_saddle_dipole_corrector_fieldmesh
    (R_ L theta : option R) (current : R)
    (xmin xmax : option R) (nx : int)
    (ymin ymax : option R) (ny : int)
    (zmin zmax : option R) (nz : int)
    (npts : option int) (plot_wire : bool) : result FieldMesh :=
  xs ← np_linspace_opt xmin xmax nx;
  ys ← np_linspace_opt ymin ymax ny;
  zs ← np_linspace_opt zmin zmax nz;
  let '(X, Y, Z) := np_meshgrid xs ys zs in
  L ← need unary_plus_None L;
  R_ ← need unary_plus_None R_;
  theta ← need float_minus_None theta;
  npts ← need None_as_index npts;
  B ← bfield_from_thin_saddle_corrector X Y Z L R_ theta current npts plot_wire;
  assemble_fieldmesh xs ys zs B.

(** [x if x is not None else d], where computing [d] may raise. *)
Definition default_to (x : option R) (d : result R) : result R :=
  match x with
  | Some v => Ok v
  | None => d
  end.

Definition is_None {A} (o : option A) : bool :=
  match o with Some _ => false | None => true end.

Definition make_dipole_corrector_fieldmesh
    (current : R)
    (xmin xmax : option R) (nx : int)
    (ymin ymax : option R) (ny : int)
    (zmin zmax : option R) (nz : int)
    (mode : string)
    (a b h : option R)
    (R_ L theta : option R) (npts : option int)
    (plot_wire : bool) : result FieldMesh :=
  if decide (mode = "rectangular") then
    match a, b, h with
    | Some a, Some b, Some h =>
        let f := 99 / 100 in
        let xmin := default (- f * a) xmin in
        let ymin := default (- f * h / 2) ymin in
        let zmin := default (- 5 * b) zmin in
        let xmax := default (f * a) xmax in
        let ymax := default (f * h / 2) ymax in
        let zmax := default (5 * b) zmax in
        make_rectangular_dipole_corrector_fieldmesh
          (Some a) (Some b) (Some h) current
          (Some xmin) (Some xmax) nx (Some ymin) (Some ymax) ny
          (Some zmin) (Some zmax) nz plot_wire
    | _, _, _ =>
        Raise (ValueError
          "Parameters 'a', 'b', and 'h' must be provided for rectangular mode.")
    end
  else if decide (mode = "saddle") then
    xmin ← default_to xmin (r ← need unary_minus_None R_; Ok (- r));
    ymin ← default_to ymin (r ← need unary_minus_None R_; Ok (- r));
    zmin ← default_to zmin (l ← need int_times_None L; Ok (- 5 * l / 2));
    xmax ← default_to xmax (r ← need unary_plus_None R_; Ok r);
    ymax ← default_to ymax (r ← need unary_plus_None R_; Ok r);
    zmax ← default_to zmax (l ← need int_times_None L; Ok (5 * l / 2));
    if is_None R_ || is_None L || is_None theta then
      Raise (ValueError
        "Parameters 'R', 'L', and 'theta' must be provided for saddle mode.")
    else
      make_saddle_dipole_corrector_fieldmesh R_ L theta current
        (Some xmin) (Some xmax) nx (Some ymin) (Some ymax) ny
        (Some zmin) (Some zmax) nz npts plot_wire
  else Raise (ValueError "Invalid mode. Choose either 'rectangular' or 'saddle'.").

Definition assert_not_None {A} (o : option A) (msg : string) : result A :=
  match o with
  | Some v => Ok v
  | None => Raise (AssertionError msg)
  end.

Definition make_thin_straight_wire_fieldmesh (p1 p2 : vec) (current : R)
    (xmin xmax : option R) (nx : int)
    (ymin ymax : option R) (ny : int)
    (zmin zmax : option R) (nz : int)
    (plot_wire : bool) : result FieldMesh :=
  xmin ← assert_not_None xmin "No xmin specified";
  ymin ← assert_not_None ymin "No ymin specified";
  zmin ← assert_not_None zmin "No zmin specified";
  xmax ← assert_not_None xmax "No xmax specified";
  ymax ← assert_not_None ymax "No ymax specified";
  zmax ← assert_not_None zmax "No zmax specified";
  xs ← np_linspace xmin xmax nx;
  ys ← np_linspace ymin ymax ny;
  zs ← np_linspace zmin zmax nz;
  let '(X, Y, Z) := np_meshgrid xs ys zs in
  B ← unpack3 (bfield_from_thin_straight_wire X Y Z p1 p2 current plot_wire false);
  assemble_fieldmesh xs ys zs B.

(** ** Reference formulas

    The field of a straight filament as the specification words it, over the
    reals; the code is compared with these. *)

Definition spec_e1 (p1 p2 : vec) : vec :=
  vdiv (vsub p2 p1) (norm (vsub p2 p1)).

(** Foot of the perpendicular from [P] onto the line through [p1], [p2]. *)
Definition spec_foot (P p1 p2 : vec) : vec :=
  vadd p1 (vscale (dot (vsub P p1) (spec_e1 p1 p2)) (spec_e1 p1 p2)).

(** Perpendicular distance of [P] from the line. *)
Definition spec_R (P p1 p2 : vec) : R := norm (vsub P (spec_foot P p1 p2)).

Definition spec_e2 (P p1 p2 : vec) : vec :=
  vdiv (vsub P (spec_foot P p1 p2)) (spec_R P p1 p2).

Definition spec_e3 (P p1 p2 : vec) : vec :=
  cross (spec_e1 p1 p2) (spec_e2 P p1 p2).

Definition spec_x1 (P p1 p2 : vec) : R :=
  dot (vsub p1 (spec_foot P p1 p2)) (spec_e1 p1 p2).

Definition spec_x2 (P p1 p2 : vec) : R :=
  dot (vsub p2 (spec_foot P p1 p2)) (spec_e1 p1 p2).

Definition spec_B0 (P p1 p2 : vec) (current : R) : R :=
  let Rd := spec_R P p1 p2 in
  let x1 := spec_x1 P p1 p2 in
  let x2 := spec_x2 P p1 p2 in
  (u0 * current / (4 * PI * Rd))
  * (x2 / sqrt (x2 ^ 2 + Rd ^ 2) - x1 / sqrt (x1 ^ 2 + Rd ^ 2)).

Definition spec_field (P p1 p2 : vec) (current : R) : vec :=
  vscale (spec_B0 P p1 p2 current) (spec_e3 P p1 p2).

(** Point number [i] of the arc: on the circle of radius [R_] about
    [(0, 0, h)], at azimuth [(pi - theta)/2 + i * theta / (npts - 1)]. *)
Definition spec_arc_azimuth (theta : R) (npts : int) (i : nat) : R :=
  (PI - theta) / 2 + INR i * (theta / IZR (npts - 1)).

Definition spec_arc_point (h R_ theta : R) (npts : int) (i : nat) : vec :=
  (R_ * cos (spec_arc_azimuth theta npts i),
   R_ * sin (spec_arc_azimuth theta npts i), h).

(** An array of shape [s] holding as many elements as the shape says. *)
Definition has_shape {A} (s : nat * nat * nat) (a : ndarray A) : Prop :=
  shape a = s /\ length (flat a) = (s.1.1 * s.1.2 * s.2)%nat.

Definition field_has_shape (s : nat * nat * nat) (B : field3) : Prop :=
  has_shape s B.1.1 /\ has_shape s B.1.2 /\ has_shape s B.2.

(** The [attrs] dictionary the builders fill in. *)
Definition mesh_attrs (origin spacing : vec) (size : nat * nat * nat)
  : gmap string attr_value :=
  <["fundamentalFrequency" := AInt 0]>
    (<["harmonic" := AInt 0]>
       (<["gridLowerBound" := AInt3 (0, 0, 0)%Z]>
          (<["axisLabels" := AStr3 ("x", "y", "z")]>
             (<["gridGeometry" := AStr "rectangular"]>
                (<["eleAnchorPt" := AStr "center"]>
                   (<["gridSize" := AShape size]>
                      (<["gridSpacing" := AFloat3 spacing]>
                         (<["gridOriginOffset" := AFloat3 origin]> ∅)))))))).

(** The [components] dictionary the builders fill in. *)
Definition mesh_components (B : field3) : gmap string (ndarray float) :=
  <["magneticField/z" := B.2]>
    (<["magneticField/y" := B.1.2]> (<["magneticField/x" := B.1.1]> ∅)).

(** [fm.attrs[k] = v] *)
Definition set_attr (fm : FieldMesh) (k : string) (v : attr_value) : FieldMesh :=
  mk_FieldMesh (<[k := v]> (attrs fm)) (components fm) (inst_dict fm).

(** One array holding a single value, as a 1 x 1 x 1 grid. *)
Definition single {A} (v : A) : ndarray A := mk_ndarray (1, 1, 1)%nat [v].

(** A value of [scipy.constants.mu_0] (CODATA 2018), for the examples. *)
Definition mu_0 : R := 125663706212 / 100000000000000000.

(** Modelled from the spec: the alias registry [component_from_alias] of
    [pmd_beamphysics.readers], which is not under src/.  The spec names the
    aliases Bx, By, Bz, Er, Ez for canonical paths such as "magneticField/x";
    Br is the alias the property [B] reads. *)
Definition registry_from_alias : gmap string string :=
  <["Bx" := "magneticField/x"]>
    (<["By" := "magneticField/y"]>
       (<["Bz" := "magneticField/z"]>
          (<["Br" := "magneticField/r"]>
             (<["Er" := "electricField/r"]>
                (<["Ez" := "electricField/z"]> ∅))))).

(** Modelled from the spec: [component_alias], the same registry read from
    canonical name to alias. *)
Definition registry_alias : gmap string string :=
  <["magneticField/x" := "Bx"]>
    (<["magneticField/y" := "By"]>
       (<["magneticField/z" := "Bz"]>
          (<["magneticField/r" := "Br"]>
             (<["electricField/r" := "Er"]>
                (<["electricField/z" := "Ez"]> ∅))))).

(** A mesh that stores the three magnetic components on a one-point grid. *)
Definition example_mesh : FieldMesh :=
  mk_FieldMesh
    (mesh_attrs (0, 0, 0) (1, 1, 1) (1, 1, 1)%nat)
    (mesh_components (single (Fin 0), single (Fin 0), single (Fin 0)))
    ∅.

(** The zero field the arc accumulates into. *)
Definition zero_field (X Y Z : ndarray R) : field3 :=
  (np_zeros (shape X), np_zeros (shape Y), np_zeros (shape Z)).

(** The three arrays the straight-wire function computes when it returns
    them. *)
Definition wire_field (x y z : ndarray R) (p1 p2 : vec) (current : R)
  : field3 :=
  split3 (arr_map (fun P => wire_point P p1 p2 current) (stacked x y z)).

(** Elementwise sum of two lookups in flat arrays. *)
Definition sum_at (a b : option float) : option float :=
  match a, b with
  | Some u, Some v => Some (u + v)%fl
  | _, _ => None
  end.

(** ** Further notions used by the properties of the field computation *)


(** A field with every entry multiplied by [k]. *)
Definition field3_scale (k : R) (B : field3) : field3 :=
  (arr_map (fmul (Fin k)) B.1.1, arr_map (fmul (Fin k)) B.1.2,
   arr_map (fmul (Fin k)) B.2).

(** [P] lies on the infinite line through [p1] and [p2]. *)
Definition on_line (P p1 p2 : vec) : Prop :=
  exists s : R, P = vadd p1 (vscale s (vsub p2 p1)).

(** The end points of the two straight sections of the saddle coil, as
    [bfield_from_thin_saddle_coil] computes them. *)
Definition saddle_p11 (L R_ theta : R) : vec :=
  let phi := (PI - theta) / 2 in (R_ * cos phi, R_ * sin phi, L / 2).
Definition saddle_p21 (L R_ theta : R) : vec :=
  let phi := (PI - theta) / 2 in (R_ * cos phi, R_ * sin phi, - L / 2).
Definition saddle_p12 (L R_ theta : R) : vec :=
  let phi := (PI - theta) / 2 in (- R_ * cos phi, R_ * sin phi, - L / 2).
Definition saddle_p22 (L R_ theta : R) : vec :=
  let phi := (PI - theta) / 2 in (- R_ * cos phi, R_ * sin phi, L / 2).

(** ** Further accessors of FieldMesh *)

(** The property [coord_vecs]: one [np.linspace] per axis, from [min],
    [max] and [shape]. *)
Definition coord_vecs (fm : FieldMesh) : result (list R * list R * list R) :=
  mn ← FieldMesh_min fm;
  mx ← FieldMesh_max fm;
  sh ← FieldMesh_shape fm;
  xs ← np_linspace mn.1.1 mx.1.1 (Z.of_nat sh.1.1);
  ys ← np_linspace mn.1.2 mx.1.2 (Z.of_nat sh.1.2);
  zs ← np_linspace mn.2 mx.2 (Z.of_nat sh.2);
  Ok (xs, ys, zs).

(** The property [meshgrid] *)
Definition FieldMesh_meshgrid (fm : FieldMesh)
  : result (ndarray R * ndarray R * ndarray R) :=
  vecs ← coord_vecs fm;
  let '(xs, ys, zs) := vecs in
  Ok (np_meshgrid xs ys zs).

(** The property [scale] and its setter *)
Definition scale (fm : FieldMesh) : result attr_value :=
  dict_get (attrs fm) "fieldScale".
Definition set_scale (fm : FieldMesh) (val : attr_value) : FieldMesh :=
  set_attr fm "fieldScale" val.

(** The property [phase] and its setter; a stored value that is not a
    number is a tuple or a string, which cannot be multiplied by [np.pi]. *)
Definition phase (fm : FieldMesh) : result R :=
  v ← dict_get (attrs fm) "RFphase";
  match v with
  | AFloat r => Ok (r * 2 * PI)
  | AInt n => Ok (IZR n * 2 * PI)
  | _ => Raise (TypeError "can't multiply sequence by non-int of type 'float'")
  end.
Definition set_phase (fm : FieldMesh) (val : R) : FieldMesh :=
  set_attr fm "RFphase" (AFloat (val / (2 * PI))).

(** The property [is_static]: [attrs['harmonic'] == 0] *)
Definition is_static (fm : FieldMesh) : result bool :=
  v ← dict_get (attrs fm) "harmonic";
  Ok match v with
     | AInt n => bool_decide (n = 0%Z)
     | AFloat r => if Req_dec_T r 0 then true else false
     | _ => false
     end.

(** [np.any]: some entry is not zero (a non-finite entry is not zero). *)
Definition np_any (a : ndarray float) : bool :=
  existsb (fun v => match v with
                    | Fin r => if Req_dec_T r 0 then false else true
                    | NonFinite => true
                    end) (flat a).

Definition component_is_zero (fm : FieldMesh) (key : string) : result bool :=
  a ← getitem fm key;
  Ok (negb (np_any a)).

(** [[key for key in keys if not self.component_is_zero(key)]] *)
Fixpoint nonzero_keys (fm : FieldMesh) (keys : list string)
  : result (list string) :=
  match keys with
  | [] => Ok []
  | key :: rest =>
      z ← component_is_zero fm key;
      ks ← nonzero_keys fm rest;
      Ok (if (z : bool) then (ks : list string) else key :: ks)
  end.

(** The stored component names, in the order of the map. *)
Definition component_keys (fm : FieldMesh) : list string :=
  (map_to_list (components fm)).*1.

Definition is_pure_electric (fm : FieldMesh) : result bool :=
  klist ← nonzero_keys fm (component_keys fm);
  Ok (forallb (String.prefix "electric") klist).

Definition is_pure_magnetic (fm : FieldMesh) : result bool :=
  klist ← nonzero_keys fm (component_keys fm);
  Ok (forallb (String.prefix "magnetic") klist).

(** The property [Br]: [self[key] * self.factor]. *)
Definition FieldMesh_Br (fm : FieldMesh) : result (ndarray float) :=
  key ← dict_get component_from_alias "Br";
  a ← getitem fm key;
  factor ← getattr fm "factor";
  Ok (arr_map2 fmul a factor).

(** The mesh gives back the sampling grid [lo .. hi] with [nx], [ny], [nz]
    points: through [min], [max], [shape], [coord_vecs] and [meshgrid]. *)
Definition recovers_grid (fm : FieldMesh) (lo hi : vec) (nx ny nz : int)
  : Prop :=
  FieldMesh_min fm = Ok lo
  /\ FieldMesh_max fm = Ok hi
  /\ FieldMesh_shape fm = Ok (Z.to_nat nx, Z.to_nat ny, Z.to_nat nz)
  /\ exists xs ys zs : list R,
      np_linspace lo.1.1 hi.1.1 nx = Ok xs
      /\ np_linspace lo.1.2 hi.1.2 ny = Ok ys
      /\ np_linspace lo.2 hi.2 nz = Ok zs
      /\ coord_vecs fm = Ok (xs, ys, zs)
      /\ FieldMesh_meshgrid fm = Ok (np_meshgrid xs ys zs).

(** [fm] is a mesh returned by one of the four mesh makers of
    corrector_modeling. *)
Definition from_builder (fm : FieldMesh) : Prop :=
  (exists a b h current xmin xmax nx ymin ymax ny zmin zmax nz plot_wire,
      make_rectangular_dipole_corrector_fieldmesh a b h current
        xmin xmax nx ymin ymax ny zmin zmax nz plot_wire = Ok fm)
  \/ (exists R_ L theta current xmin xmax nx ymin ymax ny zmin zmax nz npts
             plot_wire,
         make_saddle_dipole_corrector_fieldmesh R_ L theta current
           xmin xmax nx ymin ymax ny zmin zmax nz npts plot_wire = Ok fm)
  \/ (exists p1 p2 current xmin xmax nx ymin ymax ny zmin zmax nz plot_wire,
         make_thin_straight_wire_fieldmesh p1 p2 current
           xmin xmax nx ymin ymax ny zmin zmax nz plot_wire = Ok fm)
  \/ (exists current xmin xmax nx ymin ymax ny zmin zmax nz mode a b h
             R_ L theta npts plot_wire,
         make_dipole_corrector_fieldmesh current xmin xmax nx ymin ymax ny
           zmin zmax nz mode a b h R_ L theta npts plot_wire = Ok fm).

(** Everything the accessors of the grid and of the field read is the same
    in [fm] and [fm']. *)
Definition same_grid_and_field (fm fm' : FieldMesh) : Prop :=
  components fm' = components fm
  /\ inst_dict fm' = inst_dict fm
  /\ geometry fm' = geometry fm
  /\ FieldMesh_shape fm' = FieldMesh_shape fm
  /\ FieldMesh_min fm' = FieldMesh_min fm
  /\ FieldMesh_delta fm' = FieldMesh_delta fm
  /\ FieldMesh_max fm' = FieldMesh_max fm
  /\ is_static fm' = is_static fm.

(** The names FieldMesh defines as properties.  A property is found on
    the class before the instance dictionary is consulted, so an entry of
    the instance dictionary under one of these names is not what reading
    the attribute gives. *)
Definition property_names : list string :=
  "attrs" :: "components" :: "data" :: "shape" :: "geometry" :: "scale"
  :: "phase" :: "axis_labels" :: "coord_vecs" :: "meshgrid" :: "min"
  :: "delta" :: "max" :: "frequency" :: "is_pure_electric"
  :: "is_pure_magnetic" :: "is_static" :: "B" :: "E" :: "Br" :: nil.

(** No two stored component names share an alias. *)
Definition distinct_aliases (data_components : gmap string (ndarray float))
  : Prop :=
  forall k1 k2 al,
    is_Some (data_components !! k1) -> is_Some (data_components !! k2) ->
    component_alias !! k1 = Some al -> component_alias !! k2 = Some al ->
    k1 = k2.

(** Every entry of the array is a finite number. *)
Definition all_finite (a : ndarray float) : Prop :=
  forall v : float, v ∈ flat a -> exists r : R, v = Fin r.

Definition field_finite (B : field3) : Prop :=
  all_finite B.1.1 /\ all_finite B.1.2 /\ all_finite B.2.

(** ** Properties *)

(** *** Results *)

Lemma bind_Ok {A B} (m : result A) (f : A -> result B) (b : B) :
  m ≫= f = Ok b <-> exists a, m = Ok a /\ f a = Ok b.
Proof.
  destruct m as [a|e]; simpl; split.
  - intros H. exists a. split; [reflexivity | exact H].
  - intros (a' & Ha & Hf). inversion Ha. subst. exact Hf.
  - discriminate.
  - intros (a' & Ha & _). discriminate.
Qed.

Lemma unpack3_Ok {A} (m : result (option A)) (a : A) :
  unpack3 m = Ok a <-> m = Ok (Some a).
Proof.
  destruct m as [[v|]|e]; simpl; split; intros H; try discriminate;
    inversion H; reflexivity.
Qed.

(** Inversion of a successful chain of binds in hypothesis [H]. *)
Ltac inv_bind H :=
  let a := fresh "r" in
  let Ha := fresh "Hr" in
  apply bind_Ok in H; destruct H as (a & Ha & H).

(** *** Vectors and norms *)

Lemma dot_self_nonneg (v : vec) : 0 <= dot v v.
Proof. destruct v as [[a b] c]. simpl. nra. Qed.

Lemma dot_self_zero (v : vec) : dot v v = 0 -> v = (0, 0, 0).
Proof.
  destruct v as [[a b] c]. simpl. intros H.
  assert (a = 0) by nra. assert (b = 0) by nra. assert (c = 0) by nra.
  subst. reflexivity.
Qed.

Lemma norm_nonneg (v : vec) : 0 <= norm v.
Proof. apply sqrt_pos. Qed.

Lemma norm_sqr (v : vec) : norm v * norm v = dot v v.
Proof. apply sqrt_sqrt, dot_self_nonneg. Qed.

Lemma norm_zero_iff (v : vec) : norm v = 0 <-> v = (0, 0, 0).
Proof.
  split.
  - intros H. apply dot_self_zero. rewrite <- norm_sqr, H. ring.
  - intros ->. unfold norm. simpl.
    replace (0 * 0 + 0 * 0 + 0 * 0) with 0 by ring. apply sqrt_0.
Qed.

Lemma vsub_zero_iff (u v : vec) : vsub u v = (0, 0, 0) <-> u = v.
Proof.
  destruct u as [[a b] c], v as [[d e] f]. simpl. split.
  - intros H. inversion H.
    assert (a = d) by lra. assert (b = e) by lra. assert (c = f) by lra.
    subst. reflexivity.
  - intros H. inversion H. subst. f_equal; [f_equal |]; ring.
Qed.

Lemma norm_vsub_pos (p1 p2 : vec) : 0 < norm (vsub p2 p1) <-> p1 <> p2.
Proof.
  split.
  - intros H ->. assert (E : norm (vsub p2 p2) = 0).
    { apply (proj2 (norm_zero_iff _)), (proj2 (vsub_zero_iff _ _)). reflexivity. }
    lra.
  - intros Hne. destruct (norm_nonneg (vsub p2 p1)) as [Hlt | Heq]; [exact Hlt |].
    exfalso. apply Hne. symmetry in Heq.
    apply (proj1 (norm_zero_iff _)) in Heq.
    apply (proj1 (vsub_zero_iff _ _)) in Heq. symmetry. exact Heq.
Qed.

(** *** The straight wire: when it raises and when it returns *)

Lemma wire_degenerate x y z p current plot_wire return_axes :
  bfield_from_thin_straight_wire x y z p p current plot_wire return_axes
  = Raise (AssertionError "Line must be specified by 2 distinct points").
Proof.
  unfold bfield_from_thin_straight_wire.
  destruct (Rlt_dec 0 (norm (vsub p p))) as [H | H]; [| reflexivity].
  apply norm_vsub_pos in H. congruence.
Qed.

Lemma wire_returns x y z p1 p2 current plot_wire return_axes :
  p1 <> p2 -> shape x = shape y -> shape y = shape z ->
  bfield_from_thin_straight_wire x y z p1 p2 current plot_wire return_axes
  = if plot_wire && return_axes then Ok None
    else Ok (Some (wire_field x y z p1 p2 current)).
Proof.
  intros Hne Hxy Hyz. unfold bfield_from_thin_straight_wire.
  destruct (Rlt_dec 0 (norm (vsub p2 p1))) as [H | H].
  - unfold np_stack. rewrite decide_True by (split; assumption). reflexivity.
  - exfalso. apply H, norm_vsub_pos, Hne.
Qed.

Lemma wire_shape_mismatch x y z p1 p2 current plot_wire return_axes :
  p1 <> p2 -> ~ (shape x = shape y /\ shape y = shape z) ->
  bfield_from_thin_straight_wire x y z p1 p2 current plot_wire return_axes
  = Raise (ValueError "all input arrays must have the same shape").
Proof.
  intros Hne Hs. unfold bfield_from_thin_straight_wire.
  destruct (Rlt_dec 0 (norm (vsub p2 p1))) as [H | H].
  - unfold np_stack. rewrite decide_False by exact Hs. reflexivity.
  - exfalso. apply H, norm_vsub_pos, Hne.
Qed.

(** C4. A call of the straight-wire sampler with coincident end points
    fails with the assertion error on the segment, whatever the grid (even
    one whose arrays disagree in shape, which a later step would reject) and
    whatever the flags: it returns no arrays, and a caller that chains
    segments (the rectangular coil with a zero side) fails with it. *)
Theorem C4_degenerate_segment_raises :
  (forall x y z p current plot_wire return_axes,
      bfield_from_thin_straight_wire x y z p p current plot_wire return_axes
      = Raise (AssertionError "Line must be specified by 2 distinct points"))
  /\ (forall x y z p current plot_wire return_axes,
         raises (bfield_from_thin_straight_wire
                   x y z p p current plot_wire return_axes))
  /\ (forall X Y Z b y0 current plot_wire,
         bfield_from_thin_rectangular_coil X Y Z 0 b y0 current plot_wire
         = Raise (AssertionError "Line must be specified by 2 distinct points")).
Proof.
  split; [| split].
  - intros. apply wire_degenerate.
  - intros x y z p current pw ra. rewrite wire_degenerate. eexists. reflexivity.
  - intros. unfold bfield_from_thin_rectangular_coil.
    replace (- 0 / 2) with (0 / 2) by lra.
    rewrite (wire_degenerate X Y Z (0 / 2, y0, - b / 2)). reflexivity.
Qed.

(** C9. With a non-degenerate segment on a grid of one shape, the call
    with both [plot_wire] and [return_axes] set returns [None]; with any
    other setting of the two flags it returns the three field arrays; and
    whenever arrays are returned the two flags are not both set. *)
Theorem C9_both_flags_return_None x y z p1 p2 current :
  p1 <> p2 -> shape x = shape y -> shape y = shape z ->
  bfield_from_thin_straight_wire x y z p1 p2 current true true = Ok None
  /\ (forall plot_wire return_axes,
         plot_wire && return_axes = false ->
         bfield_from_thin_straight_wire x y z p1 p2 current plot_wire return_axes
         = Ok (Some (wire_field x y z p1 p2 current)))
  /\ (forall plot_wire return_axes B,
         bfield_from_thin_straight_wire x y z p1 p2 current plot_wire return_axes
         = Ok (Some B) ->
         plot_wire && return_axes = false).
Proof.
  intros Hne Hxy Hyz. split; [| split].
  - rewrite wire_returns by assumption. reflexivity.
  - intros pw ra Hf. rewrite wire_returns by assumption. rewrite Hf. reflexivity.
  - intros pw ra B. rewrite wire_returns by assumption.
    destruct (pw && ra); [discriminate | reflexivity].
Qed.

(** *** Elementwise sums *)

Lemma arr_add_lookup (a b : ndarray float) (i : nat) :
  flat (arr_add a b) !! i = sum_at (flat a !! i) (flat b !! i).
Proof.
  unfold arr_add, arr_map2. simpl. rewrite lookup_zip_with.
  destruct (flat a !! i), (flat b !! i); reflexivity.
Qed.

Lemma arr_add_shape (a b : ndarray float) : shape (arr_add a b) = shape a.
Proof. reflexivity. Qed.

(** *** The rectangular coil and the rectangular corrector *)

Lemma coil_returns X Y Z a b y0 current plot_wire :
  a <> 0 -> b <> 0 -> shape X = shape Y -> shape Y = shape Z ->
  bfield_from_thin_rectangular_coil X Y Z a b y0 current plot_wire
  = Ok (field3_add
          (field3_add
             (field3_add
                (wire_field X Y Z (- a / 2, y0, - b / 2) (a / 2, y0, - b / 2) current)
                (wire_field X Y Z (a / 2, y0, - b / 2) (a / 2, y0, b / 2) current))
             (wire_field X Y Z (a / 2, y0, b / 2) (- a / 2, y0, b / 2) current))
          (wire_field X Y Z (- a / 2, y0, b / 2) (- a / 2, y0, - b / 2) current)).
Proof.
  intros Ha Hb Hxy Hyz. unfold bfield_from_thin_rectangular_coil.
  rewrite !wire_returns; try assumption; simpl; try reflexivity;
    intros E; inversion E; lra.
Qed.

(** C2. The field of the rectangular corrector is the elementwise sum of
    the fields of the two rectangular coils at [y0 = -h/2] and [y0 = +h/2],
    same current, same grid: the corrector returns exactly when both coils
    return, and then returns their sum; with sides [a], [b] that are not zero
    and a grid of one shape both coils do return; and the sum is taken
    entry by entry, in the shape of the first operand. *)
Theorem C2_corrector_is_sum_of_coils X Y Z a b h current plot_wire :
  (forall B,
      bfield_from_thin_rectangular_corrector X Y Z a b h current plot_wire = Ok B
      <-> exists B1 B2,
          bfield_from_thin_rectangular_coil X Y Z a b (- h / 2) current plot_wire
          = Ok B1
          /\ bfield_from_thin_rectangular_coil X Y Z a b (h / 2) current plot_wire
             = Ok B2
          /\ B = field3_add B1 B2)
  /\ (a <> 0 -> b <> 0 -> shape X = shape Y -> shape Y = shape Z ->
      exists B1 B2,
        bfield_from_thin_rectangular_coil X Y Z a b (- h / 2) current plot_wire
        = Ok B1
        /\ bfield_from_thin_rectangular_coil X Y Z a b (h / 2) current plot_wire
           = Ok B2
        /\ bfield_from_thin_rectangular_corrector X Y Z a b h current plot_wire
           = Ok (field3_add B1 B2))
  /\ (forall (B1 B2 : field3) (i : nat),
         let B := field3_add B1 B2 in
         flat B.1.1 !! i = sum_at (flat B1.1.1 !! i) (flat B2.1.1 !! i)
         /\ flat B.1.2 !! i = sum_at (flat B1.1.2 !! i) (flat B2.1.2 !! i)
         /\ flat B.2 !! i = sum_at (flat B1.2 !! i) (flat B2.2 !! i)
         /\ shape B.1.1 = shape B1.1.1
         /\ shape B.1.2 = shape B1.1.2
         /\ shape B.2 = shape B1.2).
Proof.
  split; [| split].
  - intros B. unfold bfield_from_thin_rectangular_corrector. split.
    + intros H. inv_bind H. inv_bind H. inversion H. subst. eauto.
    + intros (B1 & B2 & H1 & H2 & ->). rewrite H1. simpl. rewrite H2. reflexivity.
  - intros Ha Hb Hxy Hyz. unfold bfield_from_thin_rectangular_corrector.
    rewrite !coil_returns by assumption. eauto.
  - intros [[b1x b1y] b1z] [[b2x b2y] b2z] i. cbv zeta.
    unfold field3_add. cbn [fst snd].
    rewrite !arr_add_lookup. repeat split; reflexivity.
Qed.

(** *** float arithmetic on finite operands *)

Lemma fdiv_Fin (a b : R) : b <> 0 -> (Fin a / Fin b)%fl = Fin (a / b).
Proof.
  intros Hb. unfold fdiv. destruct (Req_dec_T b 0); [contradiction | reflexivity].
Qed.

Lemma fdiv_zero (a : R) : (Fin a / Fin 0)%fl = NonFinite.
Proof.
  unfold fdiv. destruct (Req_dec_T 0 0) as [_ | H]; [reflexivity |].
  exfalso. apply H. reflexivity.
Qed.

Lemma fmul_NonFinite_r (a : float) : (a * NonFinite)%fl = NonFinite.
Proof. destruct a; reflexivity. Qed.

Lemma fvdiv_Fin (v : vec) (k : R) :
  k <> 0 -> fvdiv (to_fvec v) (Fin k) = to_fvec (vdiv v k).
Proof.
  intros Hk. destruct v as [[a b] c]. cbn [to_fvec fvdiv vdiv].
  rewrite !fdiv_Fin by exact Hk. reflexivity.
Qed.

Lemma fcross_Fin (u v : vec) :
  fcross (to_fvec u) (to_fvec v) = to_fvec (cross u v).
Proof. destruct u as [[a b] c], v as [[d e] f]. reflexivity. Qed.

Lemma fvscale_Fin (k : R) (v : vec) :
  fvscale (Fin k) (to_fvec v) = to_fvec (vscale k v).
Proof. destruct v as [[a b] c]. reflexivity. Qed.

Lemma sqrt_sum_pos (x r : R) : r <> 0 -> sqrt (x ^ 2 + r ^ 2) <> 0.
Proof.
  intros Hr. apply Rgt_not_eq, sqrt_lt_R0. nra.
Qed.

(** *** The field at one point *)

(** Off the line of the wire the code computes the reference field; on the
    line the division by [R = 0] makes all three components non-finite. *)
Lemma wire_point_cases (P p1 p2 : vec) (current : R) :
  wire_point P p1 p2 current
  = if Req_dec_T (spec_R P p1 p2) 0 then (NonFinite, NonFinite, NonFinite)
    else to_fvec (spec_field P p1 p2 current).
Proof.
  unfold wire_point, spec_field, spec_B0, spec_e3, spec_e2, spec_x1, spec_x2.
  cbv zeta. fold (spec_e1 p1 p2). fold (spec_foot P p1 p2).
  fold (spec_R P p1 p2).
  destruct (Req_dec_T (spec_R P p1 p2) 0) as [H0 | Hne].
  - rewrite H0.
    destruct (vsub P (spec_foot P p1 p2)) as [[a b] c].
    destruct (spec_e1 p1 p2) as [[d e] f].
    cbn [to_fvec fvdiv fcross fvscale]. rewrite !fdiv_zero.
    cbn [fmul fsub lift2]. rewrite !fmul_NonFinite_r. reflexivity.
  - rewrite fvdiv_Fin by exact Hne. rewrite fcross_Fin.
    assert (Hd : 4 * PI * spec_R P p1 p2 <> 0).
    { pose proof PI_RGT_0. apply Rmult_integral_contrapositive_currified;
        [lra | exact Hne]. }
    rewrite !fdiv_Fin by (try exact Hd; apply sqrt_sum_pos; exact Hne).
    cbn [fmul fsub lift2]. rewrite fvscale_Fin. reflexivity.
Qed.

Lemma spec_R_nonneg (P p1 p2 : vec) : 0 <= spec_R P p1 p2.
Proof. apply norm_nonneg. Qed.

Lemma wire_point_spec (P p1 p2 : vec) (current : R) :
  0 < spec_R P p1 p2 ->
  wire_point P p1 p2 current = to_fvec (spec_field P p1 p2 current).
Proof.
  intros H. rewrite wire_point_cases.
  destruct (Req_dec_T (spec_R P p1 p2) 0) as [H0 | _]; [lra | reflexivity].
Qed.

(** *** Reversing the segment *)



Lemma spec_e1_unit (p1 p2 : vec) :
  p1 <> p2 -> dot (spec_e1 p1 p2) (spec_e1 p1 p2) = 1.
Proof.
  intros Hne. unfold spec_e1. apply norm_vsub_pos in Hne.
  pose proof (norm_sqr (vsub p2 p1)) as Hn. revert Hne Hn.
  generalize (norm (vsub p2 p1)) as n.
  destruct (vsub p2 p1) as [[a b] c]. intros n Hpos Hn. cbn [dot vdiv] in *.
  replace (a / n * (a / n) + b / n * (b / n) + c / n * (c / n))
    with ((a * a + b * b + c * c) / (n * n)) by (field; lra).
  rewrite <- Hn. field. lra.
Qed.

Lemma endpoint_along (p1 p2 : vec) :
  p1 <> p2 ->
  p2 = vadd p1 (vscale (norm (vsub p2 p1)) (spec_e1 p1 p2)).
Proof.
  intros Hne. unfold spec_e1. apply norm_vsub_pos in Hne. revert Hne.
  generalize (norm (vsub p2 p1)) as n. intros n Hpos.
  destruct p1 as [[a b] c], p2 as [[d e] f]. cbn [vsub vdiv vscale vadd].
  f_equal; [f_equal |]; field; lra.
Qed.









(** *** The field on a grid *)

Lemma stacked_lookup (x y z : ndarray R) (i : nat) (px py pz : R) :
  flat x !! i = Some px -> flat y !! i = Some py -> flat z !! i = Some pz ->
  flat (stacked x y z) !! i = Some (px, py, pz).
Proof.
  intros Hx Hy Hz. unfold stacked. cbn [flat].
  rewrite !lookup_zip_with, Hx, Hy, Hz. reflexivity.
Qed.

Lemma wire_field_lookup (x y z : ndarray R) (p1 p2 : vec) (current : R)
    (i : nat) (P : vec) :
  flat (stacked x y z) !! i = Some P ->
  flat (wire_field x y z p1 p2 current).1.1 !! i
  = Some (wire_point P p1 p2 current).1.1
  /\ flat (wire_field x y z p1 p2 current).1.2 !! i
     = Some (wire_point P p1 p2 current).1.2
  /\ flat (wire_field x y z p1 p2 current).2 !! i
     = Some (wire_point P p1 p2 current).2.
Proof.
  intros HP. unfold wire_field, split3, arr_map. cbn [fst snd flat].
  rewrite !list_lookup_fmap, HP. repeat split; reflexivity.
Qed.


(** *** The worked example: a wire along z, sampled at unit distance *)

Lemma example_e1 : spec_e1 (0, 0, -1) (0, 0, 1) = (0, 0, 1).
Proof.
  unfold spec_e1, norm. cbn [vsub dot vdiv].
  replace ((0 - 0) * (0 - 0) + (0 - 0) * (0 - 0) + (1 - -1) * (1 - -1))
    with (2 * 2) by ring.
  rewrite sqrt_square by lra. f_equal; [f_equal |]; field.
Qed.

Lemma example_foot : spec_foot (1, 0, 0) (0, 0, -1) (0, 0, 1) = (0, 0, 0).
Proof.
  unfold spec_foot. rewrite example_e1. cbn [vsub dot vscale vadd].
  f_equal; [f_equal |]; ring.
Qed.

Lemma example_R : spec_R (1, 0, 0) (0, 0, -1) (0, 0, 1) = 1.
Proof.
  unfold spec_R, norm. rewrite example_foot. cbn [vsub dot].
  replace ((1 - 0) * (1 - 0) + (0 - 0) * (0 - 0) + (0 - 0) * (0 - 0))
    with 1 by ring.
  apply sqrt_1.
Qed.

Lemma example_x1 : spec_x1 (1, 0, 0) (0, 0, -1) (0, 0, 1) = -1.
Proof.
  unfold spec_x1. rewrite example_foot, example_e1. cbn [vsub dot]. ring.
Qed.

Lemma example_x2 : spec_x2 (1, 0, 0) (0, 0, -1) (0, 0, 1) = 1.
Proof.
  unfold spec_x2. rewrite example_foot, example_e1. cbn [vsub dot]. ring.
Qed.

Lemma example_e3 : spec_e3 (1, 0, 0) (0, 0, -1) (0, 0, 1) = (0, 1, 0).
Proof.
  unfold spec_e3, spec_e2. rewrite example_R, example_foot, example_e1.
  cbn [vsub vdiv cross]. f_equal; [f_equal |]; field.
Qed.

Lemma example_field (current : R) :
  spec_field (1, 0, 0) (0, 0, -1) (0, 0, 1) current
  = (0, u0 * current * sqrt 2 / (4 * PI), 0).
Proof.
  unfold spec_field, spec_B0. cbv zeta.
  rewrite example_R, example_x1, example_x2, example_e3. cbn [vscale].
  replace ((-1) ^ 2 + 1 ^ 2) with 2 by ring.
  replace (1 ^ 2 + 1 ^ 2) with 2 by ring.
  assert (Hs : sqrt 2 * sqrt 2 = 2) by (apply sqrt_sqrt; lra).
  assert (Hp : 0 < sqrt 2) by (apply sqrt_lt_R0; lra).
  pose proof PI_RGT_0 as Hpi.
  f_equal; [f_equal |].
  - ring.
  - apply Rminus_diag_uniq.
    transitivity (u0 * current * (2 - sqrt 2 * sqrt 2) / (4 * PI * sqrt 2));
      [field; repeat split; lra | rewrite Hs; field; repeat split; lra].
  - ring.
Qed.

(** C1. Off the line of the wire (perpendicular distance [R > 0]) the
    straight-wire sampler returns, at every grid point, the vector
    [B0 * e3] of the reference formulas ([spec_field]: [e3 = e1 x e2],
    [B0 = (u0 I / (4 pi R)) (x2 / sqrt (x2^2 + R^2) - x1 / sqrt (x1^2 + R^2))]).
    For the wire from (0,0,-1) to (0,0,1) carrying 10 A and the point
    (1,0,0) the returned vector is (0, u0 10 sqrt 2 / (4 pi), 0), whose
    magnitude is u0 10 sqrt 2 / (4 pi) for a non-negative [u0], in
    particular within 1e-9 relative. *)
Theorem C1_straight_wire_formula :
  (forall (x y z : ndarray R) (p1 p2 P : vec) (current : R) (i : nat),
      p1 <> p2 -> shape x = shape y -> shape y = shape z ->
      flat x !! i = Some P.1.1 -> flat y !! i = Some P.1.2 ->
      flat z !! i = Some P.2 ->
      0 < spec_R P p1 p2 ->
      exists Bx By Bz : ndarray float,
        bfield_from_thin_straight_wire x y z p1 p2 current false false
        = Ok (Some (Bx, By, Bz))
        /\ flat Bx !! i = Some (Fin (spec_field P p1 p2 current).1.1)
        /\ flat By !! i = Some (Fin (spec_field P p1 p2 current).1.2)
        /\ flat Bz !! i = Some (Fin (spec_field P p1 p2 current).2))
  /\ bfield_from_thin_straight_wire (single 1) (single 0) (single 0)
       (0, 0, -1) (0, 0, 1) 10 false false
     = Ok (Some (single (Fin 0),
                 single (Fin (u0 * 10 * sqrt 2 / (4 * PI))),
                 single (Fin 0)))
  /\ (0 <= u0 ->
      norm (0, u0 * 10 * sqrt 2 / (4 * PI), 0) = u0 * 10 * sqrt 2 / (4 * PI)
      /\ Rabs (norm (0, u0 * 10 * sqrt 2 / (4 * PI), 0)
               - u0 * 10 * sqrt 2 / (4 * PI))
         <= 1 / 10 ^ 9 * Rabs (u0 * 10 * sqrt 2 / (4 * PI))).
Proof.
  split; [| split].
  - intros x y z p1 p2 [[px py] pz] current i Hne Hxy Hyz Hx Hy Hz HR.
    cbn [fst snd] in Hx, Hy, Hz.
    pose proof (stacked_lookup x y z i px py pz Hx Hy Hz) as HP.
    destruct (wire_field_lookup x y z p1 p2 current i _ HP) as (H1 & H2 & H3).
    rewrite wire_point_spec in H1, H2, H3 by exact HR.
    destruct (wire_field x y z p1 p2 current) as [[Bx By] Bz] eqn:EB.
    exists Bx, By, Bz. rewrite wire_returns by assumption. simpl. rewrite EB.
    destruct (spec_field (px, py, pz) p1 p2 current) as [[fx fy] fz].
    cbn [fst snd to_fvec] in *. repeat split; assumption.
  - rewrite wire_returns; [| intros E; inversion E; lra | reflexivity ..].
    cbn [andb]. unfold wire_field, split3, arr_map, stacked, single.
    cbn [flat shape zip_with fmap list_fmap fst snd].
    rewrite wire_point_spec by (rewrite example_R; lra).
    rewrite example_field. reflexivity.
  - intros Hu.
    assert (Hk : 0 <= u0 * 10 * sqrt 2 / (4 * PI)).
    { pose proof PI_RGT_0. pose proof (sqrt_pos 2).
      apply Rmult_le_pos; [| left; apply Rinv_0_lt_compat; lra].
      apply Rmult_le_pos; [lra | assumption]. }
    assert (Hn : norm (0, u0 * 10 * sqrt 2 / (4 * PI), 0)
                 = u0 * 10 * sqrt 2 / (4 * PI)).
    { unfold norm. cbn [dot].
      replace (0 * 0 + u0 * 10 * sqrt 2 / (4 * PI) * (u0 * 10 * sqrt 2 / (4 * PI))
               + 0 * 0)
        with ((u0 * 10 * sqrt 2 / (4 * PI)) * (u0 * 10 * sqrt 2 / (4 * PI)))
        by ring.
      apply sqrt_square, Hk. }
    split; [exact Hn |]. rewrite Hn.
    replace (u0 * 10 * sqrt 2 / (4 * PI) - u0 * 10 * sqrt 2 / (4 * PI))
      with 0 by ring.
    rewrite Rabs_R0. apply Rmult_le_pos; [| apply Rabs_pos].
    left. apply Rlt_mult_inv_pos; [lra | apply pow_lt; lra].
Qed.

(** *** The arc *)

Lemma linspace_returns (start stop : R) (num : int) :
  (0 <= num)%Z ->
  exists ths : list R,
    np_linspace start stop num = Ok ths
    /\ length ths = Z.to_nat num
    /\ (forall i : nat, (i < Z.to_nat num)%nat ->
        (2 <= num)%Z ->
        ths !! i = Some (start + INR i * ((stop - start) / IZR (num - 1)))).
Proof.
  intros Hnum. unfold np_linspace.
  rewrite decide_False by lia. cbv zeta. eexists. split; [reflexivity |].
  split.
  - rewrite length_fmap, length_seq. reflexivity.
  - intros i Hi H2. rewrite list_lookup_fmap, lookup_seq_lt by exact Hi.
    cbn [fmap option_fmap option_map Nat.add].
    rewrite decide_False by lia. do 3 f_equal.
    rewrite minus_INR by lia. rewrite INR_IZR_INZ, Z2Nat.id by lia.
    rewrite minus_IZR. reflexivity.
Qed.

Lemma arc_point_formula (h R_ phi th : R) :
  vadd (0, 0, h)
    (vscale R_ (matmul (rotate_around_e3 th)
                  (matmul (rotate_around_e3 phi) (1, 0, 0))))
  = (R_ * cos (phi + th), R_ * sin (phi + th), h).
Proof.
  unfold rotate_around_e3, matmul. cbn [dot vscale vadd].
  rewrite cos_plus, sin_plus. f_equal; [f_equal |]; ring.
Qed.

Lemma arc_assert_holds (phi : R) :
  Rabs (dot (matmul (rotate_around_e3 phi) (1, 0, 0)) default_arc_e3)
  <= 1 / 10 ^ 8.
Proof.
  unfold rotate_around_e3, matmul, default_arc_e3. cbn [dot].
  match goal with |- Rabs ?t <= _ => replace t with 0 by ring end.
  rewrite Rabs_R0. lra.
Qed.

Lemma on_circle (h R_ a : R) :
  norm (vsub (R_ * cos a, R_ * sin a, h) (0, 0, h)) = Rabs R_.
Proof.
  unfold norm. cbn [vsub dot].
  replace ((R_ * cos a - 0) * (R_ * cos a - 0)
           + (R_ * sin a - 0) * (R_ * sin a - 0) + (h - h) * (h - h))
    with (Rsqr R_ * (Rsqr (sin a) + Rsqr (cos a))) by (unfold Rsqr; ring).
  rewrite sin2_cos2, Rmult_1_r. apply sqrt_Rsqr_abs.
Qed.

Lemma get_arc_vectors_returns (h R_ theta : R) (npts : int) :
  (2 <= npts)%Z ->
  exists ps : list vec,
    get_arc_vectors h R_ theta npts default_arc_e3 = Ok ps
    /\ length ps = Z.to_nat npts
    /\ (forall i : nat, (i < Z.to_nat npts)%nat ->
        ps !! i = Some (spec_arc_point h R_ theta npts i)).
Proof.
  intros H2. unfold get_arc_vectors. cbv zeta.
  destruct (Rle_dec _ _) as [_ | Hn]; [| exfalso; apply Hn, arc_assert_holds].
  destruct (linspace_returns 0 theta npts ltac:(lia)) as (ths & -> & Hlen & Hth).
  cbn [mbind result_bind]. eexists. split; [reflexivity |]. split.
  - rewrite length_fmap. exact Hlen.
  - intros i Hi. rewrite list_lookup_fmap, (Hth i Hi H2).
    cbn [fmap option_fmap option_map]. rewrite arc_point_formula.
    unfold spec_arc_point, spec_arc_azimuth.
    replace (0 + INR i * ((theta - 0) / IZR (npts - 1)))
      with (INR i * (theta / IZR (npts - 1))) by (unfold Rdiv; ring).
    reflexivity.
Qed.

Lemma fold_accumulate_Raise X Y Z current plot_wire segs e :
  fold_left (accumulate_wire X Y Z current plot_wire) segs (Raise e) = Raise e.
Proof. induction segs as [| seg segs IH]; [reflexivity | exact IH]. Qed.

Lemma fold_accumulate_returns X Y Z current plot_wire segs (B0 : field3) :
  shape X = shape Y -> shape Y = shape Z ->
  Forall (fun seg : vec * vec => seg.1 <> seg.2) segs ->
  fold_left (accumulate_wire X Y Z current plot_wire) segs (Ok B0)
  = Ok (fold_left field3_add
          ((fun seg : vec * vec => wire_field X Y Z seg.1 seg.2 current) <$> segs)
          B0).
Proof.
  intros Hxy Hyz Hall. revert B0.
  induction Hall as [| seg segs Hseg Hall IH]; intros B0; [reflexivity |].
  cbn [fold_left fmap list_fmap]. rewrite <- IH. f_equal.
  unfold accumulate_wire. cbn [mbind result_bind].
  rewrite wire_returns by assumption. rewrite andb_false_r. reflexivity.
Qed.

(** A degenerate segment anywhere in the chain makes the whole chain
    raise: it is not skipped. *)
Lemma fold_accumulate_degenerate X Y Z current plot_wire segs p acc :
  In (p, p) segs ->
  raises (fold_left (accumulate_wire X Y Z current plot_wire) segs acc).
Proof.
  revert acc. induction segs as [| seg segs IH]; intros acc Hin; [destruct Hin |].
  destruct Hin as [-> | Hin]; [| apply IH, Hin].
  cbn [fold_left].
  assert (Hstep : raises (accumulate_wire X Y Z current plot_wire acc (p, p))).
  { unfold accumulate_wire. destruct acc as [B | e]; cbn [mbind result_bind].
    - cbn [fst snd]. rewrite wire_degenerate. eexists. reflexivity.
    - eexists. reflexivity. }
  destruct Hstep as [e ->]. rewrite fold_accumulate_Raise. eexists. reflexivity.
Qed.

Lemma consecutive_lookup {A} (ps : list A) (i : nat) (p q : A) :
  ps !! i = Some p -> ps !! S i = Some q ->
  consecutive ps !! i = Some (p, q).
Proof.
  intros Hp Hq. unfold consecutive.
  rewrite lookup_zip_with, Hp, lookup_tail, Hq. reflexivity.
Qed.

Lemma consecutive_length {A} (ps : list A) :
  length (consecutive ps) = (length ps - 1)%nat.
Proof.
  unfold consecutive. destruct ps as [| p ps]; [reflexivity |].
  rewrite length_zip_with. cbn [tail length]. lia.
Qed.

Lemma cos_eq_1_small (d : R) : - (2 * PI) < d < 2 * PI -> cos d = 1 -> d = 0.
Proof.
  intros [Hlo Hhi] Hc.
  assert (Hs : sin (d / 2) = 0).
  { replace d with (2 * (d / 2)) in Hc by field.
    rewrite cos_2a_sin in Hc. nra. }
  destruct (Rle_dec 0 (d / 2)) as [Hpos | Hneg].
  - destruct (sin_eq_O_2PI_0 (d / 2) Hpos ltac:(lra) Hs) as [H | [H | H]]; lra.
  - assert (Hs' : sin (- (d / 2)) = 0) by (rewrite sin_neg, Hs; ring).
    destruct (sin_eq_O_2PI_0 (- (d / 2)) ltac:(lra) ltac:(lra) Hs')
      as [H | [H | H]]; lra.
Qed.

Lemma circle_points_distinct (h R_ a d : R) :
  R_ <> 0 -> - (2 * PI) < d < 2 * PI -> d <> 0 ->
  (R_ * cos a, R_ * sin a, h) <> (R_ * cos (a + d), R_ * sin (a + d), h).
Proof.
  intros HR Hd Hd0 E. inversion E as [[Hc Hs]].
  apply Rmult_eq_reg_l in Hc; [| exact HR].
  apply Rmult_eq_reg_l in Hs; [| exact HR].
  apply Hd0, cos_eq_1_small; [exact Hd |].
  replace d with ((a + d) - a) by ring. rewrite cos_minus, <- Hc, <- Hs.
  pose proof (sin2_cos2 a) as H. unfold Rsqr in H. lra.
Qed.

Lemma arc_step_small (theta : R) (npts : int) :
  (2 <= npts)%Z -> 0 < Rabs theta < 2 * PI ->
  - (2 * PI) < theta / IZR (npts - 1) < 2 * PI /\ theta / IZR (npts - 1) <> 0.
Proof.
  intros H2 [Hpos Hlt].
  assert (Hk : 1 <= IZR (npts - 1)) by (apply IZR_le; lia).
  assert (Hinv : 0 < / IZR (npts - 1) <= 1).
  { split; [apply Rinv_0_lt_compat; lra |].
    rewrite <- Rinv_1. apply Rinv_le_contravar; lra. }
  unfold Rdiv. revert Hinv. generalize (/ IZR (npts - 1)) as k. intros k Hk'.
  unfold Rabs in *. destruct (Rcase_abs theta); split; nra.
Qed.

Lemma arc_segments_distinct (h R_ theta : R) (npts : int) (ps : list vec) :
  (2 <= npts)%Z -> R_ <> 0 -> 0 < Rabs theta < 2 * PI ->
  length ps = Z.to_nat npts ->
  (forall i : nat, (i < Z.to_nat npts)%nat ->
     ps !! i = Some (spec_arc_point h R_ theta npts i)) ->
  Forall (fun seg : vec * vec => seg.1 <> seg.2) (consecutive ps).
Proof.
  intros H2 HR Hth Hlen Hps. apply Forall_lookup. intros i seg Hseg.
  assert (Hi : (i < length (consecutive ps))%nat)
    by (apply lookup_lt_is_Some; eauto).
  rewrite consecutive_length, Hlen in Hi.
  rewrite (consecutive_lookup ps i _ _ (Hps i ltac:(lia)) (Hps (S i) ltac:(lia)))
    in Hseg.
  inversion Hseg. subst seg. cbn [fst snd]. unfold spec_arc_point, spec_arc_azimuth.
  destruct (arc_step_small theta npts H2 Hth) as [Hd Hd0].
  replace ((PI - theta) / 2 + INR (S i) * (theta / IZR (npts - 1)))
    with ((PI - theta) / 2 + INR i * (theta / IZR (npts - 1))
          + theta / IZR (npts - 1)) by (rewrite S_INR; ring).
  apply circle_points_distinct; assumption.
Qed.

(** With an opening angle of zero all points of the arc coincide and the
    arc field raises on its first segment. *)
Lemma arc_zero_angle_raises X Y Z h R_ npts current plot_wire :
  (2 <= npts)%Z ->
  raises (bfield_from_thin_wire_arc X Y Z h R_ 0 npts current plot_wire).
Proof.
  intros H2.
  destruct (get_arc_vectors_returns h R_ 0 npts H2) as (ps & Hps & Hlen & Hpt).
  unfold bfield_from_thin_wire_arc. rewrite Hps. cbn [mbind result_bind].
  apply (fold_accumulate_degenerate _ _ _ _ _ _ (spec_arc_point h R_ 0 npts 0)).
  apply list_elem_of_In, list_elem_of_lookup. exists 0%nat.
  apply consecutive_lookup; [apply Hpt; lia |].
  rewrite (Hpt 1%nat) by lia. f_equal.
  unfold spec_arc_point, spec_arc_azimuth.
  replace ((PI - 0) / 2 + INR 1 * (0 / IZR (npts - 1)))
    with ((PI - 0) / 2 + INR 0 * (0 / IZR (npts - 1)))
    by (unfold Rdiv; ring).
  reflexivity.
Qed.

(** C7. For a discretization count of at least two, [get_arc_vectors]
    returns exactly [npts] points; point [i] is
    [(R cos a_i, R sin a_i, h)] with [a_i = (pi - theta)/2 + i theta/(npts-1)],
    so it lies in the plane [z = h] perpendicular to (0,0,1), at distance
    [|R|] from (0,0,h), the azimuths running from [(pi - theta)/2] to
    [(pi - theta)/2 + theta].  The arc field chains the [npts - 1] segments
    of consecutive points through the straight-wire sampler and, when the
    grid has one shape and no segment is degenerate, is the zero field plus
    the sum of their fields; a radius that is not zero and an opening angle
    with [0 < |theta| < 2 pi] make every segment non-degenerate. *)
Theorem C7_arc_points_and_segment_sum (h R_ theta : R) (npts : int) :
  (2 <= npts)%Z ->
  exists ps : list vec,
    get_arc_vectors h R_ theta npts default_arc_e3 = Ok ps
    /\ length ps = Z.to_nat npts
    /\ (forall i : nat, (i < Z.to_nat npts)%nat ->
        exists p : vec,
          ps !! i = Some p
          /\ p = spec_arc_point h R_ theta npts i
          /\ p.2 = h
          /\ dot (vsub p (0, 0, h)) default_arc_e3 = 0
          /\ norm (vsub p (0, 0, h)) = Rabs R_)
    /\ spec_arc_azimuth theta npts 0 = (PI - theta) / 2
    /\ spec_arc_azimuth theta npts (Z.to_nat npts - 1) = (PI - theta) / 2 + theta
    /\ length (consecutive ps) = (Z.to_nat npts - 1)%nat
    /\ (forall X Y Z current plot_wire,
         bfield_from_thin_wire_arc X Y Z h R_ theta npts current plot_wire
         = fold_left (accumulate_wire X Y Z current plot_wire) (consecutive ps)
             (Ok (zero_field X Y Z))
         /\ (shape X = shape Y -> shape Y = shape Z ->
             Forall (fun seg : vec * vec => seg.1 <> seg.2) (consecutive ps) ->
             bfield_from_thin_wire_arc X Y Z h R_ theta npts current plot_wire
             = Ok (fold_left field3_add
                     ((fun seg : vec * vec =>
                         wire_field X Y Z seg.1 seg.2 current)
                      <$> consecutive ps)
                     (zero_field X Y Z))))
    /\ (R_ <> 0 -> 0 < Rabs theta < 2 * PI ->
        Forall (fun seg : vec * vec => seg.1 <> seg.2) (consecutive ps)).
Proof.
  intros H2.
  destruct (get_arc_vectors_returns h R_ theta npts H2) as (ps & Hps & Hlen & Hpt).
  exists ps. split; [exact Hps |]. split; [exact Hlen |]. split.
  { intros i Hi. exists (spec_arc_point h R_ theta npts i).
    split; [apply Hpt, Hi |]. split; [reflexivity |].
    unfold spec_arc_point. split; [reflexivity |]. split.
    - unfold default_arc_e3. cbn [vsub dot]. ring.
    - apply on_circle. }
  split.
  { unfold spec_arc_azimuth. cbn [INR]. ring. }
  split.
  { unfold spec_arc_azimuth. rewrite minus_INR by lia.
    rewrite INR_IZR_INZ, Z2Nat.id by lia. cbn [INR]. rewrite minus_IZR.
    assert (1 <= IZR npts - 1).
    { rewrite <- minus_IZR. apply IZR_le. lia. }
    field. lra. }
  split.
  { rewrite consecutive_length, Hlen. reflexivity. }
  split.
  { intros X Y Z current pw.
    assert (Harc : bfield_from_thin_wire_arc X Y Z h R_ theta npts current pw
                   = fold_left (accumulate_wire X Y Z current pw) (consecutive ps)
                       (Ok (zero_field X Y Z))).
    { unfold bfield_from_thin_wire_arc. rewrite Hps. reflexivity. }
    split; [exact Harc |]. intros Hxy Hyz Hall. rewrite Harc.
    apply fold_accumulate_returns; assumption. }
  intros HR Hth. eapply arc_segments_distinct; eassumption.
Qed.

(** *** The FieldMesh constructor *)

Lemma FieldMesh_init_Ok data_attrs data_components fm :
  FieldMesh_init data_attrs data_components = Ok fm ->
  attrs fm = data_attrs /\ components fm = data_components.
Proof.
  unfold FieldMesh_init. intros H. inv_bind H. inversion H. split; reflexivity.
Qed.

Lemma FieldMesh_init_returns data_attrs data_components :
  (forall k, is_Some (data_components !! k) -> is_Some (component_alias !! k)) ->
  returns (FieldMesh_init data_attrs data_components).
Proof.
  intros Hreg. unfold FieldMesh_init.
  assert (Hfold : exists d,
             map_fold
               (fun k v (acc : result (gmap string (ndarray float))) =>
                  d ← acc; alias ← dict_get component_alias k;
                  Ok (<[alias := v]> d))
               (Ok ∅) data_components = Ok d).
  { revert Hreg.
    apply (map_fold_weak_ind
             (fun r (m : gmap string (ndarray float)) =>
                (forall k, is_Some (m !! k) -> is_Some (component_alias !! k)) ->
                exists d, r = Ok d)).
    - intros _. eexists. reflexivity.
    - intros i x m r Hi IH Hall.
      destruct IH as [d ->].
      { intros k Hk. apply Hall. destruct (decide (i = k)) as [-> | Hne].
        - rewrite Hi in Hk. destruct Hk as [? Hk]. discriminate.
        - rewrite lookup_insert_ne by exact Hne. exact Hk. }
      destruct (Hall i) as [al Hal].
      { rewrite lookup_insert_eq. eexists. reflexivity. }
      cbn [mbind result_bind]. unfold dict_get. rewrite Hal.
      eexists. reflexivity. }
  destruct Hfold as [d ->]. eexists. reflexivity.
Qed.

(** *** Component lookup *)

(** C8. Indexing a mesh with a key that is no stored component name, no
    alias that resolves to a stored component, and neither 'E' nor 'B',
    raises the error "Key not available: <key>"; it returns no array and no
    default.  In particular this is what [mesh['Bq']] does on a mesh that
    stores no component under that name or alias. *)
Theorem C8_unknown_key_raises :
  (forall (fm : FieldMesh) (key : string),
      components fm !! key = None ->
      (forall comp, component_from_alias !! key = Some comp ->
                    components fm !! comp = None) ->
      key <> "E" -> key <> "B" ->
      getitem fm key = Raise (ValueError ("Key not available: " ++ key))
      /\ ~ returns (getitem fm key))
  /\ (forall fm : FieldMesh,
         components fm !! "Bq" = None ->
         (forall comp, component_from_alias !! "Bq" = Some comp ->
                       components fm !! comp = None) ->
         getitem fm "Bq" = Raise (ValueError "Key not available: Bq")).
Proof.
  assert (H : forall (fm : FieldMesh) (key : string),
             components fm !! key = None ->
             (forall comp, component_from_alias !! key = Some comp ->
                           components fm !! comp = None) ->
             key <> "E" -> key <> "B" ->
             getitem fm key = Raise (ValueError ("Key not available: " ++ key))).
  { intros fm key Hc Ha HE HB. unfold getitem, lookup_component. rewrite Hc.
    destruct (component_from_alias !! key) as [comp |] eqn:E.
    - rewrite (Ha comp eq_refl).
      rewrite !decide_False by assumption. reflexivity.
    - rewrite !decide_False by assumption. reflexivity. }
  split.
  - intros fm key Hc Ha HE HB. split; [apply H; assumption |].
    intros [a Ha']. rewrite H in Ha' by assumption. discriminate.
  - intros fm Hc Ha. apply (H fm "Bq"); [assumption | assumption | |];
      discriminate.
Qed.

Lemma getitem_named_eq (fm : FieldMesh) (key : string) :
  key <> "E" -> key <> "B" -> getitem_named fm key = getitem fm key.
Proof.
  intros HE HB. unfold getitem_named, getitem.
  destruct (lookup_component fm key); [reflexivity |].
  rewrite !decide_False by assumption. reflexivity.
Qed.

(** *** Axis accessors on a 'rectangular' mesh *)

Lemma axis_labels_rectangular (fm : FieldMesh) :
  attrs fm !! "gridGeometry" = Some (AStr "rectangular") ->
  axis_labels fm = Raise (KeyError "rectangular").
Proof.
  intros H. unfold axis_labels, geometry, dict_get. rewrite H. reflexivity.
Qed.

(** *** Shapes *)

Lemma flat_map_length_const {A B} (f : A -> list B) (l : list A) (k : nat) :
  (forall x, length (f x) = k) -> length (flat_map f l) = (length l * k)%nat.
Proof.
  intros Hf. induction l as [| x l IH]; [reflexivity |].
  cbn [flat_map length]. rewrite length_app, Hf, IH. lia.
Qed.

Lemma meshgrid_has_shape (xs ys zs : list R) :
  let s := (length xs, length ys, length zs) in
  has_shape s (np_meshgrid xs ys zs).1.1
  /\ has_shape s (np_meshgrid xs ys zs).1.2
  /\ has_shape s (np_meshgrid xs ys zs).2.
Proof.
  cbv zeta. unfold np_meshgrid, has_shape. cbn [fst snd shape flat].
  assert (H : forall g : R -> R -> R -> R,
             length (flat_map (fun x => flat_map (fun y => map (g x y) zs) ys) xs)
             = (length xs * length ys * length zs)%nat).
  { intros g.
    rewrite (flat_map_length_const _ xs (length ys * length zs)); [lia |].
    intros x. apply flat_map_length_const. intros y. apply length_map. }
  repeat split.
  - apply (H (fun x _ _ => x)).
  - apply (H (fun _ y _ => y)).
  - apply (H (fun _ _ z => z)).
Qed.

Lemma wire_field_has_shape s x y z p1 p2 current :
  has_shape s x -> has_shape s y -> has_shape s z ->
  field_has_shape s (wire_field x y z p1 p2 current).
Proof.
  intros [Hx Hlx] [Hy Hly] [Hz Hlz].
  unfold field_has_shape, has_shape, wire_field, split3, arr_map, stacked.
  cbn [fst snd shape flat].
  rewrite !length_fmap, !length_zip_with, Hlx, Hly, Hlz.
  repeat split; try exact Hx; lia.
Qed.

Lemma field3_add_has_shape s (A B : field3) :
  field_has_shape s A -> field_has_shape s B ->
  field_has_shape s (field3_add A B).
Proof.
  destruct A as [[ax ay] az], B as [[bx by_] bz].
  unfold field_has_shape, has_shape, field3_add, arr_add, arr_map2.
  cbn [fst snd shape flat]. rewrite !length_zip_with.
  intros ([? ?] & [? ?] & [? ?]) ([? ?] & [? ?] & [? ?]).
  repeat split; try assumption; lia.
Qed.

Lemma wire_Ok_inv x y z p1 p2 current plot_wire return_axes B :
  bfield_from_thin_straight_wire x y z p1 p2 current plot_wire return_axes
  = Ok (Some B) ->
  B = wire_field x y z p1 p2 current.
Proof.
  unfold bfield_from_thin_straight_wire, np_stack.
  destruct (Rlt_dec 0 (norm (vsub p2 p1))); [| discriminate].
  destruct (decide _); [| discriminate]. cbn [mbind result_bind].
  destruct (plot_wire && return_axes); [discriminate |].
  intros H. inversion H. reflexivity.
Qed.

Lemma coil_has_shape s X Y Z a b y0 current plot_wire B :
  has_shape s X -> has_shape s Y -> has_shape s Z ->
  bfield_from_thin_rectangular_coil X Y Z a b y0 current plot_wire = Ok B ->
  field_has_shape s B.
Proof.
  intros HX HY HZ H. unfold bfield_from_thin_rectangular_coil in H.
  cbv zeta in H. do 4 inv_bind H. inversion H. subst B.
  repeat match goal with
         | Hr : unpack3 _ = Ok _ |- _ =>
             apply unpack3_Ok, wire_Ok_inv in Hr; subst
         end.
  repeat apply field3_add_has_shape; apply wire_field_has_shape; assumption.
Qed.

Lemma corrector_has_shape s X Y Z a b h current plot_wire B :
  has_shape s X -> has_shape s Y -> has_shape s Z ->
  bfield_from_thin_rectangular_corrector X Y Z a b h current plot_wire = Ok B ->
  field_has_shape s B.
Proof.
  intros HX HY HZ H. unfold bfield_from_thin_rectangular_corrector in H.
  do 2 inv_bind H. inversion H. subst B.
  apply field3_add_has_shape;
    (eapply coil_has_shape; [exact HX | exact HY | exact HZ | eassumption]).
Qed.

(** *** The sampling axes *)

Lemma linspace_opt_Ok (start stop : option R) (num : int) (xs : list R) :
  np_linspace_opt start stop num = Ok xs ->
  exists s e, start = Some s /\ stop = Some e /\ np_linspace s e num = Ok xs.
Proof.
  unfold np_linspace_opt. destruct (decide (num < 0)%Z); [discriminate |].
  destruct start as [s |], stop as [e |]; try discriminate.
  intros H. exists s, e. repeat split. exact H.
Qed.

Lemma linspace_spacing (s e : R) (num : int) (xs : list R) (x0 dx : R) :
  np_linspace s e num = Ok xs ->
  np_diff0 xs = Ok dx -> index0 xs = Ok x0 ->
  (2 <= num)%Z /\ x0 = s /\ dx = (e - s) / (IZR num - 1)
  /\ length xs = Z.to_nat num.
Proof.
  unfold np_linspace. destruct (decide (num < 0)%Z) as [| Hnum]; [discriminate |].
  cbv zeta. intros H. inversion H as [Hxs]. clear H.
  rewrite length_fmap, length_seq.
  destruct (Z.to_nat num) as [| [| n]] eqn:En; cbn [seq fmap list_fmap];
    try discriminate.
  destruct (decide ((S (S n) - 1)%nat = 0%nat)) as [| _]; [lia |].
  assert (H2 : (2 <= num)%Z) by lia.
  assert (HI : IZR num - 1 = INR (S n)).
  { replace num with (Z.of_nat (S (S n))) by lia.
    rewrite <- INR_IZR_INZ, (S_INR (S n)). ring. }
  assert (Hpos : 0 < INR (S n)) by (apply lt_0_INR; lia).
  replace (S (S n) - 1)%nat with (S n) by lia. rewrite HI. clear Hxs.
  revert Hpos. generalize (INR (S n)) as k. intros k Hpos.
  cbn [np_diff0 index0]. intros Hd H0.
  injection Hd as <-. injection H0 as <-.
  split; [exact H2 |]. split; [cbn [INR]; ring |]. split; [| reflexivity].
  cbn [INR]. field. lra.
Qed.

Lemma linspace_two (s e : R) (num : int) :
  (2 <= num)%Z ->
  exists xs, np_linspace s e num = Ok xs
    /\ returns (np_diff0 xs) /\ returns (index0 xs).
Proof.
  intros H2. unfold np_linspace. rewrite decide_False by lia. cbv zeta.
  destruct (Z.to_nat num) as [| [| n]] eqn:En; try lia.
  cbn [seq fmap list_fmap]. eexists. split; [reflexivity |].
  cbn [np_diff0 index0]. split; eexists; reflexivity.
Qed.

(** *** The closing block of the builders *)

Lemma assemble_fieldmesh_Ok xs ys zs B fm :
  assemble_fieldmesh xs ys zs B = Ok fm ->
  exists dx dy dz x0 y0 z0,
    np_diff0 xs = Ok dx /\ np_diff0 ys = Ok dy /\ np_diff0 zs = Ok dz
    /\ index0 xs = Ok x0 /\ index0 ys = Ok y0 /\ index0 zs = Ok z0
    /\ attrs fm = mesh_attrs (x0, y0, z0) (dx, dy, dz) (shape B.1.1)
    /\ components fm = mesh_components B.
Proof.
  destruct B as [[Bx By] Bz]. unfold assemble_fieldmesh. intros H.
  do 6 inv_bind H. cbv zeta in H. apply FieldMesh_init_Ok in H as [Ha Hc].
  do 6 eexists. do 6 (split; [eassumption |]). split; assumption.
Qed.

Lemma assemble_fieldmesh_returns xs ys zs B :
  returns (np_diff0 xs) -> returns (np_diff0 ys) -> returns (np_diff0 zs) ->
  returns (index0 xs) -> returns (index0 ys) -> returns (index0 zs) ->
  is_Some (component_alias !! "magneticField/x") ->
  is_Some (component_alias !! "magneticField/y") ->
  is_Some (component_alias !! "magneticField/z") ->
  returns (assemble_fieldmesh xs ys zs B).
Proof.
  intros [dx Hdx] [dy Hdy] [dz Hdz] [x0 Hx0] [y0 Hy0] [z0 Hz0] Hx Hy Hz.
  destruct B as [[Bx By] Bz]. unfold assemble_fieldmesh.
  rewrite Hdx, Hdy, Hdz, Hx0, Hy0, Hz0.
  cbn [mbind result_bind]. cbv zeta. apply FieldMesh_init_returns.
  intros k [v Hk].
  destruct (decide (k = "magneticField/z")) as [-> | Nz]; [exact Hz |].
  rewrite lookup_insert_ne in Hk by congruence.
  destruct (decide (k = "magneticField/y")) as [-> | Ny]; [exact Hy |].
  rewrite lookup_insert_ne in Hk by congruence.
  destruct (decide (k = "magneticField/x")) as [-> | Nx]; [exact Hx |].
  rewrite lookup_insert_ne in Hk by congruence.
  rewrite lookup_empty in Hk. discriminate.
Qed.

Lemma mesh_attrs_geometry origin spacing size :
  mesh_attrs origin spacing size !! "gridGeometry" = Some (AStr "rectangular")
  /\ mesh_attrs origin spacing size !! "axisLabels"
     = Some (AStr3 ("x", "y", "z")).
Proof. split; reflexivity. Qed.

(** *** The rectangular builder *)

Lemma make_rectangular_Ok a b h current xmin xmax nx ymin ymax ny
    zmin zmax nz plot_wire fm :
  make_rectangular_dipole_corrector_fieldmesh a b h current
    xmin xmax nx ymin ymax ny zmin zmax nz plot_wire = Ok fm ->
  exists x0 x1 y0 y1 z0 z1 B,
    xmin = Some x0 /\ xmax = Some x1 /\ ymin = Some y0 /\ ymax = Some y1
    /\ zmin = Some z0 /\ zmax = Some z1
    /\ (2 <= nx)%Z /\ (2 <= ny)%Z /\ (2 <= nz)%Z
    /\ field_has_shape (Z.to_nat nx, Z.to_nat ny, Z.to_nat nz) B
    /\ attrs fm
       = mesh_attrs (x0, y0, z0)
           ((x1 - x0) / (IZR nx - 1), (y1 - y0) / (IZR ny - 1),
            (z1 - z0) / (IZR nz - 1))
           (Z.to_nat nx, Z.to_nat ny, Z.to_nat nz)
    /\ components fm = mesh_components B.
Proof.
  unfold make_rectangular_dipole_corrector_fieldmesh. intros H.
  inv_bind H. rename r into xs. inv_bind H. rename r into ys.
  inv_bind H. rename r into zs.
  pose proof (meshgrid_has_shape xs ys zs) as HS. cbv zeta in HS.
  destruct (np_meshgrid xs ys zs) as [[X Y] Z]. cbn [fst snd] in HS.
  destruct HS as (HX & HY & HZ).
  do 3 inv_bind H. inv_bind H. rename r2 into B.
  apply assemble_fieldmesh_Ok in H
    as (dx & dy & dz & x0' & y0' & z0' & Hdx & Hdy & Hdz & Hx0 & Hy0 & Hz0
        & Ha & Hc).
  apply linspace_opt_Ok in Hr as (x0 & x1 & -> & -> & Hxs).
  apply linspace_opt_Ok in Hr0 as (y0 & y1 & -> & -> & Hys).
  apply linspace_opt_Ok in Hr1 as (z0 & z1 & -> & -> & Hzs).
  destruct (linspace_spacing _ _ _ _ _ _ Hxs Hdx Hx0) as (Hnx & -> & -> & Lx).
  destruct (linspace_spacing _ _ _ _ _ _ Hys Hdy Hy0) as (Hny & -> & -> & Ly).
  destruct (linspace_spacing _ _ _ _ _ _ Hzs Hdz Hz0) as (Hnz & -> & -> & Lz).
  rewrite Lx, Ly, Lz in HX, HY, HZ.
  pose proof (corrector_has_shape _ _ _ _ _ _ _ _ _ _ HX HY HZ Hr5) as HB.
  exists x0, x1, y0, y1, z0, z1, B.
  repeat (split; [first [reflexivity | assumption] |]).
  split; [| exact Hc]. rewrite Ha. destruct HB as ([-> _] & _). reflexivity.
Qed.

Lemma linspace_opt_Some (s e : R) (num : int) :
  (0 <= num)%Z -> np_linspace_opt (Some s) (Some e) num = np_linspace s e num.
Proof.
  intros H. unfold np_linspace_opt. rewrite decide_False by lia. reflexivity.
Qed.

Lemma corrector_returns X Y Z a b h current plot_wire :
  a <> 0 -> b <> 0 -> shape X = shape Y -> shape Y = shape Z ->
  returns (bfield_from_thin_rectangular_corrector X Y Z a b h current plot_wire).
Proof.
  intros Ha Hb Hxy Hyz. unfold bfield_from_thin_rectangular_corrector.
  rewrite !coil_returns by assumption. eexists. reflexivity.
Qed.

Lemma make_rectangular_returns a b h current x0 x1 nx y0 y1 ny z0 z1 nz
    plot_wire :
  a <> 0 -> b <> 0 -> (2 <= nx)%Z -> (2 <= ny)%Z -> (2 <= nz)%Z ->
  is_Some (component_alias !! "magneticField/x") ->
  is_Some (component_alias !! "magneticField/y") ->
  is_Some (component_alias !! "magneticField/z") ->
  returns (make_rectangular_dipole_corrector_fieldmesh
             (Some a) (Some b) (Some h) current
             (Some x0) (Some x1) nx (Some y0) (Some y1) ny
             (Some z0) (Some z1) nz plot_wire).
Proof.
  intros Ha Hb Hnx Hny Hnz Rx Ry Rz.
  unfold make_rectangular_dipole_corrector_fieldmesh.
  rewrite !linspace_opt_Some by lia.
  destruct (linspace_two x0 x1 nx Hnx) as (xs & -> & Hdx & Hix).
  destruct (linspace_two y0 y1 ny Hny) as (ys & -> & Hdy & Hiy).
  destruct (linspace_two z0 z1 nz Hnz) as (zs & -> & Hdz & Hiz).
  cbn [mbind result_bind need].
  pose proof (meshgrid_has_shape xs ys zs) as HS. cbv zeta in HS.
  destruct (np_meshgrid xs ys zs) as [[X Y] Z]. cbn [fst snd] in HS.
  destruct HS as ([HX _] & [HY _] & [HZ _]).
  destruct (corrector_returns X Y Z a b h current true Ha Hb) as [B ->];
    [congruence | congruence |].
  cbn [mbind result_bind]. apply assemble_fieldmesh_returns; assumption.
Qed.

(** C6. A successful call of the rectangular-dipole builder with
    bounds [xmin, xmax, nx, ymin, ymax, ny, zmin, zmax, nz] returns a mesh
    whose attrs hold gridOriginOffset = (xmin, ymin, zmin), gridSpacing =
    ((max - min)/(count - 1) per axis), gridSize = (nx, ny, nz),
    eleAnchorPt = 'center', gridGeometry = 'rectangular', axisLabels =
    ('x','y','z'), gridLowerBound = (0,0,0), harmonic = 0 and
    fundamentalFrequency = 0, and whose components are exactly
    'magneticField/x', 'magneticField/y', 'magneticField/z', each an array
    of shape (nx, ny, nz) with nx ny nz entries. *)
Theorem C6_rectangular_mesh_metadata a b h current xmin xmax nx ymin ymax ny
    zmin zmax nz plot_wire fm :
  make_rectangular_dipole_corrector_fieldmesh a b h current
    (Some xmin) (Some xmax) nx (Some ymin) (Some ymax) ny
    (Some zmin) (Some zmax) nz plot_wire = Ok fm ->
  let size := (Z.to_nat nx, Z.to_nat ny, Z.to_nat nz) in
  attrs fm !! "gridOriginOffset" = Some (AFloat3 (xmin, ymin, zmin))
  /\ attrs fm !! "gridSpacing"
     = Some (AFloat3 ((xmax - xmin) / (IZR nx - 1),
                      (ymax - ymin) / (IZR ny - 1),
                      (zmax - zmin) / (IZR nz - 1)))
  /\ attrs fm !! "gridSize" = Some (AShape size)
  /\ attrs fm !! "eleAnchorPt" = Some (AStr "center")
  /\ attrs fm !! "gridGeometry" = Some (AStr "rectangular")
  /\ attrs fm !! "axisLabels" = Some (AStr3 ("x", "y", "z"))
  /\ attrs fm !! "gridLowerBound" = Some (AInt3 (0, 0, 0)%Z)
  /\ attrs fm !! "harmonic" = Some (AInt 0)
  /\ attrs fm !! "fundamentalFrequency" = Some (AInt 0)
  /\ FieldMesh_shape fm = Ok size
  /\ exists Bx By Bz : ndarray float,
      components fm !! "magneticField/x" = Some Bx
      /\ components fm !! "magneticField/y" = Some By
      /\ components fm !! "magneticField/z" = Some Bz
      /\ has_shape size Bx /\ has_shape size By /\ has_shape size Bz
      /\ dom (components fm)
         = ({["magneticField/x"; "magneticField/y"; "magneticField/z"]}
            : gset string).
Proof.
  intros H. cbv zeta.
  apply make_rectangular_Ok in H
    as (x0 & x1 & y0 & y1 & z0 & z1 & B & E1 & E2 & E3 & E4 & E5 & E6
        & Hnx & Hny & Hnz & HB & Ha & Hc).
  inversion E1. inversion E2. inversion E3. inversion E4. inversion E5.
  inversion E6. subst. clear E1 E2 E3 E4 E5 E6.
  unfold FieldMesh_shape, dict_get. rewrite Ha, Hc.
  do 9 (split; [reflexivity |]). split; [reflexivity |].
  destruct B as [[Bx By] Bz]. destruct HB as (HBx & HBy & HBz).
  exists Bx, By, Bz. unfold mesh_components. cbn [fst snd] in *.
  do 3 (split; [reflexivity |]). do 3 (split; [assumption |]).
  rewrite !dom_insert_L, dom_empty_L. set_solver.
Qed.

(** *** Every builder tags its mesh 'rectangular' *)

Lemma assemble_geometry xs ys zs B fm :
  assemble_fieldmesh xs ys zs B = Ok fm ->
  attrs fm !! "gridGeometry" = Some (AStr "rectangular")
  /\ attrs fm !! "axisLabels" = Some (AStr3 ("x", "y", "z")).
Proof.
  intros H. apply assemble_fieldmesh_Ok in H
    as (dx & dy & dz & x0 & y0 & z0 & _ & _ & _ & _ & _ & _ & Ha & _).
  rewrite Ha. apply mesh_attrs_geometry.
Qed.

Lemma make_rectangular_geometry a b h current xmin xmax nx ymin ymax ny
    zmin zmax nz plot_wire fm :
  make_rectangular_dipole_corrector_fieldmesh a b h current
    xmin xmax nx ymin ymax ny zmin zmax nz plot_wire = Ok fm ->
  attrs fm !! "gridGeometry" = Some (AStr "rectangular")
  /\ attrs fm !! "axisLabels" = Some (AStr3 ("x", "y", "z")).
Proof.
  intros H. apply make_rectangular_Ok in H
    as (x0 & x1 & y0 & y1 & z0 & z1 & B & _ & _ & _ & _ & _ & _
        & _ & _ & _ & _ & Ha & _).
  rewrite Ha. apply mesh_attrs_geometry.
Qed.

Lemma make_saddle_geometry R_ L theta current xmin xmax nx ymin ymax ny
    zmin zmax nz npts plot_wire fm :
  make_saddle_dipole_corrector_fieldmesh R_ L theta current
    xmin xmax nx ymin ymax ny zmin zmax nz npts plot_wire = Ok fm ->
  attrs fm !! "gridGeometry" = Some (AStr "rectangular")
  /\ attrs fm !! "axisLabels" = Some (AStr3 ("x", "y", "z")).
Proof.
  unfold make_saddle_dipole_corrector_fieldmesh. intros H.
  do 3 inv_bind H. destruct (np_meshgrid _ _ _) as [[X Y] Z].
  do 5 inv_bind H. eapply assemble_geometry, H.
Qed.

Lemma make_wire_geometry p1 p2 current xmin xmax nx ymin ymax ny
    zmin zmax nz plot_wire fm :
  make_thin_straight_wire_fieldmesh p1 p2 current
    xmin xmax nx ymin ymax ny zmin zmax nz plot_wire = Ok fm ->
  attrs fm !! "gridGeometry" = Some (AStr "rectangular")
  /\ attrs fm !! "axisLabels" = Some (AStr3 ("x", "y", "z")).
Proof.
  unfold make_thin_straight_wire_fieldmesh. intros H.
  do 9 inv_bind H. destruct (np_meshgrid _ _ _) as [[X Y] Z].
  inv_bind H. eapply assemble_geometry, H.
Qed.

Lemma make_dipole_geometry current xmin xmax nx ymin ymax ny zmin zmax nz
    mode a b h R_ L theta npts plot_wire fm :
  make_dipole_corrector_fieldmesh current xmin xmax nx ymin ymax ny
    zmin zmax nz mode a b h R_ L theta npts plot_wire = Ok fm ->
  attrs fm !! "gridGeometry" = Some (AStr "rectangular")
  /\ attrs fm !! "axisLabels" = Some (AStr3 ("x", "y", "z")).
Proof.
  unfold make_dipole_corrector_fieldmesh. intros H.
  destruct (decide (mode = "rectangular")).
  - destruct a, b, h; try discriminate. cbv zeta in H.
    eapply make_rectangular_geometry, H.
  - destruct (decide (mode = "saddle")); [| discriminate].
    do 6 inv_bind H.
    destruct (is_None R_ || is_None L || is_None theta); [discriminate |].
    eapply make_saddle_geometry, H.
Qed.

Lemma set_axisLabels_get (fm : FieldMesh) (v : attr_value) (k : string) :
  k <> "axisLabels" ->
  dict_get (attrs (set_attr fm "axisLabels" v)) k = dict_get (attrs fm) k.
Proof.
  intros Hk. unfold dict_get, set_attr. cbn [attrs].
  rewrite lookup_insert_ne by congruence. reflexivity.
Qed.

(** C10. On a mesh whose gridGeometry attribute is 'rectangular' the
    accessors [axis_labels], [axis_index] and [coord_vec] raise the
    KeyError of the lookup of 'rectangular' in the fixed table
    [axis_labels_from_geometry], whose only keys are 'cartesian' and
    'cylindrical'.  None of the three reads the stored axisLabels
    attribute: overwriting it changes no result.  Every mesh returned by a
    builder of corrector_modeling carries gridGeometry = 'rectangular'
    (and axisLabels = ('x','y','z')). *)
Theorem C10_rectangular_geometry_breaks_axis_accessors :
  (forall fm : FieldMesh,
      attrs fm !! "gridGeometry" = Some (AStr "rectangular") ->
      axis_labels fm = Raise (KeyError "rectangular")
      /\ (forall key, axis_index fm key = Raise (KeyError "rectangular"))
      /\ (forall key, coord_vec fm key = Raise (KeyError "rectangular")))
  /\ (forall g : string,
         is_Some (axis_labels_from_geometry !! g)
         <-> g = "cartesian" \/ g = "cylindrical")
  /\ (forall (fm : FieldMesh) (v : attr_value) (key : string),
         axis_labels (set_attr fm "axisLabels" v) = axis_labels fm
         /\ axis_index (set_attr fm "axisLabels" v) key = axis_index fm key
         /\ coord_vec (set_attr fm "axisLabels" v) key = coord_vec fm key)
  /\ (forall a b h current xmin xmax nx ymin ymax ny zmin zmax nz plot_wire fm,
         make_rectangular_dipole_corrector_fieldmesh a b h current
           xmin xmax nx ymin ymax ny zmin zmax nz plot_wire = Ok fm ->
         attrs fm !! "gridGeometry" = Some (AStr "rectangular")
         /\ attrs fm !! "axisLabels" = Some (AStr3 ("x", "y", "z")))
  /\ (forall R_ L theta current xmin xmax nx ymin ymax ny zmin zmax nz npts
             plot_wire fm,
         make_saddle_dipole_corrector_fieldmesh R_ L theta current
           xmin xmax nx ymin ymax ny zmin zmax nz npts plot_wire = Ok fm ->
         attrs fm !! "gridGeometry" = Some (AStr "rectangular")
         /\ attrs fm !! "axisLabels" = Some (AStr3 ("x", "y", "z")))
  /\ (forall current xmin xmax nx ymin ymax ny zmin zmax nz mode a b h
             R_ L theta npts plot_wire fm,
         make_dipole_corrector_fieldmesh current xmin xmax nx ymin ymax ny
           zmin zmax nz mode a b h R_ L theta npts plot_wire = Ok fm ->
         attrs fm !! "gridGeometry" = Some (AStr "rectangular")
         /\ attrs fm !! "axisLabels" = Some (AStr3 ("x", "y", "z")))
  /\ (forall p1 p2 current xmin xmax nx ymin ymax ny zmin zmax nz plot_wire fm,
         make_thin_straight_wire_fieldmesh p1 p2 current
           xmin xmax nx ymin ymax ny zmin zmax nz plot_wire = Ok fm ->
         attrs fm !! "gridGeometry" = Some (AStr "rectangular")
         /\ attrs fm !! "axisLabels" = Some (AStr3 ("x", "y", "z"))).
Proof.
  split; [| split; [| split; [| split; [| split; [| split]]]]].
  - intros fm Hg. pose proof (axis_labels_rectangular fm Hg) as Hl.
    split; [exact Hl |]. split; intros key.
    + unfold axis_index. rewrite Hl. reflexivity.
    + unfold coord_vec, axis_index. rewrite Hl. reflexivity.
  - intros g. unfold axis_labels_from_geometry. split.
    + intros [l Hl].
      destruct (decide (g = "cartesian")) as [| N1]; [left; assumption |].
      rewrite lookup_insert_ne in Hl by congruence.
      destruct (decide (g = "cylindrical")) as [| N2]; [right; assumption |].
      rewrite lookup_insert_ne in Hl by congruence.
      rewrite lookup_empty in Hl. discriminate.
    + intros [-> | ->]; eexists; reflexivity.
  - intros fm v key.
    assert (Hl : axis_labels (set_attr fm "axisLabels" v) = axis_labels fm).
    { unfold axis_labels, geometry. rewrite set_axisLabels_get by discriminate.
      reflexivity. }
    assert (Hi : axis_index (set_attr fm "axisLabels" v) key = axis_index fm key).
    { unfold axis_index. rewrite Hl. reflexivity. }
    split; [exact Hl |]. split; [exact Hi |].
    unfold coord_vec, FieldMesh_max, FieldMesh_min, FieldMesh_delta,
      FieldMesh_shape.
    rewrite Hi. rewrite !set_axisLabels_get by discriminate. reflexivity.
  - intros. eapply make_rectangular_geometry. eassumption.
  - intros. eapply make_saddle_geometry. eassumption.
  - intros. eapply make_dipole_geometry. eassumption.
  - intros. eapply make_wire_geometry. eassumption.
Qed.

(** C5 (the code departs from the specification).  In saddle mode the default
    bounds are computed from [R] and [L] before the check for missing
    parameters: with [R] omitted and [xmin] left to its default the call
    dies on [-R] with a TypeError that names no parameter.  The check itself
    is reached, and raises the ValueError naming 'R', 'L' and 'theta', when
    all six bounds are supplied, or when only [theta] is missing.  In
    rectangular mode the check comes first: any of [a], [b], [h] missing
    raises the ValueError naming 'a', 'b' and 'h'. *)
Theorem C5_saddle_missing_radius_raises_TypeError :
  (forall current xmax nx ymin ymax ny zmin zmax nz a b h L theta npts plot_wire,
      make_dipole_corrector_fieldmesh current None xmax nx ymin ymax ny
        zmin zmax nz "saddle" a b h None L theta npts plot_wire
      = Raise (TypeError "bad operand type for unary -: 'NoneType'"))
  /\ (forall current xmin xmax nx ymin ymax ny zmin zmax nz a b h L theta
             npts plot_wire,
         make_dipole_corrector_fieldmesh current (Some xmin) (Some xmax) nx
           (Some ymin) (Some ymax) ny (Some zmin) (Some zmax) nz
           "saddle" a b h None L theta npts plot_wire
         = Raise (ValueError
             "Parameters 'R', 'L', and 'theta' must be provided for saddle mode."))
  /\ (forall current xmin xmax nx ymin ymax ny zmin zmax nz a b h R_ L
             npts plot_wire,
         make_dipole_corrector_fieldmesh current xmin xmax nx ymin ymax ny
           zmin zmax nz "saddle" a b h (Some R_) (Some L) None npts plot_wire
         = Raise (ValueError
             "Parameters 'R', 'L', and 'theta' must be provided for saddle mode."))
  /\ (forall current xmin xmax nx ymin ymax ny zmin zmax nz a b R_ L theta
             npts plot_wire,
         make_dipole_corrector_fieldmesh current xmin xmax nx ymin ymax ny
           zmin zmax nz "rectangular" (Some a) (Some b) None R_ L theta
           npts plot_wire
         = Raise (ValueError
             "Parameters 'a', 'b', and 'h' must be provided for rectangular mode."))
  /\ (forall current xmin xmax nx ymin ymax ny zmin zmax nz b h R_ L theta
             npts plot_wire,
         make_dipole_corrector_fieldmesh current xmin xmax nx ymin ymax ny
           zmin zmax nz "rectangular" None b h R_ L theta npts plot_wire
         = Raise (ValueError
             "Parameters 'a', 'b', and 'h' must be provided for rectangular mode."))
  /\ (forall current xmin xmax nx ymin ymax ny zmin zmax nz a h R_ L theta
             npts plot_wire,
         make_dipole_corrector_fieldmesh current xmin xmax nx ymin ymax ny
           zmin zmax nz "rectangular" a None h R_ L theta npts plot_wire
         = Raise (ValueError
             "Parameters 'a', 'b', and 'h' must be provided for rectangular mode.")).
Proof.
  split; [| split; [| split; [| split; [| split]]]].
  - reflexivity.
  - reflexivity.
  - intros. unfold make_dipole_corrector_fieldmesh.
    destruct xmin, ymin, zmin, xmax, ymax, zmax; reflexivity.
  - reflexivity.
  - intros. unfold make_dipole_corrector_fieldmesh. destruct b, h; reflexivity.
  - intros. unfold make_dipole_corrector_fieldmesh. destruct a, h; reflexivity.
Qed.

(** *** Moving the wire and the grid together *)









(** *** Linearity in the current *)

Lemma spec_field_scale (P p1 p2 : vec) (k current : R) :
  spec_field P p1 p2 (k * current) = vscale k (spec_field P p1 p2 current).
Proof.
  unfold spec_field, spec_B0. cbv zeta.
  generalize (spec_e3 P p1 p2) as e. intros [[e1 e2] e3].
  cbn [vscale]. unfold Rdiv. f_equal; [f_equal |]; ring.
Qed.

Lemma spec_field_plus (P p1 p2 : vec) (I1 I2 : R) :
  spec_field P p1 p2 (I1 + I2)
  = vadd (spec_field P p1 p2 I1) (spec_field P p1 p2 I2).
Proof.
  unfold spec_field, spec_B0. cbv zeta.
  generalize (spec_e3 P p1 p2) as e. intros [[e1 e2] e3].
  cbn [vscale vadd]. unfold Rdiv. f_equal; [f_equal |]; ring.
Qed.

Lemma wire_point_scale (P p1 p2 : vec) (k current : R) :
  wire_point P p1 p2 (k * current)
  = fvscale (Fin k) (wire_point P p1 p2 current).
Proof.
  rewrite !wire_point_cases.
  destruct (Req_dec_T (spec_R P p1 p2) 0); [reflexivity |].
  rewrite spec_field_scale, fvscale_Fin. reflexivity.
Qed.

Lemma wire_point_plus (P p1 p2 : vec) (I1 I2 : R) :
  let a := wire_point P p1 p2 I1 in
  let b := wire_point P p1 p2 I2 in
  wire_point P p1 p2 (I1 + I2)
  = ((a.1.1 + b.1.1)%fl, (a.1.2 + b.1.2)%fl, (a.2 + b.2)%fl).
Proof.
  cbv zeta. rewrite !wire_point_cases.
  destruct (Req_dec_T (spec_R P p1 p2) 0); [reflexivity |].
  rewrite spec_field_plus.
  destruct (spec_field P p1 p2 I1) as [[a1 a2] a3].
  destruct (spec_field P p1 p2 I2) as [[b1 b2] b3]. reflexivity.
Qed.

Lemma zip_with_fmap_same {A B C D} (f : B -> C -> D) (g : A -> B) (h : A -> C)
    (l : list A) :
  zip_with f (g <$> l) (h <$> l) = (fun v => f (g v) (h v)) <$> l.
Proof.
  induction l as [| v l IH]; [reflexivity |].
  cbn [fmap list_fmap zip_with]. f_equal. exact IH.
Qed.

Lemma wire_Ok_guards x y z p1 p2 current plot_wire return_axes B :
  bfield_from_thin_straight_wire x y z p1 p2 current plot_wire return_axes
  = Ok (Some B) ->
  p1 <> p2 /\ shape x = shape y /\ shape y = shape z
  /\ plot_wire && return_axes = false.
Proof.
  unfold bfield_from_thin_straight_wire, np_stack.
  destruct (Rlt_dec 0 (norm (vsub p2 p1))) as [Hn |]; [| discriminate].
  destruct (decide _) as [[Hxy Hyz] |]; [| discriminate].
  cbn [mbind result_bind].
  destruct (plot_wire && return_axes); [discriminate |]. intros _.
  split; [apply norm_vsub_pos, Hn |]. repeat split; assumption.
Qed.

(** X2. The field of a straight wire is linear in the current: a call
    that returns arrays for the current [I] returns, for the current [k I],
    the same arrays with every entry multiplied by [k], and the arrays for
    [I1 + I2] are the entrywise sums of those for [I1] and for [I2].  A
    non-finite entry (grid point on the line of the wire) stays non-finite. *)
Theorem X2_wire_linear_in_current (x y z : ndarray R) (p1 p2 : vec)
    (plot_wire return_axes : bool) :
  (forall (k current : R) (B : field3),
      bfield_from_thin_straight_wire x y z p1 p2 current plot_wire return_axes
      = Ok (Some B) ->
      bfield_from_thin_straight_wire x y z p1 p2 (k * current)
        plot_wire return_axes
      = Ok (Some (field3_scale k B)))
  /\ (forall (I1 I2 : R) (B1 B2 : field3),
         bfield_from_thin_straight_wire x y z p1 p2 I1 plot_wire return_axes
         = Ok (Some B1) ->
         bfield_from_thin_straight_wire x y z p1 p2 I2 plot_wire return_axes
         = Ok (Some B2) ->
         bfield_from_thin_straight_wire x y z p1 p2 (I1 + I2)
           plot_wire return_axes
         = Ok (Some (field3_add B1 B2))).
Proof.
  split.
  - intros k current B H.
    destruct (wire_Ok_guards _ _ _ _ _ _ _ _ _ H) as (Hne & Hxy & Hyz & Hf).
    apply wire_Ok_inv in H. subst B.
    rewrite wire_returns, Hf by assumption. do 2 f_equal.
    unfold wire_field, field3_scale, split3, arr_map. cbn [fst snd shape flat].
    rewrite <- !list_fmap_compose.
    f_equal; [f_equal |]; f_equal; apply list_fmap_ext; intros i P _;
      cbn [compose]; rewrite wire_point_scale;
      destruct (wire_point P p1 p2 current) as [[a b] c]; reflexivity.
  - intros I1 I2 B1 B2 H1 H2.
    destruct (wire_Ok_guards _ _ _ _ _ _ _ _ _ H1) as (Hne & Hxy & Hyz & Hf).
    apply wire_Ok_inv in H1. apply wire_Ok_inv in H2. subst B1 B2.
    rewrite wire_returns, Hf by assumption. do 2 f_equal.
    unfold wire_field, field3_add, arr_add, arr_map2, split3, arr_map.
    cbn [fst snd shape flat]. rewrite <- !list_fmap_compose.
    rewrite !zip_with_fmap_same.
    f_equal; [f_equal |]; f_equal; apply list_fmap_ext; intros i P _;
      cbn [compose]; rewrite (wire_point_plus P p1 p2 I1 I2); reflexivity.
Qed.

(** *** Where the field is not finite *)

Lemma spec_R_zero_on_line (P p1 p2 : vec) :
  p1 <> p2 -> (spec_R P p1 p2 = 0 <-> on_line P p1 p2).
Proof.
  intros Hne. pose proof (proj2 (norm_vsub_pos p1 p2) Hne) as Hn.
  pose proof (spec_e1_unit p1 p2 Hne) as Hu.
  pose proof (endpoint_along p1 p2 Hne) as Hp.
  unfold spec_R, on_line. split.
  - intros H0. apply (proj1 (norm_zero_iff _)) in H0.
    apply (proj1 (vsub_zero_iff _ _)) in H0.
    exists (dot (vsub P p1) (spec_e1 p1 p2) / norm (vsub p2 p1)).
    rewrite H0 at 1. unfold spec_foot.
    generalize (dot (vsub P p1) (spec_e1 p1 p2)) as tm. intros tm.
    unfold spec_e1. revert Hn. generalize (norm (vsub p2 p1)) as n.
    intros n Hn0. destruct (vsub p2 p1) as [[l1 l2] l3].
    destruct p1 as [[a1 a2] a3]. cbn [vadd vscale vdiv].
    f_equal; [f_equal |]; field; lra.
  - intros [sc HP]. apply (proj2 (norm_zero_iff _)), (proj2 (vsub_zero_iff _ _)).
    unfold spec_foot. rewrite HP at 2.
    assert (HL : vsub p2 p1 = vscale (norm (vsub p2 p1)) (spec_e1 p1 p2)).
    { rewrite Hp at 1. generalize (vscale (norm (vsub p2 p1)) (spec_e1 p1 p2)).
      intros [[w1 w2] w3]. destruct p1 as [[a1 a2] a3].
      cbn [vadd vsub]. f_equal; [f_equal |]; ring. }
    rewrite HP, HL. revert Hu. generalize (spec_e1 p1 p2) as e.
    generalize (norm (vsub p2 p1)) as n. intros n [[e1 e2] e3] Hu.
    destruct p1 as [[a1 a2] a3]. cbn [vadd vscale vsub dot] in *.
    f_equal; [f_equal |]; apply Rminus_diag_uniq.
    + transitivity (sc * n * e1 * (1 - (e1 * e1 + e2 * e2 + e3 * e3)));
        [ring | rewrite Hu; ring].
    + transitivity (sc * n * e2 * (1 - (e1 * e1 + e2 * e2 + e3 * e3)));
        [ring | rewrite Hu; ring].
    + transitivity (sc * n * e3 * (1 - (e1 * e1 + e2 * e2 + e3 * e3)));
        [ring | rewrite Hu; ring].
Qed.


(** *** A segment seen from a point opposite its middle *)

Lemma norm_vscale_unit (l : R) (e : vec) :
  0 <= l -> dot e e = 1 -> norm (vscale l e) = l.
Proof.
  intros Hl He. unfold norm. destruct e as [[e1 e2] e3].
  cbn [vscale dot] in *.
  replace (l * e1 * (l * e1) + l * e2 * (l * e2) + l * e3 * (l * e3))
    with (l * l * (e1 * e1 + e2 * e2 + e3 * e3)) by ring.
  rewrite He, Rmult_1_r. apply sqrt_square, Hl.
Qed.

Lemma vdiv_vscale (l : R) (e : vec) : l <> 0 -> vdiv (vscale l e) l = e.
Proof.
  intros Hl. destruct e as [[e1 e2] e3]. cbn [vscale vdiv].
  f_equal; [f_equal |]; field; exact Hl.
Qed.

(** The local frame of the wire, when the point is given in an orthonormal
    frame [e], [f]: [t] along the wire from [p1], [r] away from it. *)
Lemma spec_frame (P p1 p2 e f : vec) (l t r : R) :
  0 < l -> 0 < r -> dot e e = 1 -> dot f f = 1 -> dot e f = 0 ->
  vsub p2 p1 = vscale l e ->
  vsub P p1 = vadd (vscale t e) (vscale r f) ->
  spec_e1 p1 p2 = e
  /\ spec_R P p1 p2 = r
  /\ spec_e2 P p1 p2 = f
  /\ spec_x1 P p1 p2 = - t
  /\ spec_x2 P p1 p2 = l - t.
Proof.
  intros Hl Hr He Hf Hef HL HP.
  assert (E1 : spec_e1 p1 p2 = e).
  { unfold spec_e1. rewrite HL, norm_vscale_unit by (lra || assumption).
    apply vdiv_vscale. lra. }
  assert (Et : dot (vsub P p1) e = t).
  { rewrite HP. destruct e as [[e1 e2] e3], f as [[f1 f2] f3].
    cbn [vscale vadd dot] in *.
    replace ((t * e1 + r * f1) * e1 + (t * e2 + r * f2) * e2
             + (t * e3 + r * f3) * e3)
      with (t * (e1 * e1 + e2 * e2 + e3 * e3)
            + r * (e1 * f1 + e2 * f2 + e3 * f3)) by ring.
    rewrite He, Hef. ring. }
  assert (Ef : vsub P (spec_foot P p1 p2) = vscale r f).
  { unfold spec_foot. rewrite E1, Et. revert HP.
    destruct P as [[x1 x2] x3], p1 as [[a1 a2] a3], e as [[e1 e2] e3],
      f as [[f1 f2] f3].
    cbn [vscale vadd vsub]. intros HP. injection HP as H1 H2 H3.
    f_equal; [f_equal |]; lra. }
  assert (ER : spec_R P p1 p2 = r).
  { unfold spec_R. rewrite Ef. apply norm_vscale_unit; [lra | exact Hf]. }
  split; [exact E1 |]. split; [exact ER |]. split.
  { unfold spec_e2. rewrite ER, Ef. apply vdiv_vscale. lra. }
  assert (E0 : vsub p1 (spec_foot P p1 p2) = vscale (- t) e).
  { unfold spec_foot. rewrite E1, Et.
    destruct p1 as [[a1 a2] a3], e as [[e1 e2] e3].
    cbn [vscale vadd vsub]. f_equal; [f_equal |]; ring. }
  assert (E2 : vsub p2 (spec_foot P p1 p2) = vscale (l - t) e).
  { unfold spec_foot. rewrite E1, Et. revert HL.
    destruct p1 as [[a1 a2] a3], p2 as [[b1 b2] b3], e as [[e1 e2] e3].
    cbn [vscale vadd vsub]. intros HL. injection HL as H1 H2 H3.
    f_equal; [f_equal |]; lra. }
  unfold spec_x1, spec_x2. rewrite E0, E2, E1.
  destruct e as [[e1 e2] e3]. cbn [vscale dot] in *. split.
  - replace (- t * e1 * e1 + - t * e2 * e2 + - t * e3 * e3)
      with (- t * (e1 * e1 + e2 * e2 + e3 * e3)) by ring.
    rewrite He. ring.
  - replace ((l - t) * e1 * e1 + (l - t) * e2 * e2 + (l - t) * e3 * e3)
      with ((l - t) * (e1 * e1 + e2 * e2 + e3 * e3)) by ring.
    rewrite He. ring.
Qed.

Lemma sqrt_half (l r x : R) :
  x ^ 2 = (l / 2) ^ 2 ->
  sqrt (x ^ 2 + r ^ 2) = sqrt (l ^ 2 + 4 * r ^ 2) / 2.
Proof.
  intros Hx. rewrite Hx.
  assert (Hq : 0 <= sqrt (l ^ 2 + 4 * r ^ 2)) by apply sqrt_pos.
  assert (Hs : sqrt (l ^ 2 + 4 * r ^ 2) * sqrt (l ^ 2 + 4 * r ^ 2)
               = l ^ 2 + 4 * r ^ 2) by (apply sqrt_sqrt; nra).
  replace ((l / 2) ^ 2 + r ^ 2)
    with (sqrt (l ^ 2 + 4 * r ^ 2) / 2 * (sqrt (l ^ 2 + 4 * r ^ 2) / 2)).
  - apply sqrt_square. lra.
  - transitivity ((sqrt (l ^ 2 + 4 * r ^ 2) * sqrt (l ^ 2 + 4 * r ^ 2)) / 4);
      [field | rewrite Hs; field].
Qed.

Lemma midpoint_field (P p1 p2 e f : vec) (l r current : R) :
  0 < l -> 0 < r -> dot e e = 1 -> dot f f = 1 -> dot e f = 0 ->
  vsub p2 p1 = vscale l e ->
  vsub P p1 = vadd (vscale (l / 2) e) (vscale r f) ->
  spec_R P p1 p2 = r
  /\ spec_field P p1 p2 current
     = vscale (u0 * current * l / (2 * PI * r * sqrt (l ^ 2 + 4 * r ^ 2)))
         (cross e f).
Proof.
  intros Hl Hr He Hf Hef HL HP.
  destruct (spec_frame P p1 p2 e f l (l / 2) r Hl Hr He Hf Hef HL HP)
    as (E1 & ER & E2 & Ex1 & Ex2).
  split; [exact ER |].
  unfold spec_field, spec_B0, spec_e3. cbv zeta.
  rewrite ER, E1, E2, Ex1, Ex2.
  rewrite (sqrt_half l r (l - l / 2)) by field.
  rewrite (sqrt_half l r (- (l / 2))) by field.
  assert (Hq : 0 < sqrt (l ^ 2 + 4 * r ^ 2)) by (apply sqrt_lt_R0; nra).
  pose proof PI_RGT_0 as Hpi.
  f_equal. field. repeat split; lra.
Qed.

(** X4. At perpendicular distance [r] from the middle of a wire of length
    [l] (any position and orientation: [e] along the wire, [f] towards the
    point) the sampler returns [B0 (e x f)] with
    [B0 = u0 I l / (2 pi r sqrt (l^2 + 4 r^2))].  For positive [u0 I] this
    lies below the value [u0 I / (2 pi r)] of the infinite wire, by at most
    the fraction [2 r^2 / l^2] of it, so it tends to that value as the wire
    grows. *)
Theorem X4_wire_field_opposite_midpoint (p1 e f : vec) (l r current : R) :
  0 < l -> 0 < r -> dot e e = 1 -> dot f f = 1 -> dot e f = 0 ->
  let p2 := vadd p1 (vscale l e) in
  let P := vadd p1 (vadd (vscale (l / 2) e) (vscale r f)) in
  let B0 := u0 * current * l / (2 * PI * r * sqrt (l ^ 2 + 4 * r ^ 2)) in
  let Binf := u0 * current / (2 * PI * r) in
  bfield_from_thin_straight_wire (single P.1.1) (single P.1.2) (single P.2)
    p1 p2 current false false
  = Ok (Some (single (Fin (B0 * (cross e f).1.1)),
              single (Fin (B0 * (cross e f).1.2)),
              single (Fin (B0 * (cross e f).2))))
  /\ (0 < u0 * current ->
      0 < B0 < Binf /\ Binf - B0 <= Binf * (2 * r ^ 2 / l ^ 2)).
Proof.
  intros Hl Hr He Hf Hef. cbv zeta.
  set (p2 := vadd p1 (vscale l e)).
  set (P := vadd p1 (vadd (vscale (l / 2) e) (vscale r f))).
  assert (HL : vsub p2 p1 = vscale l e).
  { unfold p2. destruct p1 as [[a1 a2] a3], (vscale l e) as [[w1 w2] w3].
    cbn [vadd vsub]. f_equal; [f_equal |]; ring. }
  assert (HP : vsub P p1 = vadd (vscale (l / 2) e) (vscale r f)).
  { unfold P. destruct p1 as [[a1 a2] a3].
    destruct (vadd (vscale (l / 2) e) (vscale r f)) as [[w1 w2] w3].
    cbn [vadd vsub]. f_equal; [f_equal |]; ring. }
  destruct (midpoint_field P p1 p2 e f l r current Hl Hr He Hf Hef HL HP)
    as [ER EF].
  assert (Hne : p1 <> p2).
  { intros E. rewrite <- E in HL.
    assert (H0 : norm (vsub p1 p1) = 0).
    { apply (proj2 (norm_zero_iff _)), (proj2 (vsub_zero_iff _ _)). reflexivity. }
    rewrite HL, norm_vscale_unit in H0 by (lra || assumption). lra. }
  split.
  - rewrite wire_returns by (exact Hne || reflexivity). cbn [andb].
    unfold wire_field, split3, arr_map, stacked, single.
    cbn [flat shape zip_with fmap list_fmap fst snd].
    replace (P.1.1, P.1.2, P.2) with P by (destruct P as [[? ?] ?]; reflexivity).
    rewrite wire_point_spec by (rewrite ER; exact Hr). rewrite EF.
    destruct (cross e f) as [[c1 c2] c3]. reflexivity.
  - intros HI.
    assert (Hq : 0 < sqrt (l ^ 2 + 4 * r ^ 2)) by (apply sqrt_lt_R0; nra).
    assert (Hs : sqrt (l ^ 2 + 4 * r ^ 2) * sqrt (l ^ 2 + 4 * r ^ 2)
                 = l ^ 2 + 4 * r ^ 2) by (apply sqrt_sqrt; nra).
    pose proof PI_RGT_0 as Hpi.
    set (q := sqrt (l ^ 2 + 4 * r ^ 2)) in *.
    assert (Hlq : l < q) by nra.
    assert (Hb : 0 < u0 * current / (2 * PI * r)).
    { apply Rdiv_lt_0_compat; [exact HI |].
      apply Rmult_lt_0_compat; [lra | exact Hr]. }
    replace (u0 * current * l / (2 * PI * r * q))
      with (u0 * current / (2 * PI * r) * (l / q)) by (field; lra).
    set (Binf := u0 * current / (2 * PI * r)) in *.
    assert (Hlq0 : 0 < l / q) by (apply Rdiv_lt_0_compat; lra).
    assert (Hlq1 : l / q < 1).
    { apply (Rmult_lt_reg_r q); [exact Hq |]. unfold Rdiv.
      rewrite Rmult_assoc, Rinv_l by lra. lra. }
    assert (Hgap : 1 - l / q <= 2 * r ^ 2 / l ^ 2).
    { assert (Hden : 0 < q * (q + l)) by nra.
      replace (1 - l / q) with (4 * r ^ 2 / (q * (q + l))).
      - assert (Hle : 2 * (l * l) <= q * (q + l)) by nra.
        replace (2 * r ^ 2 / l ^ 2) with (4 * r ^ 2 / (2 * (l * l)))
          by (field; lra).
        unfold Rdiv. apply Rmult_le_compat_l; [nra |].
        apply Rinv_le_contravar; nra.
      - apply Rminus_diag_uniq.
        transitivity ((4 * r ^ 2 + l ^ 2 - q * q) / (q * (q + l)));
          [field; lra | rewrite Hs; field; lra]. }
    split; [split; nra |]. nra.
Qed.

(** *** The rectangular coil seen from its centre *)

Lemma wire_field_single (P p1 p2 : vec) (current : R) :
  wire_field (single P.1.1) (single P.1.2) (single P.2) p1 p2 current
  = (single (wire_point P p1 p2 current).1.1,
     single (wire_point P p1 p2 current).1.2,
     single (wire_point P p1 p2 current).2).
Proof. destruct P as [[px py] pz]. reflexivity. Qed.

Lemma wire_point_midpoint (P p1 p2 e f : vec) (l r current : R) :
  0 < l -> 0 < r -> dot e e = 1 -> dot f f = 1 -> dot e f = 0 ->
  vsub p2 p1 = vscale l e ->
  vsub P p1 = vadd (vscale (l / 2) e) (vscale r f) ->
  wire_point P p1 p2 current
  = to_fvec (vscale (u0 * current * l
                     / (2 * PI * r * sqrt (l ^ 2 + 4 * r ^ 2)))
               (cross e f)).
Proof.
  intros Hl Hr He Hf Hef HL HP.
  destruct (midpoint_field P p1 p2 e f l r current Hl Hr He Hf Hef HL HP)
    as [ER EF].
  rewrite wire_point_spec by (rewrite ER; exact Hr). rewrite EF. reflexivity.
Qed.

(** X5. At the centre of a rectangular coil with positive sides [a] and
    [b] the sampled field is normal to the plane of the coil, with the
    closed form of the rectangular loop:
    [(0, - 2 u0 I sqrt (a^2 + b^2) / (pi a b), 0)]. *)
Theorem X5_rectangular_coil_centre_field (a b y0 current : R)
    (plot_wire : bool) :
  0 < a -> 0 < b ->
  bfield_from_thin_rectangular_coil (single 0) (single y0) (single 0)
    a b y0 current plot_wire
  = Ok (single (Fin 0),
        single (Fin (- (2 * u0 * current * sqrt (a ^ 2 + b ^ 2) / (PI * a * b)))),
        single (Fin 0)).
Proof.
  intros Ha Hb.
  rewrite coil_returns by (lra || reflexivity).
  rewrite !(wire_field_single (0, y0, 0)).
  rewrite (wire_point_midpoint (0, y0, 0) (- a / 2, y0, - b / 2)
             (a / 2, y0, - b / 2) (1, 0, 0) (0, 0, 1) a (b / 2));
    [| lra | lra | cbn [dot]; ring | cbn [dot]; ring | cbn [dot]; ring
     | cbn [vsub vscale]; f_equal; [f_equal |]; field
     | cbn [vsub vscale vadd]; f_equal; [f_equal |]; field].
  rewrite (wire_point_midpoint (0, y0, 0) (a / 2, y0, - b / 2)
             (a / 2, y0, b / 2) (0, 0, 1) (-1, 0, 0) b (a / 2));
    [| lra | lra | cbn [dot]; ring | cbn [dot]; ring | cbn [dot]; ring
     | cbn [vsub vscale]; f_equal; [f_equal |]; field
     | cbn [vsub vscale vadd]; f_equal; [f_equal |]; field].
  rewrite (wire_point_midpoint (0, y0, 0) (a / 2, y0, b / 2)
             (- a / 2, y0, b / 2) (-1, 0, 0) (0, 0, -1) a (b / 2));
    [| lra | lra | cbn [dot]; ring | cbn [dot]; ring | cbn [dot]; ring
     | cbn [vsub vscale]; f_equal; [f_equal |]; field
     | cbn [vsub vscale vadd]; f_equal; [f_equal |]; field].
  rewrite (wire_point_midpoint (0, y0, 0) (- a / 2, y0, b / 2)
             (- a / 2, y0, - b / 2) (0, 0, -1) (1, 0, 0) b (a / 2));
    [| lra | lra | cbn [dot]; ring | cbn [dot]; ring | cbn [dot]; ring
     | cbn [vsub vscale]; f_equal; [f_equal |]; field
     | cbn [vsub vscale vadd]; f_equal; [f_equal |]; field].
  replace (a ^ 2 + 4 * (b / 2) ^ 2) with (a ^ 2 + b ^ 2) by field.
  replace (b ^ 2 + 4 * (a / 2) ^ 2) with (a ^ 2 + b ^ 2) by field.
  assert (Hq : 0 < sqrt (a ^ 2 + b ^ 2)) by (apply sqrt_lt_R0; nra).
  assert (Hs : sqrt (a ^ 2 + b ^ 2) * sqrt (a ^ 2 + b ^ 2) = a ^ 2 + b ^ 2)
    by (apply sqrt_sqrt; nra).
  pose proof PI_RGT_0 as Hpi.
  set (q := sqrt (a ^ 2 + b ^ 2)) in *.
  unfold field3_add, arr_add, arr_map2, single.
  cbn [cross vscale to_fvec fst snd shape flat zip_with fadd lift2].
  do 2 f_equal; [f_equal |]; do 3 f_equal.
  - field. repeat split; lra.
  - apply Rminus_diag_uniq.
    transitivity (- 2 * u0 * current * (a ^ 2 + b ^ 2 - q * q) / (PI * a * b * q));
      [field; repeat split; lra | rewrite Hs; field; repeat split; lra].
  - field. repeat split; lra.
Qed.

(** *** The arc with fewer than two points *)

(** X6. With [npts = 0] or [npts = 1] the arc has no segment and its
    field is the zero field, one zero array per grid array in that array's
    own shape (no agreement of the three shapes is checked); a negative
    [npts] is rejected by [np.linspace] with a ValueError. *)
Theorem X6_arc_without_segments (X Y Z : ndarray R) (h R_ theta current : R)
    (plot_wire : bool) :
  bfield_from_thin_wire_arc X Y Z h R_ theta 0 current plot_wire
  = Ok (np_zeros (shape X), np_zeros (shape Y), np_zeros (shape Z))
  /\ bfield_from_thin_wire_arc X Y Z h R_ theta 1 current plot_wire
     = Ok (np_zeros (shape X), np_zeros (shape Y), np_zeros (shape Z))
  /\ (forall npts : int,
         (npts < 0)%Z ->
         exists msg : string,
           bfield_from_thin_wire_arc X Y Z h R_ theta npts current plot_wire
           = Raise (ValueError msg)).
Proof.
  split; [| split].
  - unfold bfield_from_thin_wire_arc, get_arc_vectors. cbv zeta.
    destruct (Rle_dec _ _) as [_ | Hn]; [| exfalso; apply Hn, arc_assert_holds].
    reflexivity.
  - unfold bfield_from_thin_wire_arc, get_arc_vectors. cbv zeta.
    destruct (Rle_dec _ _) as [_ | Hn]; [| exfalso; apply Hn, arc_assert_holds].
    reflexivity.
  - intros npts Hneg. unfold bfield_from_thin_wire_arc, get_arc_vectors.
    cbv zeta.
    destruct (Rle_dec _ _) as [_ | Hn]; [| exfalso; apply Hn, arc_assert_holds].
    unfold np_linspace. rewrite decide_True by exact Hneg.
    eexists. reflexivity.
Qed.

(** *** The saddle coil *)

Lemma arc_azimuth_first (theta : R) (npts : int) :
  spec_arc_azimuth theta npts 0 = (PI - theta) / 2.
Proof. unfold spec_arc_azimuth. cbn [INR]. ring. Qed.

Lemma arc_azimuth_last (theta : R) (npts : int) :
  (2 <= npts)%Z ->
  spec_arc_azimuth theta npts (Z.to_nat npts - 1) = (PI - theta) / 2 + theta.
Proof.
  intros H2. unfold spec_arc_azimuth. rewrite minus_INR by lia.
  rewrite INR_IZR_INZ, Z2Nat.id by lia. cbn [INR]. rewrite minus_IZR.
  assert (1 <= IZR npts - 1).
  { rewrite <- minus_IZR. apply IZR_le. lia. }
  field. lra.
Qed.

Lemma cos_PI_minus (x : R) : cos (PI - x) = - cos x.
Proof. rewrite cos_minus, cos_PI, sin_PI. ring. Qed.

Lemma sin_PI_minus (x : R) : sin (PI - x) = sin x.
Proof. rewrite sin_minus, cos_PI, sin_PI. ring. Qed.

Lemma arc_ends (h R_ theta : R) (npts : int) :
  (2 <= npts)%Z ->
  exists ps : list vec,
    get_arc_vectors h R_ theta npts default_arc_e3 = Ok ps
    /\ head ps
       = Some (R_ * cos ((PI - theta) / 2), R_ * sin ((PI - theta) / 2), h)
    /\ last ps
       = Some (- R_ * cos ((PI - theta) / 2), R_ * sin ((PI - theta) / 2), h).
Proof.
  intros H2.
  destruct (get_arc_vectors_returns h R_ theta npts H2) as (ps & Hps & Hlen & Hpt).
  exists ps. split; [exact Hps |]. split.
  - rewrite head_lookup, (Hpt 0%nat) by lia.
    unfold spec_arc_point. rewrite arc_azimuth_first. reflexivity.
  - rewrite last_lookup, Hlen.
    replace (pred (Z.to_nat npts)) with (Z.to_nat npts - 1)%nat by lia.
    rewrite Hpt by lia. unfold spec_arc_point.
    rewrite arc_azimuth_last by exact H2.
    replace ((PI - theta) / 2 + theta) with (PI - (PI - theta) / 2) by field.
    rewrite cos_PI_minus, sin_PI_minus. do 2 f_equal. f_equal. ring.
Qed.

(** X7. The saddle coil is a closed loop.  Its field is the sum of the
    two arc fields and of the fields of the two straight sections
    [p11 -> p21] and [p12 -> p22]; for [npts >= 2] the arc at [-L/2] runs
    from [p21] to [p12] and the arc at [+L/2] (opening angle [-theta]) runs
    from [p22] to [p11], so each piece starts where the previous one ends. *)
Theorem X7_saddle_coil_is_closed_loop (L R_ theta : R) (npts : int) :
  (2 <= npts)%Z ->
  (exists ps1 ps2 : list vec,
      get_arc_vectors (- L / 2) R_ theta npts default_arc_e3 = Ok ps1
      /\ get_arc_vectors (L / 2) R_ (- theta) npts default_arc_e3 = Ok ps2
      /\ head ps1 = Some (saddle_p21 L R_ theta)
      /\ last ps1 = Some (saddle_p12 L R_ theta)
      /\ head ps2 = Some (saddle_p22 L R_ theta)
      /\ last ps2 = Some (saddle_p11 L R_ theta))
  /\ (forall X Y Z current plot_wire,
         bfield_from_thin_saddle_coil X Y Z L R_ theta current npts plot_wire
         = (A1 ← bfield_from_thin_wire_arc X Y Z (- L / 2) R_ theta npts
                   current plot_wire;
            A2 ← bfield_from_thin_wire_arc X Y Z (L / 2) R_ (- theta) npts
                   current plot_wire;
            S1 ← unpack3 (bfield_from_thin_straight_wire X Y Z
                            (saddle_p11 L R_ theta) (saddle_p21 L R_ theta)
                            current plot_wire false);
            S2 ← unpack3 (bfield_from_thin_straight_wire X Y Z
                            (saddle_p12 L R_ theta) (saddle_p22 L R_ theta)
                            current plot_wire false);
            Ok (field3_add
                  (field3_add (zero_field X Y Z) (field3_add A1 A2))
                  (field3_add S1 S2)))).
Proof.
  intros H2. split; [| reflexivity].
  destruct (arc_ends (- L / 2) R_ theta npts H2) as (ps1 & Hps1 & Hh1 & Hl1).
  destruct (arc_ends (L / 2) R_ (- theta) npts H2) as (ps2 & Hps2 & Hh2 & Hl2).
  exists ps1, ps2. split; [exact Hps1 |]. split; [exact Hps2 |].
  unfold saddle_p11, saddle_p12, saddle_p21, saddle_p22. cbv zeta.
  split; [exact Hh1 |]. split; [exact Hl1 |].
  replace ((PI - - theta) / 2) with (PI - (PI - theta) / 2) in Hh2, Hl2
    by field.
  rewrite cos_PI_minus, sin_PI_minus in Hh2, Hl2. split.
  - rewrite Hh2. do 2 f_equal. f_equal. ring.
  - rewrite Hl2. do 2 f_equal. f_equal. ring.
Qed.

(** *** When the saddle corrector returns *)

Lemma np_zeros_has_shape (s : nat * nat * nat) : has_shape s (np_zeros s).
Proof.
  destruct s as [[n1 n2] n3]. unfold has_shape, np_zeros. cbn [shape flat fst snd].
  split; [reflexivity | apply repeat_length].
Qed.

Lemma zero_field_has_shape s X Y Z :
  has_shape s X -> has_shape s Y -> has_shape s Z ->
  field_has_shape s (zero_field X Y Z).
Proof.
  intros [HX _] [HY _] [HZ _]. unfold field_has_shape, zero_field.
  cbn [fst snd]. rewrite HX, HY, HZ. repeat split; apply np_zeros_has_shape.
Qed.

Lemma fold_field3_add_has_shape s (Bs : list field3) (B0 : field3) :
  field_has_shape s B0 -> Forall (field_has_shape s) Bs ->
  field_has_shape s (fold_left field3_add Bs B0).
Proof.
  intros H0 HBs. revert B0 H0.
  induction HBs as [| B Bs HB HBs IH]; intros B0 H0; [exact H0 |].
  cbn [fold_left]. apply IH, field3_add_has_shape; assumption.
Qed.

Lemma arc_returns s X Y Z h R_ theta npts current plot_wire :
  has_shape s X -> has_shape s Y -> has_shape s Z ->
  (2 <= npts)%Z -> R_ <> 0 -> 0 < Rabs theta < 2 * PI ->
  exists B : field3,
    bfield_from_thin_wire_arc X Y Z h R_ theta npts current plot_wire = Ok B
    /\ field_has_shape s B.
Proof.
  intros HX HY HZ H2 HR Hth.
  destruct (get_arc_vectors_returns h R_ theta npts H2) as (ps & Hps & Hlen & Hpt).
  pose proof (arc_segments_distinct h R_ theta npts ps H2 HR Hth Hlen Hpt) as Hd.
  unfold bfield_from_thin_wire_arc. rewrite Hps. cbn [mbind result_bind].
  fold (zero_field X Y Z).
  rewrite fold_accumulate_returns;
    [| destruct HX, HY; congruence | destruct HY, HZ; congruence | exact Hd].
  eexists. split; [reflexivity |].
  apply fold_field3_add_has_shape; [apply zero_field_has_shape; assumption |].
  apply Forall_fmap, Forall_forall. intros seg _. cbn [compose].
  apply wire_field_has_shape; assumption.
Qed.

Lemma saddle_coil_returns s X Y Z L R_ theta current npts plot_wire :
  has_shape s X -> has_shape s Y -> has_shape s Z ->
  (2 <= npts)%Z -> R_ <> 0 -> L <> 0 -> 0 < Rabs theta < 2 * PI ->
  exists B : field3,
    bfield_from_thin_saddle_coil X Y Z L R_ theta current npts plot_wire = Ok B
    /\ field_has_shape s B.
Proof.
  intros HX HY HZ H2 HR HL Hth.
  destruct (arc_returns s X Y Z (- L / 2) R_ theta npts current plot_wire
              HX HY HZ H2 HR Hth) as (A1 & HA1 & HS1).
  destruct (arc_returns s X Y Z (L / 2) R_ (- theta) npts current plot_wire
              HX HY HZ H2 HR) as (A2 & HA2 & HS2).
  { rewrite Rabs_Ropp. exact Hth. }
  unfold bfield_from_thin_saddle_coil. cbv zeta. rewrite HA1, HA2.
  cbn [mbind result_bind].
  assert (Hxy : shape X = shape Y) by (destruct HX, HY; congruence).
  assert (Hyz : shape Y = shape Z) by (destruct HY, HZ; congruence).
  rewrite !wire_returns; try assumption;
    try (intros E; inversion E; lra).
  rewrite andb_false_r. cbn [unpack3 mbind result_bind].
  eexists. split; [reflexivity |].
  repeat apply field3_add_has_shape;
    first [ apply (zero_field_has_shape s X Y Z); assumption
          | assumption
          | apply wire_field_has_shape; assumption ].
Qed.

Lemma arc_zero_radius_raises X Y Z h theta npts current plot_wire :
  (2 <= npts)%Z ->
  raises (bfield_from_thin_wire_arc X Y Z h 0 theta npts current plot_wire).
Proof.
  intros H2.
  destruct (get_arc_vectors_returns h 0 theta npts H2) as (ps & Hps & Hlen & Hpt).
  unfold bfield_from_thin_wire_arc. rewrite Hps. cbn [mbind result_bind].
  apply (fold_accumulate_degenerate _ _ _ _ _ _ (0, 0, h)).
  apply list_elem_of_In, list_elem_of_lookup. exists 0%nat.
  apply consecutive_lookup.
  - rewrite (Hpt 0%nat) by lia. unfold spec_arc_point.
    rewrite !Rmult_0_l. reflexivity.
  - rewrite (Hpt 1%nat) by lia. unfold spec_arc_point.
    rewrite !Rmult_0_l. reflexivity.
Qed.

Lemma bind_raises {A B} (m : result A) (f : A -> result B) :
  raises m -> raises (m ≫= f).
Proof. intros [e ->]. exists e. reflexivity. Qed.

(** X8. On a grid of one shape, with at least two points per arc, a
    radius and a length that are not zero and an opening angle with
    [0 < |theta| < 2 pi], the saddle coil and the saddle corrector return a
    field whose three arrays have the shape of the grid.  A zero radius, a
    zero opening angle or a zero length makes a segment degenerate, and the
    saddle coil raises instead of returning a field. *)
Theorem X8_saddle_corrector_returns s X Y Z L R_ theta current npts plot_wire :
  has_shape s X -> has_shape s Y -> has_shape s Z -> (2 <= npts)%Z ->
  (R_ <> 0 -> L <> 0 -> 0 < Rabs theta < 2 * PI ->
   (exists B : field3,
       bfield_from_thin_saddle_coil X Y Z L R_ theta current npts plot_wire
       = Ok B /\ field_has_shape s B)
   /\ (exists B : field3,
          bfield_from_thin_saddle_corrector X Y Z L R_ theta current npts
            plot_wire = Ok B /\ field_has_shape s B))
  /\ raises (bfield_from_thin_saddle_coil X Y Z L 0 theta current npts plot_wire)
  /\ raises (bfield_from_thin_saddle_coil X Y Z L R_ 0 current npts plot_wire)
  /\ raises (bfield_from_thin_saddle_coil X Y Z 0 R_ theta current npts plot_wire).
Proof.
  intros HX HY HZ H2. split; [| split; [| split]].
  - intros HR HL Hth.
    destruct (saddle_coil_returns s X Y Z L R_ theta current npts plot_wire
                HX HY HZ H2 HR HL Hth) as (B1 & HB1 & HS1).
    split; [exists B1; split; assumption |].
    destruct (saddle_coil_returns s X Y Z (- L) (- R_) theta current npts
                plot_wire HX HY HZ H2) as (B2 & HB2 & HS2);
      [lra | lra | exact Hth |].
    unfold bfield_from_thin_saddle_corrector. rewrite HB1, HB2.
    eexists. split; [reflexivity |]. apply field3_add_has_shape; assumption.
  - unfold bfield_from_thin_saddle_coil. cbv zeta.
    apply bind_raises, arc_zero_radius_raises, H2.
  - unfold bfield_from_thin_saddle_coil. cbv zeta.
    apply bind_raises, arc_zero_angle_raises, H2.
  - unfold bfield_from_thin_saddle_coil. cbv zeta.
    destruct (bfield_from_thin_wire_arc X Y Z (- 0 / 2) R_ theta npts current
                plot_wire) as [A1 | e1]; [| eexists; reflexivity].
    destruct (bfield_from_thin_wire_arc X Y Z (0 / 2) R_ (- theta) npts current
                plot_wire) as [A2 | e2]; [| eexists; reflexivity].
    cbn [mbind result_bind].
    replace (- 0 / 2) with (0 / 2) by field.
    rewrite (wire_degenerate X Y Z
               (R_ * cos ((PI - theta) / 2), R_ * sin ((PI - theta) / 2), 0 / 2)).
    eexists. reflexivity.
Qed.

(** *** rotate_around_e3 *)

(** X9. [rotate_around_e3 theta] turns the x and y components of a vector
    by [theta] and sets its z component to zero (the third row of the
    matrix is zero, not (0, 0, 1)): it keeps the length of vectors in the
    plane z = 0, two of them compose to the matrix of the sum of the angles,
    and at [theta = 0] it is the projection onto that plane, not the
    identity. *)
Theorem X9_rotate_around_e3_action :
  (forall theta x y z : R,
      matmul (rotate_around_e3 theta) (x, y, z)
      = (x * cos theta - y * sin theta, x * sin theta + y * cos theta, 0))
  /\ (forall a b : R, forall v : vec,
         matmul (rotate_around_e3 a) (matmul (rotate_around_e3 b) v)
         = matmul (rotate_around_e3 (a + b)) v)
  /\ (forall theta x y : R,
         norm (matmul (rotate_around_e3 theta) (x, y, 0)) = norm (x, y, 0))
  /\ (forall x y z : R, matmul (rotate_around_e3 0) (x, y, z) = (x, y, 0)).
Proof.
  assert (H1 : forall theta x y z : R,
             matmul (rotate_around_e3 theta) (x, y, z)
             = (x * cos theta - y * sin theta, x * sin theta + y * cos theta, 0)).
  { intros. unfold rotate_around_e3, matmul. cbn [dot].
    f_equal; [f_equal |]; ring. }
  split; [exact H1 |]. split; [| split].
  - intros a b [[x y] z]. rewrite !H1, cos_plus, sin_plus.
    f_equal. f_equal; ring.
  - intros theta x y. rewrite H1. unfold norm. f_equal. cbn [dot].
    pose proof (sin2_cos2 theta) as Hsc. unfold Rsqr in Hsc.
    apply Rminus_diag_uniq.
    transitivity ((x * x + y * y)
                  * (sin theta * sin theta + cos theta * cos theta - 1));
      [ring | rewrite Hsc; ring].
  - intros x y z. rewrite H1, cos_0, sin_0. f_equal. f_equal; ring.
Qed.

(** *** The closing block of the builders on linspace axes *)

Lemma INR_to_nat_pred (n : int) : (1 <= n)%Z -> INR (Z.to_nat n) - 1 = IZR n - 1.
Proof. intros H. rewrite INR_IZR_INZ, Z2Nat.id by lia. reflexivity. Qed.

Lemma assemble_on_linspace x0 x1 nx y0 y1 ny z0 z1 nz xs ys zs B fm :
  np_linspace x0 x1 nx = Ok xs -> np_linspace y0 y1 ny = Ok ys ->
  np_linspace z0 z1 nz = Ok zs ->
  assemble_fieldmesh xs ys zs B = Ok fm ->
  (2 <= nx)%Z /\ (2 <= ny)%Z /\ (2 <= nz)%Z
  /\ length xs = Z.to_nat nx /\ length ys = Z.to_nat ny
  /\ length zs = Z.to_nat nz
  /\ attrs fm
     = mesh_attrs (x0, y0, z0)
         ((x1 - x0) / (IZR nx - 1), (y1 - y0) / (IZR ny - 1),
          (z1 - z0) / (IZR nz - 1))
         (shape B.1.1)
  /\ components fm = mesh_components B.
Proof.
  intros Hxs Hys Hzs H.
  apply assemble_fieldmesh_Ok in H
    as (dx & dy & dz & x0' & y0' & z0' & Hdx & Hdy & Hdz & Hx0 & Hy0 & Hz0
        & Ha & Hc).
  destruct (linspace_spacing _ _ _ _ _ _ Hxs Hdx Hx0) as (Hnx & -> & -> & Lx).
  destruct (linspace_spacing _ _ _ _ _ _ Hys Hdy Hy0) as (Hny & -> & -> & Ly).
  destruct (linspace_spacing _ _ _ _ _ _ Hzs Hdz Hz0) as (Hnz & -> & -> & Lz).
  do 7 (split; [assumption |]). exact Hc.
Qed.

Lemma fold_accumulate_Ok_shape s X Y Z current plot_wire segs B0 B :
  has_shape s X -> has_shape s Y -> has_shape s Z ->
  field_has_shape s B0 ->
  fold_left (accumulate_wire X Y Z current plot_wire) segs (Ok B0) = Ok B ->
  field_has_shape s B.
Proof.
  intros HX HY HZ. revert B0.
  induction segs as [| seg segs IH]; intros B0 H0 H.
  - cbn [fold_left] in H. inversion H. subst. exact H0.
  - cbn [fold_left] in H.
    destruct (accumulate_wire X Y Z current plot_wire (Ok B0) seg)
      as [B' | e] eqn:E.
    + apply (IH B'); [| exact H].
      unfold accumulate_wire in E. cbn [mbind result_bind] in E.
      inv_bind E. inversion E. subst B'.
      apply unpack3_Ok, wire_Ok_inv in Hr. subst r.
      apply field3_add_has_shape; [exact H0 |].
      apply wire_field_has_shape; assumption.
    + rewrite fold_accumulate_Raise in H. discriminate.
Qed.

Lemma arc_Ok_shape s X Y Z h R_ theta npts current plot_wire B :
  has_shape s X -> has_shape s Y -> has_shape s Z ->
  bfield_from_thin_wire_arc X Y Z h R_ theta npts current plot_wire = Ok B ->
  field_has_shape s B.
Proof.
  intros HX HY HZ H. unfold bfield_from_thin_wire_arc in H. inv_bind H.
  eapply fold_accumulate_Ok_shape; [exact HX | exact HY | exact HZ | | exact H].
  apply (zero_field_has_shape s X Y Z); assumption.
Qed.

Lemma saddle_coil_Ok_shape s X Y Z L R_ theta current npts plot_wire B :
  has_shape s X -> has_shape s Y -> has_shape s Z ->
  bfield_from_thin_saddle_coil X Y Z L R_ theta current npts plot_wire = Ok B ->
  field_has_shape s B.
Proof.
  intros HX HY HZ H. unfold bfield_from_thin_saddle_coil in H. cbv zeta in H.
  inv_bind H. rename r into A1. rename Hr into HA1.
  inv_bind H. rename r into A2. rename Hr into HA2.
  inv_bind H. rename r into S1. rename Hr into HS1.
  inv_bind H. rename r into S2. rename Hr into HS2.
  injection H as <-.
  apply unpack3_Ok, wire_Ok_inv in HS1. apply unpack3_Ok, wire_Ok_inv in HS2.
  subst S1 S2.
  apply (arc_Ok_shape s) in HA1; [| assumption ..].
  apply (arc_Ok_shape s) in HA2; [| assumption ..].
  apply field3_add_has_shape;
    [| apply field3_add_has_shape; apply wire_field_has_shape; assumption].
  change (field_has_shape s
            (field3_add (zero_field X Y Z) (field3_add A1 A2))).
  apply field3_add_has_shape;
    [apply zero_field_has_shape; assumption
    | apply field3_add_has_shape; assumption].
Qed.

Lemma saddle_corrector_Ok_shape s X Y Z L R_ theta current npts plot_wire B :
  has_shape s X -> has_shape s Y -> has_shape s Z ->
  bfield_from_thin_saddle_corrector X Y Z L R_ theta current npts plot_wire
  = Ok B ->
  field_has_shape s B.
Proof.
  intros HX HY HZ H. unfold bfield_from_thin_saddle_corrector in H.
  do 2 inv_bind H. inversion H. subst B.
  apply field3_add_has_shape;
    (eapply saddle_coil_Ok_shape; [exact HX | exact HY | exact HZ | eassumption]).
Qed.

(** *** The straight-wire builder *)

(** Inversion of one successful bind in [H], naming the value and its
    equation. *)
Tactic Notation "inv_bind_as" hyp(H) ident(a) ident(Ha) :=
  apply bind_Ok in H; destruct H as (a & Ha & H).

Lemma assert_not_None_Ok {A} (o : option A) (msg : string) (v : A) :
  assert_not_None o msg = Ok v -> o = Some v.
Proof. destruct o; simpl; intros H; inversion H; reflexivity. Qed.

Lemma meshgrid_shapes (xs ys zs : list R) X Y Z :
  np_meshgrid xs ys zs = (X, Y, Z) ->
  has_shape (length xs, length ys, length zs) X
  /\ has_shape (length xs, length ys, length zs) Y
  /\ has_shape (length xs, length ys, length zs) Z.
Proof.
  intros E. pose proof (meshgrid_has_shape xs ys zs) as H. cbv zeta in H.
  rewrite E in H. exact H.
Qed.

(** X10. The straight-wire builder checks its six bounds first, in the
    order xmin, ymin, zmin, xmax, ymax, zmax, and fails with the assertion
    error naming the first one that is missing.  A successful call has two
    distinct end points and at least two points per axis, and returns a mesh
    whose attrs are those of the rectangular builder (origin, spacing
    [(max - min)/(count - 1)], size, 'rectangular', ...) and whose three
    magnetic components are the straight-wire field on the grid, each of
    shape [(nx, ny, nz)].  With distinct end points, at least two points per
    axis and the three component names registered, the call does return. *)
Theorem X10_straight_wire_builder (p1 p2 : vec) (current : R)
    (nx ny nz : int) (plot_wire : bool) :
  (forall xmax ymin ymax zmin zmax,
      make_thin_straight_wire_fieldmesh p1 p2 current None xmax nx
        ymin ymax ny zmin zmax nz plot_wire
      = Raise (AssertionError "No xmin specified"))
  /\ (forall xmin xmax ymin ymax zmax,
         make_thin_straight_wire_fieldmesh p1 p2 current (Some xmin) xmax nx
           (Some ymin) ymax ny None zmax nz plot_wire
         = Raise (AssertionError "No zmin specified"))
  /\ (forall xmin xmax ymin ymax zmin zmax fm,
         make_thin_straight_wire_fieldmesh p1 p2 current xmin xmax nx
           ymin ymax ny zmin zmax nz plot_wire = Ok fm ->
         exists x0 x1 y0 y1 z0 z1 xs ys zs,
           xmin = Some x0 /\ xmax = Some x1 /\ ymin = Some y0
           /\ ymax = Some y1 /\ zmin = Some z0 /\ zmax = Some z1
           /\ p1 <> p2 /\ (2 <= nx)%Z /\ (2 <= ny)%Z /\ (2 <= nz)%Z
           /\ np_linspace x0 x1 nx = Ok xs /\ np_linspace y0 y1 ny = Ok ys
           /\ np_linspace z0 z1 nz = Ok zs
           /\ attrs fm
              = mesh_attrs (x0, y0, z0)
                  ((x1 - x0) / (IZR nx - 1), (y1 - y0) / (IZR ny - 1),
                   (z1 - z0) / (IZR nz - 1))
                  (Z.to_nat nx, Z.to_nat ny, Z.to_nat nz)
           /\ components fm
              = mesh_components
                  (wire_field (np_meshgrid xs ys zs).1.1
                     (np_meshgrid xs ys zs).1.2 (np_meshgrid xs ys zs).2
                     p1 p2 current)
           /\ field_has_shape (Z.to_nat nx, Z.to_nat ny, Z.to_nat nz)
                (wire_field (np_meshgrid xs ys zs).1.1
                   (np_meshgrid xs ys zs).1.2 (np_meshgrid xs ys zs).2
                   p1 p2 current))
  /\ (forall x0 x1 y0 y1 z0 z1,
         p1 <> p2 -> (2 <= nx)%Z -> (2 <= ny)%Z -> (2 <= nz)%Z ->
         is_Some (component_alias !! "magneticField/x") ->
         is_Some (component_alias !! "magneticField/y") ->
         is_Some (component_alias !! "magneticField/z") ->
         returns (make_thin_straight_wire_fieldmesh p1 p2 current
                    (Some x0) (Some x1) nx (Some y0) (Some y1) ny
                    (Some z0) (Some z1) nz plot_wire)).
Proof.
  split; [reflexivity |]. split; [reflexivity |]. split.
  - intros xmin xmax ymin ymax zmin zmax fm H.
    unfold make_thin_straight_wire_fieldmesh in H.
    inv_bind_as H x0 E1. apply assert_not_None_Ok in E1.
    inv_bind_as H y0 E2. apply assert_not_None_Ok in E2.
    inv_bind_as H z0 E3. apply assert_not_None_Ok in E3.
    inv_bind_as H x1 E4. apply assert_not_None_Ok in E4.
    inv_bind_as H y1 E5. apply assert_not_None_Ok in E5.
    inv_bind_as H z1 E6. apply assert_not_None_Ok in E6.
    inv_bind_as H xs Hxs. inv_bind_as H ys Hys. inv_bind_as H zs Hzs.
    destruct (np_meshgrid xs ys zs) as [[X Y] Z] eqn:EM.
    destruct (meshgrid_shapes _ _ _ _ _ _ EM) as (HX & HY & HZ).
    inv_bind_as H B HB.
    apply unpack3_Ok in HB.
    destruct (wire_Ok_guards _ _ _ _ _ _ _ _ _ HB) as (Hne & _).
    apply wire_Ok_inv in HB. subst B.
    destruct (assemble_on_linspace _ _ _ _ _ _ _ _ _ _ _ _ _ _ Hxs Hys Hzs H)
      as (Hnx & Hny & Hnz & Lx & Ly & Lz & Ha & Hc).
    rewrite Lx, Ly, Lz in HX, HY, HZ.
    pose proof (wire_field_has_shape _ X Y Z p1 p2 current HX HY HZ) as HS.
    exists x0, x1, y0, y1, z0, z1, xs, ys, zs. rewrite EM. cbn [fst snd].
    do 13 (split; [assumption |]). split; [| split; assumption].
    rewrite Ha. destruct HS as ([-> _] & _). reflexivity.
  - intros x0 x1 y0 y1 z0 z1 Hne Hnx Hny Hnz Rx Ry Rz.
    unfold make_thin_straight_wire_fieldmesh.
    cbn [assert_not_None mbind result_bind].
    destruct (linspace_two x0 x1 nx Hnx) as (xs & -> & Hdx & Hix).
    destruct (linspace_two y0 y1 ny Hny) as (ys & -> & Hdy & Hiy).
    destruct (linspace_two z0 z1 nz Hnz) as (zs & -> & Hdz & Hiz).
    cbn [mbind result_bind].
    destruct (np_meshgrid xs ys zs) as [[X Y] Z] eqn:EM.
    destruct (meshgrid_shapes _ _ _ _ _ _ EM) as ([HX _] & [HY _] & [HZ _]).
    rewrite wire_returns by congruence. rewrite andb_false_r.
    cbn [unpack3 mbind result_bind].
    apply assemble_fieldmesh_returns; assumption.
Qed.

(** *** The saddle builder *)

Lemma need_Ok {A} (msg : string) (o : option A) (v : A) :
  need msg o = Ok v -> o = Some v.
Proof. destruct o; simpl; intros H; inversion H; reflexivity. Qed.

Lemma make_saddle_Ok R_ L theta current xmin xmax nx ymin ymax ny
    zmin zmax nz npts plot_wire fm :
  make_saddle_dipole_corrector_fieldmesh R_ L theta current
    xmin xmax nx ymin ymax ny zmin zmax nz npts plot_wire = Ok fm ->
  exists x0 x1 y0 y1 z0 z1 xs ys zs Rv Lv thv n B,
    xmin = Some x0 /\ xmax = Some x1 /\ ymin = Some y0 /\ ymax = Some y1
    /\ zmin = Some z0 /\ zmax = Some z1
    /\ R_ = Some Rv /\ L = Some Lv /\ theta = Some thv /\ npts = Some n
    /\ (2 <= nx)%Z /\ (2 <= ny)%Z /\ (2 <= nz)%Z
    /\ np_linspace x0 x1 nx = Ok xs /\ np_linspace y0 y1 ny = Ok ys
    /\ np_linspace z0 z1 nz = Ok zs
    /\ bfield_from_thin_saddle_corrector (np_meshgrid xs ys zs).1.1
         (np_meshgrid xs ys zs).1.2 (np_meshgrid xs ys zs).2
         Lv Rv thv current n plot_wire = Ok B
    /\ field_has_shape (Z.to_nat nx, Z.to_nat ny, Z.to_nat nz) B
    /\ attrs fm
       = mesh_attrs (x0, y0, z0)
           ((x1 - x0) / (IZR nx - 1), (y1 - y0) / (IZR ny - 1),
            (z1 - z0) / (IZR nz - 1))
           (Z.to_nat nx, Z.to_nat ny, Z.to_nat nz)
    /\ components fm = mesh_components B.
Proof.
  unfold make_saddle_dipole_corrector_fieldmesh. intros H.
  inv_bind_as H xs Hxs. inv_bind_as H ys Hys. inv_bind_as H zs Hzs.
  destruct (np_meshgrid xs ys zs) as [[X Y] Z] eqn:EM.
  destruct (meshgrid_shapes _ _ _ _ _ _ EM) as (HX & HY & HZ).
  inv_bind_as H Lv EL. apply need_Ok in EL.
  inv_bind_as H Rv ER. apply need_Ok in ER.
  inv_bind_as H thv Eth. apply need_Ok in Eth.
  inv_bind_as H n En. apply need_Ok in En.
  inv_bind_as H B HB.
  apply linspace_opt_Ok in Hxs as (x0 & x1 & -> & -> & Hxs).
  apply linspace_opt_Ok in Hys as (y0 & y1 & -> & -> & Hys).
  apply linspace_opt_Ok in Hzs as (z0 & z1 & -> & -> & Hzs).
  destruct (assemble_on_linspace _ _ _ _ _ _ _ _ _ _ _ _ _ _ Hxs Hys Hzs H)
    as (Hnx & Hny & Hnz & Lx & Ly & Lz & Ha & Hc).
  rewrite Lx, Ly, Lz in HX, HY, HZ.
  pose proof (saddle_corrector_Ok_shape _ _ _ _ _ _ _ _ _ _ _ HX HY HZ HB) as HS.
  exists x0, x1, y0, y1, z0, z1, xs, ys, zs, Rv, Lv, thv, n, B.
  rewrite EM. cbn [fst snd].
  do 18 (split; [first [reflexivity | assumption] |]).
  split; [| exact Hc]. rewrite Ha. destruct HS as ([-> _] & _). reflexivity.
Qed.

(** X11. A successful call of the saddle builder was given all six
    bounds, [R], [L], [theta] and [npts], and at least two points per axis;
    it returns a mesh with the attrs of the other builders (origin, spacing
    [(max - min)/(count - 1)], size [(nx, ny, nz)], 'rectangular', ...)
    whose three magnetic components are the saddle-corrector field on the
    grid, each of shape [(nx, ny, nz)].  With a radius and a length that
    are not zero, [0 < |theta| < 2 pi], [npts >= 2], at least two points per
    axis and the three component names registered, the call does return. *)
Theorem X11_saddle_builder (current : R) (nx ny nz : int) (plot_wire : bool) :
  (forall R_ L theta xmin xmax ymin ymax zmin zmax npts fm,
      make_saddle_dipole_corrector_fieldmesh R_ L theta current
        xmin xmax nx ymin ymax ny zmin zmax nz npts plot_wire = Ok fm ->
      exists x0 x1 y0 y1 z0 z1 xs ys zs Rv Lv thv n B,
        xmin = Some x0 /\ xmax = Some x1 /\ ymin = Some y0 /\ ymax = Some y1
        /\ zmin = Some z0 /\ zmax = Some z1
        /\ R_ = Some Rv /\ L = Some Lv /\ theta = Some thv /\ npts = Some n
        /\ (2 <= nx)%Z /\ (2 <= ny)%Z /\ (2 <= nz)%Z
        /\ np_linspace x0 x1 nx = Ok xs /\ np_linspace y0 y1 ny = Ok ys
        /\ np_linspace z0 z1 nz = Ok zs
        /\ bfield_from_thin_saddle_corrector (np_meshgrid xs ys zs).1.1
             (np_meshgrid xs ys zs).1.2 (np_meshgrid xs ys zs).2
             Lv Rv thv current n plot_wire = Ok B
        /\ field_has_shape (Z.to_nat nx, Z.to_nat ny, Z.to_nat nz) B
        /\ attrs fm
           = mesh_attrs (x0, y0, z0)
               ((x1 - x0) / (IZR nx - 1), (y1 - y0) / (IZR ny - 1),
                (z1 - z0) / (IZR nz - 1))
               (Z.to_nat nx, Z.to_nat ny, Z.to_nat nz)
        /\ components fm = mesh_components B)
  /\ (forall Rv Lv thv x0 x1 y0 y1 z0 z1 n,
         Rv <> 0 -> Lv <> 0 -> 0 < Rabs thv < 2 * PI -> (2 <= n)%Z ->
         (2 <= nx)%Z -> (2 <= ny)%Z -> (2 <= nz)%Z ->
         is_Some (component_alias !! "magneticField/x") ->
         is_Some (component_alias !! "magneticField/y") ->
         is_Some (component_alias !! "magneticField/z") ->
         returns (make_saddle_dipole_corrector_fieldmesh
                    (Some Rv) (Some Lv) (Some thv) current
                    (Some x0) (Some x1) nx (Some y0) (Some y1) ny
                    (Some z0) (Some z1) nz (Some n) plot_wire)).
Proof.
  split.
  - intros. eapply make_saddle_Ok. eassumption.
  - intros Rv Lv thv x0 x1 y0 y1 z0 z1 n HR HL Hth Hn Hnx Hny Hnz Rx Ry Rz.
    unfold make_saddle_dipole_corrector_fieldmesh.
    rewrite !linspace_opt_Some by lia.
    destruct (linspace_two x0 x1 nx Hnx) as (xs & -> & Hdx & Hix).
    destruct (linspace_two y0 y1 ny Hny) as (ys & -> & Hdy & Hiy).
    destruct (linspace_two z0 z1 nz Hnz) as (zs & -> & Hdz & Hiz).
    cbn [mbind result_bind need].
    destruct (np_meshgrid xs ys zs) as [[X Y] Z] eqn:EM.
    destruct (meshgrid_shapes _ _ _ _ _ _ EM) as (HX & HY & HZ).
    destruct (saddle_coil_returns _ X Y Z Lv Rv thv current n plot_wire
                HX HY HZ Hn HR HL Hth) as (B1 & HB1 & _).
    destruct (saddle_coil_returns _ X Y Z (- Lv) (- Rv) thv current n plot_wire
                HX HY HZ Hn) as (B2 & HB2 & _); [lra | lra | exact Hth |].
    unfold bfield_from_thin_saddle_corrector. rewrite HB1, HB2.
    cbn [mbind result_bind]. apply assemble_fieldmesh_returns; assumption.
Qed.

(** *** The grid read back from a built mesh *)

Lemma mesh_attrs_recovers_grid fm x0 x1 y0 y1 z0 z1 (nx ny nz : int) :
  (2 <= nx)%Z -> (2 <= ny)%Z -> (2 <= nz)%Z ->
  attrs fm
  = mesh_attrs (x0, y0, z0)
      ((x1 - x0) / (IZR nx - 1), (y1 - y0) / (IZR ny - 1),
       (z1 - z0) / (IZR nz - 1))
      (Z.to_nat nx, Z.to_nat ny, Z.to_nat nz) ->
  recovers_grid fm (x0, y0, z0) (x1, y1, z1) nx ny nz.
Proof.
  intros Hnx Hny Hnz Ha.
  assert (Ho : attrs fm !! "gridOriginOffset" = Some (AFloat3 (x0, y0, z0)))
    by (rewrite Ha; reflexivity).
  assert (Hsp : attrs fm !! "gridSpacing"
                = Some (AFloat3 ((x1 - x0) / (IZR nx - 1),
                                 (y1 - y0) / (IZR ny - 1),
                                 (z1 - z0) / (IZR nz - 1))))
    by (rewrite Ha; reflexivity).
  assert (Hsz : attrs fm !! "gridSize"
                = Some (AShape (Z.to_nat nx, Z.to_nat ny, Z.to_nat nz)))
    by (rewrite Ha; reflexivity).
  assert (Hmin : FieldMesh_min fm = Ok (x0, y0, z0)).
  { unfold FieldMesh_min, dict_get. rewrite Ho. reflexivity. }
  assert (Hshape : FieldMesh_shape fm
                   = Ok (Z.to_nat nx, Z.to_nat ny, Z.to_nat nz)).
  { unfold FieldMesh_shape, dict_get. rewrite Hsz. reflexivity. }
  assert (Hmax : FieldMesh_max fm = Ok (x1, y1, z1)).
  { unfold FieldMesh_max, FieldMesh_delta. rewrite Hmin. unfold dict_get.
    rewrite Hsp, Hsz. cbn [mbind result_bind fst snd].
    rewrite !INR_to_nat_pred by lia.
    assert (1 <= IZR nx - 1) by (rewrite <- minus_IZR; apply IZR_le; lia).
    assert (1 <= IZR ny - 1) by (rewrite <- minus_IZR; apply IZR_le; lia).
    assert (1 <= IZR nz - 1) by (rewrite <- minus_IZR; apply IZR_le; lia).
    do 2 f_equal; [f_equal |]; field; lra. }
  unfold recovers_grid. cbn [fst snd].
  split; [exact Hmin |]. split; [exact Hmax |]. split; [exact Hshape |].
  destruct (linspace_two x0 x1 nx Hnx) as (xs & Hxs & _).
  destruct (linspace_two y0 y1 ny Hny) as (ys & Hys & _).
  destruct (linspace_two z0 z1 nz Hnz) as (zs & Hzs & _).
  exists xs, ys, zs. do 3 (split; [assumption |]).
  assert (Hcv : coord_vecs fm = Ok (xs, ys, zs)).
  { unfold coord_vecs. rewrite Hmin, Hmax, Hshape.
    cbn [mbind result_bind fst snd]. rewrite !Z2Nat.id by lia.
    rewrite Hxs, Hys, Hzs. reflexivity. }
  split; [exact Hcv |]. unfold FieldMesh_meshgrid. rewrite Hcv. reflexivity.
Qed.

(** X12. A mesh returned by any of the three builders gives back the grid
    the field was sampled on: [min] is the lower bounds, [max] the upper
    bounds, [shape] is [(nx, ny, nz)], [coord_vecs] are the three
    [np.linspace] axes and [meshgrid] is the [np.meshgrid] of them. *)
Theorem X12_built_mesh_recovers_grid (current : R) (nx ny nz : int)
    (xmin xmax ymin ymax zmin zmax : R) (plot_wire : bool) :
  (forall a b h fm,
      make_rectangular_dipole_corrector_fieldmesh a b h current
        (Some xmin) (Some xmax) nx (Some ymin) (Some ymax) ny
        (Some zmin) (Some zmax) nz plot_wire = Ok fm ->
      recovers_grid fm (xmin, ymin, zmin) (xmax, ymax, zmax) nx ny nz)
  /\ (forall R_ L theta npts fm,
         make_saddle_dipole_corrector_fieldmesh R_ L theta current
           (Some xmin) (Some xmax) nx (Some ymin) (Some ymax) ny
           (Some zmin) (Some zmax) nz npts plot_wire = Ok fm ->
         recovers_grid fm (xmin, ymin, zmin) (xmax, ymax, zmax) nx ny nz)
  /\ (forall p1 p2 fm,
         make_thin_straight_wire_fieldmesh p1 p2 current
           (Some xmin) (Some xmax) nx (Some ymin) (Some ymax) ny
           (Some zmin) (Some zmax) nz plot_wire = Ok fm ->
         recovers_grid fm (xmin, ymin, zmin) (xmax, ymax, zmax) nx ny nz).
Proof.
  split; [| split].
  - intros a b h fm H. apply make_rectangular_Ok in H
      as (x0 & x1 & y0 & y1 & z0 & z1 & B & E1 & E2 & E3 & E4 & E5 & E6
          & Hnx & Hny & Hnz & _ & Ha & _).
    injection E1 as <-. injection E2 as <-. injection E3 as <-.
    injection E4 as <-. injection E5 as <-. injection E6 as <-.
    apply mesh_attrs_recovers_grid; assumption.
  - intros R_ L theta npts fm H. apply make_saddle_Ok in H
      as (x0 & x1 & y0 & y1 & z0 & z1 & xs & ys & zs & Rv & Lv & thv & n & B
          & E1 & E2 & E3 & E4 & E5 & E6 & _ & _ & _ & _
          & Hnx & Hny & Hnz & _ & _ & _ & _ & _ & Ha & _).
    injection E1 as <-. injection E2 as <-. injection E3 as <-.
    injection E4 as <-. injection E5 as <-. injection E6 as <-.
    apply mesh_attrs_recovers_grid; assumption.
  - intros p1 p2 fm H.
    unfold make_thin_straight_wire_fieldmesh in H.
    cbn [assert_not_None mbind result_bind] in H.
    inv_bind_as H xs Hxs. inv_bind_as H ys Hys. inv_bind_as H zs Hzs.
    destruct (np_meshgrid xs ys zs) as [[X Y] Z] eqn:EM.
    destruct (meshgrid_shapes _ _ _ _ _ _ EM) as (HX & HY & HZ).
    inv_bind_as H B HB. apply unpack3_Ok, wire_Ok_inv in HB. subst B.
    destruct (assemble_on_linspace _ _ _ _ _ _ _ _ _ _ _ _ _ _ Hxs Hys Hzs H)
      as (Hnx & Hny & Hnz & Lx & Ly & Lz & Ha & _).
    rewrite Lx, Ly, Lz in HX, HY, HZ.
    pose proof (wire_field_has_shape _ X Y Z p1 p2 current HX HY HZ) as HS.
    apply mesh_attrs_recovers_grid; try assumption.
    rewrite Ha. destruct HS as ([-> _] & _). reflexivity.
Qed.

(** *** The dispatcher *)

(** X13. [make_dipole_corrector_fieldmesh] rejects every mode other than
    'rectangular' and 'saddle' with a ValueError.  A successful call fills
    the bounds that were left out from the magnet: in rectangular mode
    [-0.99 a .. 0.99 a], [-0.99 h / 2 .. 0.99 h / 2] and [-5 b .. 5 b], in
    saddle mode [-R .. R], [-R .. R] and [-5 L / 2 .. 5 L / 2]; a bound that
    was given is kept; the returned mesh gives back exactly that grid. *)
Theorem X13_dipole_dispatch_and_default_bounds (current : R)
    (xmin xmax ymin ymax zmin zmax : option R) (nx ny nz : int)
    (npts : option int) (plot_wire : bool) :
  (forall mode a b h R_ L theta,
      mode <> "rectangular" -> mode <> "saddle" ->
      make_dipole_corrector_fieldmesh current xmin xmax nx ymin ymax ny
        zmin zmax nz mode a b h R_ L theta npts plot_wire
      = Raise (ValueError
                 "Invalid mode. Choose either 'rectangular' or 'saddle'."))
  /\ (forall a b h R_ L theta fm,
         make_dipole_corrector_fieldmesh current xmin xmax nx ymin ymax ny
           zmin zmax nz "rectangular" (Some a) (Some b) (Some h) R_ L theta
           npts plot_wire = Ok fm ->
         recovers_grid fm
           (default (- (99 / 100) * a) xmin, default (- (99 / 100) * h / 2) ymin,
            default (- 5 * b) zmin)
           (default (99 / 100 * a) xmax, default (99 / 100 * h / 2) ymax,
            default (5 * b) zmax)
           nx ny nz)
  /\ (forall a b h Rv Lv theta fm,
         make_dipole_corrector_fieldmesh current xmin xmax nx ymin ymax ny
           zmin zmax nz "saddle" a b h (Some Rv) (Some Lv) theta
           npts plot_wire = Ok fm ->
         recovers_grid fm
           (default (- Rv) xmin, default (- Rv) ymin, default (- 5 * Lv / 2) zmin)
           (default Rv xmax, default Rv ymax, default (5 * Lv / 2) zmax)
           nx ny nz).
Proof.
  split; [| split].
  - intros mode a b h R_ L theta H1 H2. unfold make_dipole_corrector_fieldmesh.
    rewrite !decide_False by assumption. reflexivity.
  - intros a b h R_ L theta fm H. unfold make_dipole_corrector_fieldmesh in H.
    cbn [decide] in H. cbv zeta in H.
    match type of H with
    | context [decide ("rectangular" = "rectangular")] =>
        rewrite (decide_True (P := "rectangular" = "rectangular")) in H
          by reflexivity
    | _ => idtac
    end.
    apply make_rectangular_Ok in H
      as (x0 & x1 & y0 & y1 & z0 & z1 & B & E1 & E2 & E3 & E4 & E5 & E6
          & Hnx & Hny & Hnz & _ & Ha & _).
    injection E1 as <-. injection E2 as <-. injection E3 as <-.
    injection E4 as <-. injection E5 as <-. injection E6 as <-.
    apply mesh_attrs_recovers_grid; assumption.
  - intros a b h Rv Lv theta fm H. unfold make_dipole_corrector_fieldmesh in H.
    rewrite (decide_False (P := "saddle" = "rectangular")) in H by discriminate.
    rewrite (decide_True (P := "saddle" = "saddle")) in H by reflexivity.
    assert (Hd : forall (x : option R) (d : R),
               default_to x (Ok d) = Ok (default d x))
      by (intros [v |] d; reflexivity).
    cbn [need mbind result_bind] in H. rewrite !Hd in H.
    cbn [mbind result_bind] in H.
    destruct (is_None (Some Rv) || is_None (Some Lv) || is_None theta);
      [discriminate |].
    apply make_saddle_Ok in H
      as (x0 & x1 & y0 & y1 & z0 & z1 & xs & ys & zs & Rv' & Lv' & thv & n & B
          & E1 & E2 & E3 & E4 & E5 & E6 & _ & _ & _ & _
          & Hnx & Hny & Hnz & _ & _ & _ & _ & _ & Ha & _).
    injection E1 as <-. injection E2 as <-. injection E3 as <-.
    injection E4 as <-. injection E5 as <-. injection E6 as <-.
    apply mesh_attrs_recovers_grid; assumption.
Qed.

(** *** Purity predicates *)

Lemma getitem_stored (fm : FieldMesh) (key : string) (a : ndarray float) :
  components fm !! key = Some a -> getitem fm key = Ok a.
Proof.
  intros H. unfold getitem, lookup_component. rewrite H. reflexivity.
Qed.

Lemma nonzero_keys_spec (fm : FieldMesh) (keys : list string) :
  (forall k, k ∈ keys -> is_Some (components fm !! k)) ->
  exists ks,
    nonzero_keys fm keys = Ok ks
    /\ forall k, k ∈ ks
                 <-> k ∈ keys
                     /\ exists a, components fm !! k = Some a /\ np_any a = true.
Proof.
  induction keys as [| key rest IH]; intros H.
  - exists []. split; [reflexivity |]. intros k. split.
    + intros Hk. inversion Hk.
    + intros [Hk _]. inversion Hk.
  - destruct (H key) as [a Ha]; [left |].
    destruct IH as (ks & Hks & Hspec).
    { intros k Hk. apply H. right. exact Hk. }
    cbn [nonzero_keys]. unfold component_is_zero.
    rewrite (getitem_stored _ _ _ Ha). cbn [mbind result_bind]. rewrite Hks.
    cbn [mbind result_bind].
    destruct (np_any a) eqn:E; cbn [negb].
    + exists (key :: ks). split; [reflexivity |]. intros k.
      rewrite !elem_of_cons, Hspec. split.
      * intros [-> | [Hk Hex]].
        -- split; [left; reflexivity | exists a; split; assumption].
        -- split; [right; assumption | assumption].
      * intros [[-> | Hk] Hex]; [left; reflexivity | right; split; assumption].
    + exists ks. split; [reflexivity |]. intros k.
      rewrite elem_of_cons, Hspec. split.
      * intros [Hk Hex]. split; [right; assumption | assumption].
      * intros [[-> | Hk] (a' & Ha' & Hany)].
        -- rewrite Ha in Ha'. injection Ha' as <-. congruence.
        -- split; [assumption | exists a'; split; assumption].
Qed.

Lemma elem_of_component_keys (fm : FieldMesh) (k : string) :
  k ∈ component_keys fm <-> is_Some (components fm !! k).
Proof.
  unfold component_keys. rewrite list_elem_of_fmap. split.
  - intros ([k' a] & -> & Hin). apply elem_of_map_to_list in Hin.
    exists a. exact Hin.
  - intros [a Ha]. exists (k, a). split; [reflexivity |].
    apply elem_of_map_to_list. exact Ha.
Qed.

Lemma purity_spec (fm : FieldMesh) (p : string) :
  exists b : bool,
    (klist ← nonzero_keys fm (component_keys fm);
     Ok (forallb (String.prefix p) klist)) = Ok b
    /\ (b = true
        <-> forall key a, components fm !! key = Some a -> np_any a = true ->
                          String.prefix p key = true).
Proof.
  destruct (nonzero_keys_spec fm (component_keys fm)) as (ks & Hks & Hspec).
  { intros k Hk. apply elem_of_component_keys. exact Hk. }
  rewrite Hks. cbn [mbind result_bind]. eexists. split; [reflexivity |].
  rewrite forallb_forall. split.
  - intros Hall key a Ha Hany. apply Hall, list_elem_of_In, Hspec. split.
    + apply elem_of_component_keys. exists a. exact Ha.
    + exists a. split; assumption.
  - intros Hall key Hin. apply list_elem_of_In, Hspec in Hin.
    destruct Hin as (_ & a & Ha & Hany). exact (Hall key a Ha Hany).
Qed.

Lemma mesh_components_lookup (B : field3) (key : string) (a : ndarray float) :
  mesh_components B !! key = Some a ->
  (key = "magneticField/x" /\ a = B.1.1)
  \/ (key = "magneticField/y" /\ a = B.1.2)
  \/ (key = "magneticField/z" /\ a = B.2).
Proof.
  unfold mesh_components. intros H.
  apply lookup_insert_Some in H as [[<- <-] | [_ H]]; [auto |].
  apply lookup_insert_Some in H as [[<- <-] | [_ H]]; [auto |].
  apply lookup_insert_Some in H as [[<- <-] | [_ H]]; [auto |].
  rewrite lookup_empty in H. discriminate.
Qed.

(** X14. [is_pure_magnetic] and [is_pure_electric] always return, for any
    mesh: the first is True exactly when every stored component that has a
    non-zero (or non-finite) entry has a name starting with 'magnetic', the
    second likewise with 'electric'.  A mesh that stores the three
    components the builders store is pure magnetic whatever the field, and
    pure electric exactly when all three arrays are zero everywhere. *)
Theorem X14_purity_predicates (fm : FieldMesh) :
  (exists b : bool,
      is_pure_magnetic fm = Ok b
      /\ (b = true
          <-> forall key a, components fm !! key = Some a -> np_any a = true ->
                            String.prefix "magnetic" key = true))
  /\ (exists b : bool,
         is_pure_electric fm = Ok b
         /\ (b = true
             <-> forall key a, components fm !! key = Some a ->
                               np_any a = true ->
                               String.prefix "electric" key = true))
  /\ (forall B : field3,
         components fm = mesh_components B ->
         is_pure_magnetic fm = Ok true
         /\ (is_pure_electric fm = Ok true
             <-> np_any B.1.1 = false /\ np_any B.1.2 = false
                 /\ np_any B.2 = false)).
Proof.
  split; [apply (purity_spec fm "magnetic") |].
  split; [apply (purity_spec fm "electric") |].
  intros B HB. split.
  - destruct (purity_spec fm "magnetic") as (b & Hb & Hiff).
    unfold is_pure_magnetic. rewrite Hb. f_equal. apply Hiff.
    intros key a Ha _. rewrite HB in Ha.
    apply mesh_components_lookup in Ha as [[-> _] | [[-> _] | [-> _]]];
      reflexivity.
  - destruct (purity_spec fm "electric") as (b & Hb & Hiff).
    unfold is_pure_electric. rewrite Hb. split.
    + intros Hbt. injection Hbt as ->.
      assert (Hall := proj1 Hiff eq_refl).
      assert (Hz : forall key a, components fm !! key = Some a ->
                                 String.prefix "electric" key = false ->
                                 np_any a = false).
      { intros key a Ha Hp. destruct (np_any a) eqn:E; [| reflexivity].
        rewrite (Hall key a Ha E) in Hp. discriminate. }
      rewrite HB in Hz.
      split; [| split].
      * apply (Hz "magneticField/x"); reflexivity.
      * apply (Hz "magneticField/y"); reflexivity.
      * apply (Hz "magneticField/z"); reflexivity.
    + intros (Hx & Hy & Hz). f_equal. apply Hiff.
      intros key a Ha Hany. rewrite HB in Ha.
      apply mesh_components_lookup in Ha as [[_ ->] | [[_ ->] | [_ ->]]];
        congruence.
Qed.

(** *** Static meshes, field scale and phase *)

Lemma from_builder_data (fm : FieldMesh) :
  from_builder fm ->
  exists origin spacing size B,
    attrs fm = mesh_attrs origin spacing size
    /\ components fm = mesh_components B.
Proof.
  assert (Hrect : forall a b h current xmin xmax nx ymin ymax ny zmin zmax nz
                         plot_wire,
             make_rectangular_dipole_corrector_fieldmesh a b h current
               xmin xmax nx ymin ymax ny zmin zmax nz plot_wire = Ok fm ->
             exists origin spacing size B,
               attrs fm = mesh_attrs origin spacing size
               /\ components fm = mesh_components B).
  { intros a b h current xmin xmax nx ymin ymax ny zmin zmax nz plot_wire H.
    apply make_rectangular_Ok in H
      as (x0 & x1 & y0 & y1 & z0 & z1 & B & _ & _ & _ & _ & _ & _
          & _ & _ & _ & _ & Ha & Hc).
    do 4 eexists. split; eassumption. }
  assert (Hsad : forall R_ L theta current xmin xmax nx ymin ymax ny zmin zmax
                        nz npts plot_wire,
             make_saddle_dipole_corrector_fieldmesh R_ L theta current
               xmin xmax nx ymin ymax ny zmin zmax nz npts plot_wire = Ok fm ->
             exists origin spacing size B,
               attrs fm = mesh_attrs origin spacing size
               /\ components fm = mesh_components B).
  { intros R_ L theta current xmin xmax nx ymin ymax ny zmin zmax nz npts
      plot_wire H.
    apply make_saddle_Ok in H
      as (x0 & x1 & y0 & y1 & z0 & z1 & xs & ys & zs & Rv & Lv & thv & n & B
          & _ & _ & _ & _ & _ & _ & _ & _ & _ & _ & _ & _ & _ & _ & _ & _
          & _ & _ & Ha & Hc).
    do 4 eexists. split; eassumption. }
  intros [H | [H | [H | H]]].
  - destruct H as (a & b & h & current & xmin & xmax & nx & ymin & ymax & ny
                   & zmin & zmax & nz & plot_wire & H).
    eapply Hrect, H.
  - destruct H as (R_ & L & theta & current & xmin & xmax & nx & ymin & ymax
                   & ny & zmin & zmax & nz & npts & plot_wire & H).
    eapply Hsad, H.
  - destruct H as (p1 & p2 & current & xmin & xmax & nx & ymin & ymax & ny
                   & zmin & zmax & nz & plot_wire & H).
    unfold make_thin_straight_wire_fieldmesh in H.
    do 9 inv_bind H. destruct (np_meshgrid _ _ _) as [[X Y] Z].
    inv_bind H.
    apply assemble_fieldmesh_Ok in H
      as (dx & dy & dz & x0 & y0 & z0 & _ & _ & _ & _ & _ & _ & Ha & Hc).
    do 4 eexists. split; eassumption.
  - destruct H as (current & xmin & xmax & nx & ymin & ymax & ny & zmin & zmax
                   & nz & mode & a & b & h & R_ & L & theta & npts & plot_wire
                   & H).
    unfold make_dipole_corrector_fieldmesh in H.
    destruct (decide (mode = "rectangular")).
    + destruct a, b, h; try discriminate. cbv zeta in H. eapply Hrect, H.
    + destruct (decide (mode = "saddle")); [| discriminate].
      do 6 inv_bind H.
      destruct (is_None R_ || is_None L || is_None theta); [discriminate |].
      eapply Hsad, H.
Qed.

Lemma set_attr_same_grid_and_field (fm : FieldMesh) (k : string)
    (v : attr_value) :
  k <> "gridGeometry" -> k <> "gridSize" -> k <> "gridOriginOffset" ->
  k <> "gridSpacing" -> k <> "harmonic" ->
  same_grid_and_field fm (set_attr fm k v).
Proof.
  intros H1 H2 H3 H4 H5.
  assert (Hget : forall k', k <> k' ->
             dict_get (attrs (set_attr fm k v)) k' = dict_get (attrs fm) k').
  { intros k' Hk. unfold dict_get, set_attr. cbn [attrs].
    rewrite lookup_insert_ne by exact Hk. reflexivity. }
  unfold same_grid_and_field, geometry, FieldMesh_max, FieldMesh_delta,
    FieldMesh_min, FieldMesh_shape, is_static.
  rewrite !Hget by assumption. repeat split; reflexivity.
Qed.

(** X15. A mesh returned by a mesh maker of corrector_modeling is static
    ([harmonic] is 0) and carries neither a fieldScale nor an RFphase
    attribute: reading [scale] or [phase] raises the KeyError of the
    missing attribute.  On any mesh, [scale] reads back what its setter
    stored and [phase] reads back the angle its setter was given (the
    setter stores [val / (2 pi)], the getter multiplies by [2 pi]; in exact
    arithmetic the two cancel); neither setter affects the other value,
    the components, the geometry, the grid or [is_static]. *)
Theorem X15_static_scale_and_phase :
  (forall fm : FieldMesh,
      from_builder fm ->
      is_static fm = Ok true
      /\ scale fm = Raise (KeyError "fieldScale")
      /\ phase fm = Raise (KeyError "RFphase"))
  /\ (forall (fm : FieldMesh) (val : attr_value),
         scale (set_scale fm val) = Ok val
         /\ phase (set_scale fm val) = phase fm
         /\ same_grid_and_field fm (set_scale fm val))
  /\ (forall (fm : FieldMesh) (val : R),
         phase (set_phase fm val) = Ok val
         /\ scale (set_phase fm val) = scale fm
         /\ same_grid_and_field fm (set_phase fm val)).
Proof.
  split; [| split].
  - intros fm H. apply from_builder_data in H as (o & sp & sz & B & Ha & _).
    unfold is_static, scale, phase, dict_get. rewrite Ha.
    repeat split; reflexivity.
  - intros fm val. split; [| split].
    + unfold scale, set_scale, set_attr, dict_get. cbn [attrs].
      rewrite lookup_insert_eq. reflexivity.
    + unfold phase, set_scale, set_attr, dict_get. cbn [attrs].
      rewrite lookup_insert_ne by discriminate. reflexivity.
    + apply set_attr_same_grid_and_field; discriminate.
  - intros fm val. split; [| split].
    + unfold phase, set_phase, set_attr, dict_get. cbn [attrs].
      rewrite lookup_insert_eq. cbn [mbind result_bind]. f_equal.
      field. apply PI_neq0.
    + unfold scale, set_phase, set_attr, dict_get. cbn [attrs].
      rewrite lookup_insert_ne by discriminate. reflexivity.
    + apply set_attr_same_grid_and_field; discriminate.
Qed.

(** *** Axis accessors on 'cartesian' and 'cylindrical' meshes *)

Lemma find_label_bounds (key : string) (labels : list string) (n i : nat) :
  find_label key labels n = Some i -> (n <= i < n + length labels)%nat.
Proof.
  revert n. induction labels as [| name rest IH]; intros n H.
  - discriminate.
  - cbn [find_label] in H. destruct (decide (name = key)).
    + injection H as <-. cbn [length]. lia.
    + apply IH in H. cbn [length]. lia.
Qed.

Lemma axis_labels_length (fm : FieldMesh) (labels : list string) :
  axis_labels fm = Ok labels -> length labels = 3%nat.
Proof.
  unfold axis_labels. intros H. inv_bind H.
  destruct r; try discriminate. unfold dict_get in H.
  destruct (axis_labels_from_geometry !! s) as [l |] eqn:E; [| discriminate].
  injection H as ->. unfold axis_labels_from_geometry in E.
  apply lookup_insert_Some in E as [[_ <-] | [_ E]]; [reflexivity |].
  apply lookup_insert_Some in E as [[_ <-] | [_ E]]; [reflexivity |].
  rewrite lookup_empty in E. discriminate.
Qed.

Lemma axis_index_of_labels (fm : FieldMesh) (key l0 l1 l2 : string) :
  axis_labels fm = Ok (l0 :: l1 :: l2 :: nil) ->
  axis_index fm key
  = if decide (key = l0) then Ok 0%nat
    else if decide (key = l1) then Ok 1%nat
    else if decide (key = l2) then Ok 2%nat
    else Raise (ValueError ("Axis not found: " ++ key)).
Proof.
  intros H. unfold axis_index. rewrite H. cbn [mbind result_bind find_label].
  destruct (decide (l0 = key)) as [-> | N0].
  { rewrite decide_True by reflexivity. reflexivity. }
  rewrite (decide_False (P := key = l0)) by congruence.
  destruct (decide (l1 = key)) as [-> | N1].
  { rewrite decide_True by reflexivity. reflexivity. }
  rewrite (decide_False (P := key = l1)) by congruence.
  destruct (decide (l2 = key)) as [-> | N2].
  { rewrite decide_True by reflexivity. reflexivity. }
  rewrite (decide_False (P := key = l2)) by congruence.
  reflexivity.
Qed.

(** X16. On a mesh whose gridGeometry is 'cartesian', [axis_index] maps
    'x', 'y', 'z' to 0, 1, 2, and on a 'cylindrical' mesh 'r', 'theta', 'z'
    to 0, 1, 2; every other key raises "Axis not found: <key>".  Whenever
    [axis_index] returns, the index is below 3 and [coord_vec] of that key
    is the entry of [coord_vecs] at that index. *)
Theorem X16_axis_index_and_coord_vec (fm : FieldMesh) (key : string) :
  (geometry fm = Ok (AStr "cartesian") ->
   axis_index fm key
   = if decide (key = "x") then Ok 0%nat
     else if decide (key = "y") then Ok 1%nat
     else if decide (key = "z") then Ok 2%nat
     else Raise (ValueError ("Axis not found: " ++ key)))
  /\ (geometry fm = Ok (AStr "cylindrical") ->
      axis_index fm key
      = if decide (key = "r") then Ok 0%nat
        else if decide (key = "theta") then Ok 1%nat
        else if decide (key = "z") then Ok 2%nat
        else Raise (ValueError ("Axis not found: " ++ key)))
  /\ (forall i : nat,
         axis_index fm key = Ok i ->
         (i < 3)%nat
         /\ forall v, coord_vecs fm = Ok v -> coord_vec fm key = item3 v i).
Proof.
  split; [| split].
  - intros H. apply axis_index_of_labels. unfold axis_labels. rewrite H.
    reflexivity.
  - intros H. apply axis_index_of_labels. unfold axis_labels. rewrite H.
    reflexivity.
  - intros i Hi.
    assert (Hlt : (i < 3)%nat).
    { unfold axis_index in Hi. destruct (axis_labels fm) as [labels | e] eqn:E;
        [| discriminate].
      cbn [mbind result_bind] in Hi.
      destruct (find_label key labels 0) as [j |] eqn:Ej; [| discriminate].
      injection Hi as <-. apply find_label_bounds in Ej.
      rewrite (axis_labels_length _ _ E) in Ej. lia. }
    split; [exact Hlt |]. intros [[xs ys] zs] Hv.
    unfold coord_vecs in Hv.
    destruct (FieldMesh_min fm) as [mn | e] eqn:Emn; [| discriminate].
    destruct (FieldMesh_max fm) as [mx | e] eqn:Emx; [| discriminate].
    destruct (FieldMesh_shape fm) as [sh | e] eqn:Esh; [| discriminate].
    cbn [mbind result_bind] in Hv.
    destruct (np_linspace mn.1.1 mx.1.1 (Z.of_nat sh.1.1)) as [xs' | e] eqn:Ex;
      [| discriminate].
    destruct (np_linspace mn.1.2 mx.1.2 (Z.of_nat sh.1.2)) as [ys' | e] eqn:Ey;
      [| discriminate].
    destruct (np_linspace mn.2 mx.2 (Z.of_nat sh.2)) as [zs' | e] eqn:Ez;
      [| discriminate].
    cbn [mbind result_bind] in Hv. injection Hv as <- <- <-.
    unfold coord_vec. rewrite Hi, Emn, Emx, Esh. cbn [mbind result_bind].
    destruct i as [| [| [| i]]]; [| | | lia];
      cbn [item3 mbind result_bind fst snd]; assumption.
Qed.

(** *** The alias attributes the constructor binds *)

Lemma FieldMesh_init_fold (data_components : gmap string (ndarray float)) :
  match map_fold
          (fun k v (acc : result (gmap string (ndarray float))) =>
             d ← acc; alias ← dict_get component_alias k;
             Ok (<[alias := v]> d))
          (Ok ∅) data_components with
  | Ok d =>
      (forall k, is_Some (data_components !! k) ->
                 is_Some (component_alias !! k))
      /\ (forall name a, d !! name = Some a ->
            exists k, data_components !! k = Some a
                      /\ component_alias !! k = Some name)
      /\ (distinct_aliases data_components ->
          forall k a al, data_components !! k = Some a ->
                         component_alias !! k = Some al -> d !! al = Some a)
  | Raise e =>
      exists k, is_Some (data_components !! k)
                /\ component_alias !! k = None /\ e = KeyError k
  end.
Proof.
  apply (map_fold_weak_ind
           (fun r (m : gmap string (ndarray float)) =>
              match r with
              | Ok d =>
                  (forall k, is_Some (m !! k) -> is_Some (component_alias !! k))
                  /\ (forall name a, d !! name = Some a ->
                        exists k, m !! k = Some a
                                  /\ component_alias !! k = Some name)
                  /\ (distinct_aliases m ->
                      forall k a al, m !! k = Some a ->
                                     component_alias !! k = Some al ->
                                     d !! al = Some a)
              | Raise e =>
                  exists k, is_Some (m !! k)
                            /\ component_alias !! k = None /\ e = KeyError k
              end)).
  - split; [| split].
    + intros k [a Hk]. rewrite lookup_empty in Hk. discriminate.
    + intros name a H. rewrite lookup_empty in H. discriminate.
    + intros _ k a al H. rewrite lookup_empty in H. discriminate.
  - intros i x m r Hi IH. destruct r as [d | e]; cbn [mbind result_bind].
    + destruct IH as (Hreg & Hsound & Hcomplete). unfold dict_get.
      destruct (component_alias !! i) as [al |] eqn:Eal;
        cbn [mbind result_bind].
      * split; [| split].
        -- intros k Hk. destruct (decide (i = k)) as [<- | Hne].
           ++ rewrite Eal. eexists. reflexivity.
           ++ rewrite lookup_insert_ne in Hk by exact Hne. apply Hreg, Hk.
        -- intros name a H.
           apply lookup_insert_Some in H as [[<- <-] | [Hne H]].
           ++ exists i. rewrite lookup_insert_eq. split; [reflexivity | exact Eal].
           ++ destruct (Hsound name a H) as (k & Hk & Hka). exists k.
              split; [| exact Hka]. rewrite lookup_insert_ne; [exact Hk |].
              intros <-. rewrite Hi in Hk. discriminate.
        -- intros Hinj k a al' Hk Hka.
           destruct (decide (i = k)) as [<- | Hne].
           ++ rewrite lookup_insert_eq in Hk. injection Hk as <-.
              rewrite Eal in Hka. injection Hka as <-.
              apply lookup_insert_eq.
           ++ rewrite lookup_insert_ne in Hk by exact Hne.
              assert (Hal : al <> al').
              { intros <-. apply Hne.
                apply (Hinj i k al); [| | exact Eal | exact Hka].
                - rewrite lookup_insert_eq. eexists. reflexivity.
                - rewrite lookup_insert_ne by exact Hne. eexists. exact Hk. }
              rewrite lookup_insert_ne by exact Hal.
              apply (Hcomplete) with (k := k); [| exact Hk | exact Hka].
              intros k1 k2 al0 [a1 H1] [a2 H2] E1 E2.
              apply (Hinj k1 k2 al0); [| | exact E1 | exact E2].
              ** exists a1. rewrite lookup_insert_ne; [exact H1 |].
                 intros <-. rewrite Hi in H1. discriminate.
              ** exists a2. rewrite lookup_insert_ne; [exact H2 |].
                 intros <-. rewrite Hi in H2. discriminate.
      * exists i. rewrite lookup_insert_eq.
        split; [eexists; reflexivity | split; [exact Eal | reflexivity]].
    + destruct IH as (k & [a Hk] & Hka & ->). exists k.
      split; [| split; [exact Hka | reflexivity]].
      exists a. rewrite lookup_insert_ne; [exact Hk |].
      intros <-. rewrite Hi in Hk. discriminate.
Qed.

(** X17. When no stored component has the alias '_data' (the slot that
    holds the data itself), [FieldMesh(data=...)] returns exactly when
    every stored component name is a key of [component_alias]; otherwise it
    raises the KeyError of a stored name that is not.  The mesh it returns
    holds the [attrs] and [components] it was given; every entry the
    constructor adds to the instance dictionary is a stored component under
    the alias of its name; and when no two stored names share an alias,
    every stored component is in the instance dictionary under its alias,
    is what reading that attribute gives unless the alias is the name of a
    property of the class, and is the array that indexing with the alias
    returns. *)
Theorem X17_constructor_binds_aliases (data_attrs : gmap string attr_value)
    (data_components : gmap string (ndarray float)) :
  (forall k, is_Some (data_components !! k) ->
             component_alias !! k <> Some "_data") ->
  (returns (FieldMesh_init data_attrs data_components)
   <-> forall k, is_Some (data_components !! k) ->
                 is_Some (component_alias !! k))
  /\ (forall e, FieldMesh_init data_attrs data_components = Raise e ->
        exists k, is_Some (data_components !! k)
                  /\ component_alias !! k = None /\ e = KeyError k)
  /\ (forall fm,
         FieldMesh_init data_attrs data_components = Ok fm ->
         attrs fm = data_attrs
         /\ components fm = data_components
         /\ (forall name a, inst_dict fm !! name = Some a ->
               exists k, data_components !! k = Some a
                         /\ component_alias !! k = Some name)
         /\ (distinct_aliases data_components ->
             forall k a al,
               data_components !! k = Some a ->
               component_alias !! k = Some al ->
               inst_dict fm !! al = Some a
               /\ (al ∉ property_names -> getattr fm al = Ok a)
               /\ (data_components !! al = None ->
                   component_from_alias !! al = Some k ->
                   getitem fm al = Ok a))).
Proof.
  intros _.
  pose proof (FieldMesh_init_fold data_components) as Hfold.
  unfold FieldMesh_init.
  destruct (map_fold _ _ data_components) as [d | e0];
    cbn [mbind result_bind].
  - destruct Hfold as (Hreg & Hsound & Hcomplete).
    split; [| split].
    + split; [intros _; exact Hreg | intros _; eexists; reflexivity].
    + intros e H. discriminate.
    + intros fm H. injection H as <-. cbn [attrs components inst_dict].
      split; [reflexivity |]. split; [reflexivity |]. split.
      * exact Hsound.
      * intros Hinj k a al Hk Hka.
        pose proof (Hcomplete Hinj k a al Hk Hka) as Hd.
        split; [exact Hd |]. split.
        -- intros _. unfold getattr. cbn [inst_dict]. rewrite Hd.
           reflexivity.
        -- intros Hal Hfrom. unfold getitem, lookup_component.
           cbn [components]. rewrite Hal, Hfrom, Hk. reflexivity.
  - destruct Hfold as (k & Hk & Hka & ->).
    split; [| split].
    + split.
      * intros [fm H]. discriminate.
      * intros Hreg. destruct (Hreg k Hk) as [al Hal]. congruence.
    + intros e H. injection H as <-. exists k.
      split; [exact Hk | split; [exact Hka | reflexivity]].
    + intros fm H. discriminate.
Qed.

(** *** The magnitude accessors [B], [E] and the property [Br] *)

Lemma FieldMesh_init_inst_dict data_attrs data_components fm :
  FieldMesh_init data_attrs data_components = Ok fm ->
  forall name a, inst_dict fm !! name = Some a ->
    exists k, data_components !! k = Some a
              /\ component_alias !! k = Some name.
Proof.
  pose proof (FieldMesh_init_fold data_components) as Hfold.
  unfold FieldMesh_init.
  destruct (map_fold _ _ data_components) as [d | e0];
    cbn [mbind result_bind]; [| discriminate].
  intros H. injection H as <-. cbn [inst_dict]. apply Hfold.
Qed.

(** X18. On a mesh returned by a mesh maker of corrector_modeling the
    magnitude accessors are unusable: [B] and [E] raise the RuntimeError of
    a bare [raise], because the geometry is 'rectangular' and not
    'cylindrical', and so does indexing with 'B' or 'E' when these are no
    aliases.  Whenever [B] does return, the geometry is 'cylindrical' and
    no finite entry of the result is negative.  The property [Br] never
    returns on a mesh the constructor made, unless some stored component
    has the alias 'factor': when the component behind the alias 'Br' can be
    read, the attribute [factor] it is multiplied with does not exist. *)
Theorem X18_magnitude_accessors :
  (forall fm : FieldMesh,
      from_builder fm ->
      FieldMesh_B fm = Raise (RuntimeError "No active exception to reraise")
      /\ FieldMesh_E fm = Raise (RuntimeError "No active exception to reraise")
      /\ (component_from_alias !! "B" = None ->
          getitem fm "B"
          = Raise (RuntimeError "No active exception to reraise"))
      /\ (component_from_alias !! "E" = None ->
          getitem fm "E"
          = Raise (RuntimeError "No active exception to reraise")))
  /\ (forall (fm : FieldMesh) (a : ndarray float),
         FieldMesh_B fm = Ok a ->
         geometry fm = Ok (AStr "cylindrical")
         /\ forall (i : nat) (r : R), flat a !! i = Some (Fin r) -> 0 <= r)
  /\ (forall data_attrs data_components fm,
         FieldMesh_init data_attrs data_components = Ok fm ->
         (forall k, is_Some (data_components !! k) ->
                    component_alias !! k <> Some "factor") ->
         raises (FieldMesh_Br fm)
         /\ forall key a,
             component_from_alias !! "Br" = Some key ->
             getitem fm key = Ok a ->
             FieldMesh_Br fm = Raise (AttributeError "factor")).
Proof.
  split; [| split].
  - intros fm H. apply from_builder_data in H as (o & sp & sz & B & Ha & Hc).
    assert (Hg : geometry fm = Ok (AStr "rectangular")).
    { unfold geometry, dict_get. rewrite Ha. reflexivity. }
    assert (HB : FieldMesh_B fm
                 = Raise (RuntimeError "No active exception to reraise")).
    { unfold FieldMesh_B. rewrite Hg. reflexivity. }
    assert (HE : FieldMesh_E fm
                 = Raise (RuntimeError "No active exception to reraise")).
    { unfold FieldMesh_E. rewrite Hg. reflexivity. }
    split; [exact HB |]. split; [exact HE |]. split.
    + intros Hn. unfold getitem, lookup_component. rewrite Hc.
      replace (mesh_components B !! "B") with (@None (ndarray float))
        by reflexivity.
      rewrite Hn. rewrite decide_False by discriminate.
      rewrite decide_True by reflexivity. exact HB.
    + intros Hn. unfold getitem, lookup_component. rewrite Hc.
      replace (mesh_components B !! "E") with (@None (ndarray float))
        by reflexivity.
      rewrite Hn. rewrite decide_True by reflexivity. exact HE.
  - intros fm a H. unfold FieldMesh_B in H.
    destruct (geometry fm) as [g | e] eqn:Eg; [| discriminate].
    cbn [mbind result_bind] in H.
    destruct (is_cylindrical g) eqn:Ec; [| discriminate].
    split.
    + destruct g; try discriminate. cbn [is_cylindrical] in Ec.
      apply bool_decide_eq_true in Ec. subst s. reflexivity.
    + destruct (getitem_named fm "Br") as [br | e]; [| discriminate].
      destruct (getitem_named fm "Bz") as [bz | e]; [| discriminate].
      cbn [mbind result_bind] in H. injection H as <-.
      intros i r Hi. unfold arr_map2 in Hi. cbn [flat] in Hi.
      apply lookup_zip_with_Some in Hi as (x & y & Hxy & _ & _).
      destruct x as [x |], y as [y |]; try discriminate.
      cbn [fhypot] in Hxy. injection Hxy as ->. apply sqrt_pos.
  - intros data_attrs data_components fm Hinit Hnf.
    assert (Hfac : inst_dict fm !! "factor" = None).
    { destruct (inst_dict fm !! "factor") as [a |] eqn:E; [| reflexivity].
      destruct (FieldMesh_init_inst_dict _ _ _ Hinit _ _ E) as (k & Hk & Hka).
      exfalso. apply (Hnf k); [eexists; exact Hk | exact Hka]. }
    split.
    + unfold raises, FieldMesh_Br.
      destruct (dict_get component_from_alias "Br") as [key | e];
        cbn [mbind result_bind]; [| eexists; reflexivity].
      destruct (getitem fm key) as [a | e];
        cbn [mbind result_bind]; [| eexists; reflexivity].
      unfold getattr. rewrite Hfac. eexists. reflexivity.
    + intros key a Hkey Hget. unfold FieldMesh_Br, dict_get.
      rewrite Hkey. cbn [mbind result_bind]. rewrite Hget.
      cbn [mbind result_bind]. unfold getattr. rewrite Hfac. reflexivity.
Qed.

(** *** The arc resolution in saddle mode *)

(** X19. [make_dipole_corrector_fieldmesh] has [npts=None] as its default
    and hands it on as it is, which replaces the default of 20 of the
    saddle maker: in saddle mode with R, L and theta given and [npts] left
    out, the call raises the TypeError of [np.linspace] for a [None]
    number of samples, whatever the bounds (given or defaulted), for any
    non-negative grid counts.  A negative [nx] is reported first, as the
    ValueError of [np.linspace]. *)
Theorem X19_saddle_mode_without_npts (current : R)
    (xmin xmax ymin ymax zmin zmax : option R) (nx ny nz : int)
    (a b h : option R) (Rv Lv thv : R) (plot_wire : bool) :
  ((0 <= nx)%Z -> (0 <= ny)%Z -> (0 <= nz)%Z ->
   make_dipole_corrector_fieldmesh current xmin xmax nx ymin ymax ny
     zmin zmax nz "saddle" a b h (Some Rv) (Some Lv) (Some thv) None plot_wire
   = Raise (TypeError "'NoneType' object cannot be interpreted as an integer"))
  /\ ((nx < 0)%Z ->
      exists msg : string,
        make_dipole_corrector_fieldmesh current xmin xmax nx ymin ymax ny
          zmin zmax nz "saddle" a b h (Some Rv) (Some Lv) (Some thv) None
          plot_wire
        = Raise (ValueError msg)).
Proof.
  assert (Hd : forall (x : option R) (d : R),
             default_to x (Ok d) = Ok (default d x))
    by (intros [v |] d; reflexivity).
  assert (Hsaddle :
            make_dipole_corrector_fieldmesh current xmin xmax nx ymin ymax ny
              zmin zmax nz "saddle" a b h (Some Rv) (Some Lv) (Some thv) None
              plot_wire
            = make_saddle_dipole_corrector_fieldmesh (Some Rv) (Some Lv)
                (Some thv) current
                (Some (default (- Rv) xmin)) (Some (default Rv xmax)) nx
                (Some (default (- Rv) ymin)) (Some (default Rv ymax)) ny
                (Some (default (- 5 * Lv / 2) zmin))
                (Some (default (5 * Lv / 2) zmax)) nz None plot_wire).
  { unfold make_dipole_corrector_fieldmesh.
    rewrite (decide_False (P := "saddle" = "rectangular")) by discriminate.
    rewrite (decide_True (P := "saddle" = "saddle")) by reflexivity.
    cbn [need mbind result_bind]. rewrite !Hd. reflexivity. }
  rewrite Hsaddle. unfold make_saddle_dipole_corrector_fieldmesh. split.
  - intros Hnx Hny Hnz. rewrite !linspace_opt_Some by assumption.
    destruct (linspace_returns (default (- Rv) xmin) (default Rv xmax) nx Hnx)
      as (xs & -> & _).
    destruct (linspace_returns (default (- Rv) ymin) (default Rv ymax) ny Hny)
      as (ys & -> & _).
    destruct (linspace_returns (default (- 5 * Lv / 2) zmin)
                (default (5 * Lv / 2) zmax) nz Hnz) as (zs & -> & _).
    cbn [mbind result_bind]. destruct (np_meshgrid xs ys zs) as [[X Y] Z].
    reflexivity.
  - intros Hnx. unfold np_linspace_opt.
    rewrite (decide_True (P := (nx < 0)%Z)) by exact Hnx.
    eexists. reflexivity.
Qed.

(** *** Finite fields *)

Lemma arr_add_finite (a b : ndarray float) :
  all_finite a -> all_finite b -> all_finite (arr_add a b).
Proof.
  intros Ha Hb v Hv. unfold arr_add, arr_map2 in Hv. cbn [flat] in Hv.
  apply elem_of_zip_with in Hv as (x & y & -> & Hx & Hy).
  destruct (Ha x Hx) as [rx ->], (Hb y Hy) as [ry ->].
  eexists. reflexivity.
Qed.

Lemma field3_add_finite (A B : field3) :
  field_finite A -> field_finite B -> field_finite (field3_add A B).
Proof.
  destruct A as [[ax ay] az], B as [[bx by_] bz].
  unfold field_finite, field3_add. cbn [fst snd].
  intros (? & ? & ?) (? & ? & ?).
  repeat split; apply arr_add_finite; assumption.
Qed.

Lemma wire_field_finite (x y z : ndarray R) (p1 p2 : vec) (current : R) :
  p1 <> p2 ->
  (forall P, P ∈ flat (stacked x y z) -> ~ on_line P p1 p2) ->
  field_finite (wire_field x y z p1 p2 current).
Proof.
  intros Hne Hoff.
  assert (H : forall P, P ∈ flat (stacked x y z) ->
              exists a b c, wire_point P p1 p2 current = (Fin a, Fin b, Fin c)).
  { intros P HP. rewrite wire_point_cases.
    destruct (Req_dec_T (spec_R P p1 p2) 0) as [H0 | H0].
    - exfalso. apply (Hoff P HP).
      apply (proj1 (spec_R_zero_on_line P p1 p2 Hne)), H0.
    - destruct (spec_field P p1 p2 current) as [[a b] c].
      exists a, b, c. reflexivity. }
  unfold field_finite, all_finite, wire_field, split3, arr_map.
  cbn [fst snd flat].
  repeat split; intros v Hv;
    apply list_elem_of_fmap in Hv as (w & -> & Hw);
    apply list_elem_of_fmap in Hw as (P & -> & HP);
    destruct (H P HP) as (a & b & c & ->); eexists; reflexivity.
Qed.

Lemma on_line_y (P p1 p2 : vec) (c : R) :
  p1.1.2 = c -> p2.1.2 = c -> on_line P p1 p2 -> P.1.2 = c.
Proof.
  destruct P as [[px py] pz], p1 as [[a1 b1] c1], p2 as [[a2 b2] c2].
  cbn [fst snd]. intros -> -> [s Hs]. unfold vadd, vscale, vsub in Hs.
  injection Hs as _ -> _. ring.
Qed.

Lemma stacked_elem_y (x y z : ndarray R) (P : vec) :
  P ∈ flat (stacked x y z) -> P.1.2 ∈ flat y.
Proof.
  unfold stacked. cbn [flat]. intros H.
  apply elem_of_zip_with in H as (xy & c & -> & Hxy & _).
  apply elem_of_zip_with in Hxy as (u & v & -> & _ & Hv). exact Hv.
Qed.

Lemma meshgrid_Y_elem (xs ys zs : list R) (v : R) :
  v ∈ flat (np_meshgrid xs ys zs).1.2 -> v ∈ ys.
Proof.
  unfold np_meshgrid. cbn [fst snd flat]. intros H.
  apply list_elem_of_In in H. apply list_elem_of_In.
  apply in_flat_map in H as (x & _ & H).
  apply in_flat_map in H as (y & Hy & H).
  apply in_map_iff in H as (z & <- & _). exact Hy.
Qed.

Lemma linspace_between (s e : R) (num : int) (xs : list R) (x : R) :
  np_linspace s e num = Ok xs -> x ∈ xs ->
  exists t : R, 0 <= t <= 1 /\ x = s + t * (e - s).
Proof.
  unfold np_linspace. destruct (decide (num < 0)%Z); [discriminate |].
  cbv zeta. intros H. injection H as <-. intros Hx.
  apply list_elem_of_fmap in Hx as (i & -> & Hi).
  apply elem_of_seq in Hi.
  destruct (decide ((Z.to_nat num - 1)%nat = 0%nat)) as [E | E].
  - exists 0. split; [lra |]. assert (i = 0%nat) as -> by lia.
    cbn [INR]. ring.
  - assert (Hd : 0 < INR (Z.to_nat num - 1)) by (apply lt_0_INR; lia).
    assert (Hle : INR i <= INR (Z.to_nat num - 1)) by (apply le_INR; lia).
    pose proof (pos_INR i) as Hpos.
    pose proof (Rinv_0_lt_compat _ Hd) as Hinv.
    exists (INR i / INR (Z.to_nat num - 1)). split.
    + split.
      * unfold Rdiv. apply Rmult_le_pos; lra.
      * apply (Rmult_le_reg_r (INR (Z.to_nat num - 1))); [exact Hd |].
        unfold Rdiv. rewrite Rmult_assoc, Rinv_l by lra. lra.
    + field. lra.
Qed.

Lemma coil_finite (X Y Z : ndarray R) (a b y0 current : R) (plot_wire : bool)
    (B : field3) :
  bfield_from_thin_rectangular_coil X Y Z a b y0 current plot_wire = Ok B ->
  (forall P, P ∈ flat (stacked X Y Z) -> P.1.2 <> y0) ->
  field_finite B.
Proof.
  unfold bfield_from_thin_rectangular_coil. cbv zeta. intros H Hoff.
  inv_bind_as H B1 H1. inv_bind_as H B2 H2. inv_bind_as H B3 H3.
  inv_bind_as H B4 H4. injection H as <-.
  apply unpack3_Ok in H1, H2, H3, H4.
  pose proof (wire_Ok_guards _ _ _ _ _ _ _ _ _ H1) as (N1 & _).
  pose proof (wire_Ok_guards _ _ _ _ _ _ _ _ _ H2) as (N2 & _).
  pose proof (wire_Ok_guards _ _ _ _ _ _ _ _ _ H3) as (N3 & _).
  pose proof (wire_Ok_guards _ _ _ _ _ _ _ _ _ H4) as (N4 & _).
  apply wire_Ok_inv in H1, H2, H3, H4. subst B1 B2 B3 B4.
  assert (Hw : forall p1 p2 : vec,
             p1 <> p2 -> p1.1.2 = y0 -> p2.1.2 = y0 ->
             field_finite (wire_field X Y Z p1 p2 current)).
  { intros p1 p2 Hne E1 E2. apply wire_field_finite; [exact Hne |].
    intros P HP Hon. apply (Hoff P HP).
    exact (on_line_y P p1 p2 y0 E1 E2 Hon). }
  apply field3_add_finite.
  - apply field3_add_finite.
    + apply field3_add_finite.
      * apply Hw; [exact N1 | reflexivity | reflexivity].
      * apply Hw; [exact N2 | reflexivity | reflexivity].
    + apply Hw; [exact N3 | reflexivity | reflexivity].
  - apply Hw; [exact N4 | reflexivity | reflexivity].
Qed.

Lemma corrector_finite (X Y Z : ndarray R) (a b h current : R)
    (plot_wire : bool) (B : field3) :
  bfield_from_thin_rectangular_corrector X Y Z a b h current plot_wire = Ok B ->
  (forall P, P ∈ flat (stacked X Y Z) -> Rabs P.1.2 < Rabs h / 2) ->
  field_finite B.
Proof.
  unfold bfield_from_thin_rectangular_corrector. intros H Hin.
  inv_bind_as H B1 H1. inv_bind_as H B2 H2. injection H as <-.
  apply field3_add_finite.
  - apply (coil_finite _ _ _ _ _ _ _ _ _ H1). intros P HP E.
    specialize (Hin P HP). rewrite E in Hin.
    replace (- h / 2) with (- (h / 2)) in Hin by lra.
    rewrite Rabs_Ropp in Hin.
    unfold Rabs in Hin. destruct (Rcase_abs (h / 2)), (Rcase_abs h); lra.
  - apply (coil_finite _ _ _ _ _ _ _ _ _ H2). intros P HP E.
    specialize (Hin P HP). rewrite E in Hin.
    unfold Rabs in Hin. destruct (Rcase_abs (h / 2)), (Rcase_abs h); lra.
Qed.

Lemma between_abs (s e t c : R) :
  0 <= t <= 1 -> Rabs s < c -> Rabs e < c -> Rabs (s + t * (e - s)) < c.
Proof.
  intros Ht Hs He. apply Rabs_def2 in Hs as [Hs1 Hs2].
  apply Rabs_def2 in He as [He1 He2]. apply Rabs_def1.
  - replace (s + t * (e - s)) with (s + t * (e - c) + t * (c - s)) by ring.
    assert (t * (e - c) <= 0) by nra. assert (t * (c - s) <= c - s) by nra.
    destruct (Req_dec t 1) as [-> | Hne]; [lra |].
    assert (t * (c - s) < c - s) by nra. lra.
  - replace (s + t * (e - s)) with (s + t * (e + c) - t * (c + s)) by ring.
    assert (0 <= t * (e + c)) by nra. assert (t * (c + s) <= c + s) by nra.
    destruct (Req_dec t 1) as [-> | Hne]; [lra |].
    assert (t * (c + s) < c + s) by nra. lra.
Qed.

(** X20. A mesh of the rectangular corrector whose y range lies strictly
    between the two coil planes ([|ymin| < |h|/2] and [|ymax| < |h|/2])
    holds only finite field values: no grid point lies on the line of a
    wire.  The y range that [make_dipole_corrector_fieldmesh] chooses when
    none is given, [-0.99 h/2 .. 0.99 h/2], is such a range when [h] is not
    zero, so every mesh it returns in rectangular mode with the default y
    range is then finite everywhere. *)
Theorem X20_rectangular_mesh_is_finite (a b h current : R)
    (xmin xmax zmin zmax : option R) (nx ny nz : int) (plot_wire : bool) :
  (forall (ymin ymax : R) (fm : FieldMesh),
      Rabs ymin < Rabs h / 2 -> Rabs ymax < Rabs h / 2 ->
      make_rectangular_dipole_corrector_fieldmesh (Some a) (Some b) (Some h)
        current xmin xmax nx (Some ymin) (Some ymax) ny zmin zmax nz plot_wire
      = Ok fm ->
      forall key arr, components fm !! key = Some arr -> all_finite arr)
  /\ (forall (R_ L theta : option R) (npts : option int) (fm : FieldMesh),
         h <> 0 ->
         make_dipole_corrector_fieldmesh current xmin xmax nx None None ny
           zmin zmax nz "rectangular" (Some a) (Some b) (Some h) R_ L theta
           npts plot_wire = Ok fm ->
         forall key arr, components fm !! key = Some arr -> all_finite arr).
Proof.
  assert (Hmain : forall (x0 x1 z0 z1 : option R) (ymin ymax : R)
                         (fm : FieldMesh),
             Rabs ymin < Rabs h / 2 -> Rabs ymax < Rabs h / 2 ->
             make_rectangular_dipole_corrector_fieldmesh (Some a) (Some b)
               (Some h) current x0 x1 nx (Some ymin) (Some ymax) ny z0 z1 nz
               plot_wire = Ok fm ->
             forall key arr, components fm !! key = Some arr ->
                             all_finite arr).
  { intros x0 x1 z0 z1 ymin ymax fm Hlo Hhi H key arr Harr.
    unfold make_rectangular_dipole_corrector_fieldmesh in H.
    inv_bind_as H xs Hxs. inv_bind_as H ys Hys. inv_bind_as H zs Hzs.
    apply linspace_opt_Ok in Hys as (y0 & y1 & E0 & E1 & Hys).
    injection E0 as <-. injection E1 as <-.
    pose proof (meshgrid_Y_elem xs ys zs) as HY.
    destruct (np_meshgrid xs ys zs) as [[X Y] Z]. cbn [fst snd] in HY.
    cbn [need mbind result_bind] in H. inv_bind_as H B HB.
    apply assemble_fieldmesh_Ok in H
      as (dx & dy & dz & x0' & y0' & z0' & _ & _ & _ & _ & _ & _ & _ & Hc).
    assert (HF : field_finite B).
    { apply (corrector_finite _ _ _ _ _ _ _ _ _ HB). intros P HP.
      apply stacked_elem_y, HY in HP.
      destruct (linspace_between _ _ _ _ _ Hys HP) as (t & Ht & ->).
      apply between_abs; assumption. }
    rewrite Hc in Harr. destruct HF as (Fx & Fy & Fz).
    apply mesh_components_lookup in Harr as [[_ ->] | [[_ ->] | [_ ->]]];
      assumption. }
  split.
  - intros ymin ymax fm. apply Hmain.
  - intros R_ L theta npts fm Hh H.
    unfold make_dipole_corrector_fieldmesh in H.
    rewrite (decide_True (P := "rectangular" = "rectangular")) in H
      by reflexivity.
    cbv zeta in H. cbn [default] in H.
    revert H. apply Hmain.
    + unfold Rabs. destruct (Rcase_abs _), (Rcase_abs h); lra.
    + unfold Rabs. destruct (Rcase_abs _), (Rcase_abs h); lra.
Qed.

End Model.

(** ** The properties on concrete inputs *)

Lemma example_segment : ((0, 0, -1) : vec) <> (0, 0, 1).
Proof. intros E. inversion E. lra. Qed.

Lemma C1_witness :
  (exists Bx By Bz : ndarray float,
      bfield_from_thin_straight_wire mu_0 (single 1) (single 0) (single 0)
        (0, 0, -1) (0, 0, 1) 10 false false = Ok (Some (Bx, By, Bz))
      /\ flat By !! 0%nat
         = Some (Fin (spec_field mu_0 (1, 0, 0) (0, 0, -1) (0, 0, 1) 10).1.2))
  /\ norm (0, mu_0 * 10 * sqrt 2 / (4 * PI), 0) = mu_0 * 10 * sqrt 2 / (4 * PI).
Proof.
  destruct (C1_straight_wire_formula mu_0) as (Hgen & Hex & Hmag).
  split.
  - destruct (Hgen (single 1) (single 0) (single 0) (0, 0, -1) (0, 0, 1)
                (1, 0, 0) 10 0%nat)
      as (Bx & By & Bz & H & _ & Hy & _);
      [exact example_segment | reflexivity | reflexivity | reflexivity
       | reflexivity | reflexivity | rewrite example_R; lra |].
    exists Bx, By, Bz. split; assumption.
  - apply Hmag. unfold mu_0. lra.
Defined.

Lemma C2_witness :
  exists B1 B2 : field3,
    bfield_from_thin_rectangular_coil mu_0 (single 1) (single 0) (single 0)
      1 1 (- 1 / 2) 10 false = Ok B1
    /\ bfield_from_thin_rectangular_coil mu_0 (single 1) (single 0) (single 0)
         1 1 (1 / 2) 10 false = Ok B2
    /\ bfield_from_thin_rectangular_corrector mu_0 (single 1) (single 0)
         (single 0) 1 1 1 10 false = Ok (field3_add B1 B2).
Proof.
  destruct (C2_corrector_is_sum_of_coils mu_0 (single 1) (single 0) (single 0)
              1 1 1 10 false) as (_ & H & _).
  apply H; [lra | lra | reflexivity | reflexivity].
Defined.


Lemma C6_witness :
  exists fm : FieldMesh,
    make_rectangular_dipole_corrector_fieldmesh mu_0 registry_alias
      (Some (1 / 2)) (Some 1) (Some (1 / 5)) 10
      (Some (-1)) (Some 1) 3 (Some (-1)) (Some 1) 3 (Some (-1)) (Some 1) 3
      false = Ok fm
    /\ attrs fm !! "gridOriginOffset" = Some (AFloat3 (-1, -1, -1))
    /\ attrs fm !! "gridSize"
       = Some (AShape (Z.to_nat 3, Z.to_nat 3, Z.to_nat 3)).
Proof.
  destruct (make_rectangular_returns mu_0 registry_alias (1 / 2) 1 (1 / 5) 10
              (-1) 1 3 (-1) 1 3 (-1) 1 3 false) as [fm Hfm];
    [lra | lra | lia | lia | lia
     | eexists; reflexivity | eexists; reflexivity | eexists; reflexivity |].
  exists fm. split; [exact Hfm |].
  destruct (C6_rectangular_mesh_metadata _ _ _ _ _ _ _ _ _ _ _ _ _ _ _ _ _ Hfm)
    as (H1 & _ & H3 & _).
  split; assumption.
Defined.

Lemma C7_witness :
  exists ps : list vec,
    get_arc_vectors 0 1 (PI / 2) 3 default_arc_e3 = Ok ps
    /\ length ps = Z.to_nat 3.
Proof.
  destruct (C7_arc_points_and_segment_sum mu_0 0 1 (PI / 2) 3 ltac:(lia))
    as (ps & H1 & H2 & _).
  exists ps. split; assumption.
Defined.

Lemma C8_witness :
  getitem registry_from_alias example_mesh "Bq"
  = Raise (ValueError "Key not available: Bq").
Proof.
  destruct (C8_unknown_key_raises registry_from_alias) as [H _].
  apply (H example_mesh "Bq");
    [reflexivity | intros comp Hc; vm_compute in Hc; discriminate Hc
     | discriminate | discriminate].
Defined.

Lemma C9_witness :
  bfield_from_thin_straight_wire mu_0 (single 1) (single 0) (single 0)
    (0, 0, -1) (0, 0, 1) 10 true true = Ok None.
Proof.
  apply (C9_both_flags_return_None mu_0 (single 1) (single 0) (single 0)
           (0, 0, -1) (0, 0, 1) 10 example_segment eq_refl eq_refl).
Defined.

Lemma C10_witness :
  axis_labels example_mesh = Raise (KeyError "rectangular")
  /\ exists fm : FieldMesh,
      make_rectangular_dipole_corrector_fieldmesh mu_0 registry_alias
        (Some (1 / 2)) (Some 1) (Some (1 / 5)) 10
        (Some (-1)) (Some 1) 3 (Some (-1)) (Some 1) 3 (Some (-1)) (Some 1) 3
        false = Ok fm
      /\ coord_vec fm "z" = Raise (KeyError "rectangular").
Proof.
  destruct (C10_rectangular_geometry_breaks_axis_accessors mu_0 registry_alias)
    as (Hacc & _ & _ & Hrect & _).
  split.
  - apply (Hacc example_mesh). reflexivity.
  - destruct (make_rectangular_returns mu_0 registry_alias (1 / 2) 1 (1 / 5) 10
                (-1) 1 3 (-1) 1 3 (-1) 1 3 false) as [fm Hfm];
      [lra | lra | lia | lia | lia
       | eexists; reflexivity | eexists; reflexivity | eexists; reflexivity |].
    exists fm. split; [exact Hfm |].
    apply (Hacc fm). eapply Hrect. exact Hfm.
Defined.

Lemma example_angle : 0 < Rabs (PI / 2) < 2 * PI.
Proof.
  pose proof PI_RGT_0 as Hpi. rewrite Rabs_right by lra. lra.
Qed.

Lemma example_one_point (v : R) : has_shape (1, 1, 1)%nat (single v).
Proof. split; reflexivity. Qed.

Lemma example_rectangular_mesh :
  exists fm : FieldMesh,
    make_rectangular_dipole_corrector_fieldmesh mu_0 registry_alias
      (Some (1 / 2)) (Some 1) (Some (1 / 5)) 10
      (Some (-1)) (Some 1) 3 (Some (-1 / 20)) (Some (1 / 20)) 3
      (Some (-1)) (Some 1) 3 false = Ok fm.
Proof.
  apply (make_rectangular_returns mu_0 registry_alias (1 / 2) 1 (1 / 5) 10
           (-1) 1 3 (-1 / 20) (1 / 20) 3 (-1) 1 3 false);
    [lra | lra | lia | lia | lia
     | eexists; reflexivity | eexists; reflexivity | eexists; reflexivity].
Qed.

Lemma example_components_registered (B : field3) (k : string) :
  is_Some (mesh_components B !! k) ->
  is_Some (registry_alias !! k)
  /\ registry_alias !! k <> Some "_data"
  /\ registry_alias !! k <> Some "factor".
Proof.
  intros [a Ha].
  apply mesh_components_lookup in Ha as [[-> _] | [[-> _] | [-> _]]];
    (split; [eexists; reflexivity |]);
    split; intros E; vm_compute in E; discriminate E.
Qed.

Lemma X2_witness :
  bfield_from_thin_straight_wire mu_0 (single 1) (single 0) (single 0)
    (0, 0, -1) (0, 0, 1) (3 * 10) false false
  = Ok (Some (field3_scale 3
                (wire_field mu_0 (single 1) (single 0) (single 0)
                   (0, 0, -1) (0, 0, 1) 10))).
Proof.
  destruct (X2_wire_linear_in_current mu_0 (single 1) (single 0) (single 0)
              (0, 0, -1) (0, 0, 1) false false) as [H _].
  apply H.
  apply (wire_returns mu_0 (single 1) (single 0) (single 0) (0, 0, -1)
           (0, 0, 1) 10 false false example_segment eq_refl eq_refl).
Defined.





Lemma X4_witness :
  0 < mu_0 * 10 * 2 / (2 * PI * 1 * sqrt (2 ^ 2 + 4 * 1 ^ 2))
    < mu_0 * 10 / (2 * PI * 1).
Proof.
  pose proof (X4_wire_field_opposite_midpoint mu_0 (0, 0, -1) (0, 0, 1)
                (1, 0, 0) 2 1 10) as H.
  cbv zeta in H. destruct H as [_ H]; [lra | lra | | | |].
  - unfold dot. lra.
  - unfold dot. lra.
  - unfold dot. lra.
  - apply H. unfold mu_0. lra.
Defined.

Lemma X5_witness :
  bfield_from_thin_rectangular_coil mu_0 (single 0) (single 0) (single 0)
    1 1 0 10 false
  = Ok (single (Fin 0),
        single (Fin (- (2 * mu_0 * 10 * sqrt (1 ^ 2 + 1 ^ 2) / (PI * 1 * 1)))),
        single (Fin 0)).
Proof.
  apply (X5_rectangular_coil_centre_field mu_0 1 1 0 10 false); lra.
Defined.

Lemma X6_witness :
  exists msg : string,
    bfield_from_thin_wire_arc mu_0 (single 1) (single 0) (single 0)
      0 1 (PI / 2) (-1) 10 false = Raise (ValueError msg).
Proof.
  destruct (X6_arc_without_segments mu_0 (single 1) (single 0) (single 0)
              0 1 (PI / 2) 10 false) as (_ & _ & H).
  apply H. lia.
Defined.

Lemma X7_witness :
  exists ps1 ps2 : list vec,
    get_arc_vectors (- 1 / 2) 1 (PI / 2) 3 default_arc_e3 = Ok ps1
    /\ get_arc_vectors (1 / 2) 1 (- (PI / 2)) 3 default_arc_e3 = Ok ps2
    /\ last ps1 = Some (saddle_p12 1 1 (PI / 2))
    /\ head ps2 = Some (saddle_p22 1 1 (PI / 2)).
Proof.
  destruct (X7_saddle_coil_is_closed_loop mu_0 1 1 (PI / 2) 3 ltac:(lia))
    as [(ps1 & ps2 & H1 & H2 & _ & H4 & H5 & _) _].
  exists ps1, ps2. repeat split; assumption.
Defined.

Lemma X8_witness :
  exists B : field3,
    bfield_from_thin_saddle_corrector mu_0 (single 1) (single 0) (single 0)
      1 1 (PI / 2) 10 3 false = Ok B
    /\ field_has_shape (1, 1, 1)%nat B.
Proof.
  destruct (X8_saddle_corrector_returns mu_0 (1, 1, 1)%nat
              (single 1) (single 0) (single 0) 1 1 (PI / 2) 10 3 false
              (example_one_point 1) (example_one_point 0)
              (example_one_point 0) ltac:(lia)) as [H _].
  destruct H as [_ H]; [lra | lra | exact example_angle |]. exact H.
Defined.

Lemma X10_witness :
  returns (make_thin_straight_wire_fieldmesh mu_0 registry_alias
             (0, 0, -1) (0, 0, 1) 10
             (Some (-1)) (Some 1) 3 (Some (-1)) (Some 1) 3
             (Some (-1)) (Some 1) 3 false).
Proof.
  destruct (X10_straight_wire_builder mu_0 registry_alias (0, 0, -1) (0, 0, 1)
              10 3 3 3 false) as (_ & _ & _ & H).
  apply H;
    [exact example_segment | lia | lia | lia
     | eexists; reflexivity | eexists; reflexivity | eexists; reflexivity].
Defined.

Lemma X11_witness :
  returns (make_saddle_dipole_corrector_fieldmesh mu_0 registry_alias
             (Some 1) (Some 1) (Some (PI / 2)) 10
             (Some (-1)) (Some 1) 3 (Some (-1)) (Some 1) 3
             (Some (-1)) (Some 1) 3 (Some 3%Z) false).
Proof.
  destruct (X11_saddle_builder mu_0 registry_alias 10 3 3 3 false) as [_ H].
  apply H;
    [lra | lra | exact example_angle | lia | lia | lia | lia
     | eexists; reflexivity | eexists; reflexivity | eexists; reflexivity].
Defined.

Lemma X12_witness :
  exists fm : FieldMesh,
    make_rectangular_dipole_corrector_fieldmesh mu_0 registry_alias
      (Some (1 / 2)) (Some 1) (Some (1 / 5)) 10
      (Some (-1)) (Some 1) 3 (Some (-1 / 20)) (Some (1 / 20)) 3
      (Some (-1)) (Some 1) 3 false = Ok fm
    /\ recovers_grid fm (-1, -1 / 20, -1) (1, 1 / 20, 1) 3 3 3.
Proof.
  destruct example_rectangular_mesh as [fm Hfm]. exists fm.
  split; [exact Hfm |].
  destruct (X12_built_mesh_recovers_grid mu_0 registry_alias 10 3 3 3
              (-1) 1 (-1 / 20) (1 / 20) (-1) 1 false) as [H _].
  apply (H _ _ _ fm Hfm).
Defined.

Lemma X13_witness :
  make_dipole_corrector_fieldmesh mu_0 registry_alias 10
    None None 3 None None 3 None None 3 "round"
    None None None None None None None false
  = Raise (ValueError "Invalid mode. Choose either 'rectangular' or 'saddle'.").
Proof.
  destruct (X13_dipole_dispatch_and_default_bounds mu_0 registry_alias 10
              None None None None None None 3 3 3 None false) as [H _].
  apply H; discriminate.
Defined.

Lemma X14_witness :
  is_pure_magnetic registry_from_alias example_mesh = Ok true.
Proof.
  destruct (X14_purity_predicates registry_from_alias example_mesh)
    as (_ & _ & H).
  destruct (H (single (Fin 0), single (Fin 0), single (Fin 0)) eq_refl)
    as [Hm _].
  exact Hm.
Defined.

Lemma X15_witness :
  exists fm : FieldMesh,
    make_rectangular_dipole_corrector_fieldmesh mu_0 registry_alias
      (Some (1 / 2)) (Some 1) (Some (1 / 5)) 10
      (Some (-1)) (Some 1) 3 (Some (-1 / 20)) (Some (1 / 20)) 3
      (Some (-1)) (Some 1) 3 false = Ok fm
    /\ is_static fm = Ok true
    /\ scale fm = Raise (KeyError "fieldScale")
    /\ phase fm = Raise (KeyError "RFphase").
Proof.
  destruct example_rectangular_mesh as [fm Hfm]. exists fm.
  split; [exact Hfm |].
  destruct (X15_static_scale_and_phase mu_0 registry_alias) as [H _].
  apply H. left. do 14 eexists. exact Hfm.
Defined.

Lemma X16_witness :
  axis_index (set_attr example_mesh "gridGeometry" (AStr "cartesian")) "z"
  = Ok 2%nat.
Proof.
  destruct (X16_axis_index_and_coord_vec
              (set_attr example_mesh "gridGeometry" (AStr "cartesian")) "z")
    as [H _].
  rewrite H by reflexivity. reflexivity.
Defined.

Lemma X17_witness :
  returns (FieldMesh_init registry_alias
             (mesh_attrs (0, 0, 0) (1, 1, 1) (1, 1, 1)%nat)
             (mesh_components (single (Fin 0), single (Fin 0), single (Fin 0)))).
Proof.
  destruct (X17_constructor_binds_aliases registry_from_alias registry_alias
              (mesh_attrs (0, 0, 0) (1, 1, 1) (1, 1, 1)%nat)
              (mesh_components
                 (single (Fin 0), single (Fin 0), single (Fin 0))))
    as ([_ H] & _).
  - intros k Hk. apply (example_components_registered _ _ Hk).
  - apply H. intros k Hk. apply (example_components_registered _ _ Hk).
Defined.

Lemma X18_witness :
  exists fm : FieldMesh,
    make_rectangular_dipole_corrector_fieldmesh mu_0 registry_alias
      (Some (1 / 2)) (Some 1) (Some (1 / 5)) 10
      (Some (-1)) (Some 1) 3 (Some (-1 / 20)) (Some (1 / 20)) 3
      (Some (-1)) (Some 1) 3 false = Ok fm
    /\ getitem registry_from_alias fm "B"
       = Raise (RuntimeError "No active exception to reraise").
Proof.
  destruct example_rectangular_mesh as [fm Hfm]. exists fm.
  split; [exact Hfm |].
  destruct (X18_magnitude_accessors mu_0 registry_from_alias registry_alias)
    as [H _].
  destruct (H fm) as (_ & _ & HB & _).
  - left. do 14 eexists. exact Hfm.
  - apply HB. reflexivity.
Defined.

Lemma X19_witness :
  make_dipole_corrector_fieldmesh mu_0 registry_alias 10
    None None 3 None None 3 None None 3 "saddle"
    None None None (Some 1) (Some 1) (Some (PI / 2)) None false
  = Raise (TypeError "'NoneType' object cannot be interpreted as an integer").
Proof.
  destruct (X19_saddle_mode_without_npts mu_0 registry_alias 10
              None None None None None None 3 3 3 None None None
              1 1 (PI / 2) false) as [H _].
  apply H; lia.
Defined.

Lemma X20_witness :
  exists fm : FieldMesh,
    make_rectangular_dipole_corrector_fieldmesh mu_0 registry_alias
      (Some (1 / 2)) (Some 1) (Some (1 / 5)) 10
      (Some (-1)) (Some 1) 3 (Some (-1 / 20)) (Some (1 / 20)) 3
      (Some (-1)) (Some 1) 3 false = Ok fm
    /\ forall key arr, components fm !! key = Some arr -> all_finite arr.
Proof.
  destruct example_rectangular_mesh as [fm Hfm]. exists fm.
  split; [exact Hfm |].
  destruct (X20_rectangular_mesh_is_finite mu_0 registry_alias (1 / 2) 1
              (1 / 5) 10 (Some (-1)) (Some 1) (Some (-1)) (Some 1) 3 3 3 false)
    as [H _].
  apply (H (-1 / 20) (1 / 20) fm); [| | exact Hfm].
  - unfold Rabs. destruct (Rcase_abs _), (Rcase_abs _); lra.
  - unfold Rabs. destruct (Rcase_abs _), (Rcase_abs _); lra.
Defined.

(** ** The reversed wire at a point on its line, in binary64 *)

Section Binary64Examples.
#[warnings="-notation-overridden"]
Import PrimFloat.


End Binary64Examples.
